(** * Satellite telemetry monitor: a shallow embedding of [satellite_monitor.py]

    The development follows the Python module top-down:
    - [PyStr]: the [str] methods the monitor calls ([strip], [split]) and
      slicing;
    - [PyTime]: the part of [datetime] the monitor relies on:
      [strptime] for the two formats of the source, [strftime] for the output
      format, comparison of datetimes (the sort key) and subtraction to a
      [timedelta];
    - the monitor: the methods of the class [SatelliteMonitor], with its
      state passed explicitly and Python exceptions as the left summand of
      a sum type.

    Text is modelled as Rocq [string]s, i.e. 8-bit characters: the behaviour
    of the Python functions on non-ASCII text (Unicode digits and spaces) is
    outside the model.  Floating-point values are IEEE-754 binary64 values in
    the representation of [SpecFloat], compared with [SFltb] and [SFeqb]. *)

From Stdlib Require Import ZArith Lia List Ascii String Bool.
From Stdlib Require Import Sorting.Sorted Sorting.Permutation.
From Stdlib Require Import Floats.SpecFloat.
From stdpp Require Import base option list gmap strings.

Local Open Scope string_scope.
Local Open Scope list_scope.
Local Open Scope Z_scope.

(** ** Exceptions *)

(** The two exception classes the module can raise.  [ValueError] carries
    the text the failed conversion was applied to (CPython quotes it in the
    message); [IndexError] is ["list index out of range"] and carries
    nothing. *)
Inductive exn : Type :=
  | IndexError
  | ValueError (text : string).

(** A computation that returns an [A] or raises. *)
Definition py (A : Type) : Type := (exn + A)%type.

Definition raise {A : Type} (e : exn) : py A := inl e.

#[global] Instance py_ret : MRet py := fun A a => inr a.
#[global] Instance py_bind : MBind py := fun A B f x =>
  match x with
  | inl e => inl e
  | inr a => f a
  end.

#[global] Instance exn_eq_dec : EqDecision exn.
Proof. solve_decision. Defined.

(** [fields[i]]: list indexing raises [IndexError] out of range. *)
Definition getitem {A : Type} (l : list A) (i : nat) : py A :=
  match l !! i with
  | Some x => inr x
  | None => raise IndexError
  end.

(** ** Strings *)

Module PyStr.

(** [str.isspace] on the 8-bit range that is ASCII: TAB, LF, VT, FF, CR,
    the four separators FS, GS, RS, US, and the space. *)
Definition is_space (c : ascii) : bool :=
  let n := nat_of_ascii c in
  ((9 <=? n)%nat && (n <=? 13)%nat) || ((28 <=? n)%nat && (n <=? 32)%nat).

Fixpoint lstrip (s : string) : string :=
  match s with
  | EmptyString => EmptyString
  | String c s' => if is_space c then lstrip s' else s
  end.

Fixpoint rstrip (s : string) : string :=
  match s with
  | EmptyString => EmptyString
  | String c s' =>
      match rstrip s' with
      | EmptyString => if is_space c then EmptyString else String c EmptyString
      | t => String c t
      end
  end.

(** [s.strip()] *)
Definition strip (s : string) : string := rstrip (lstrip s).

(** [s.split(sep)] for a one-character separator: never the empty list. *)
Fixpoint split (sep : ascii) (s : string) : list string :=
  match s with
  | EmptyString => [EmptyString]
  | String c s' =>
      if Ascii.eqb c sep then EmptyString :: split sep s'
      else match split sep s' with
           | f :: fs => String c f :: fs
           | [] => [String c EmptyString]
           end
  end.

(** [s[:-k]] for [k > 0]: all but the last [k] characters. *)
Definition drop_last (k : nat) (s : string) : string :=
  substring 0 (String.length s - k) s.

(** [not s]: a string is falsy when empty. *)
Definition is_empty (s : string) : bool :=
  match s with
  | EmptyString => true
  | String _ _ => false
  end.

End PyStr.

(** ** Dates and times *)

Module PyTime.

(** *** Regular expressions of [_strptime], as backtracking parsers

    A parser returns every way of matching a prefix of the input, in the
    order in which the regular-expression engine tries them; [re.match]
    keeps the first one. *)
Definition parser (A : Type) : Type := string -> list (A * string).

Definition p_ret {A : Type} (a : A) : parser A := fun s => [(a, s)].

Definition p_bind {A B : Type} (p : parser A) (f : A -> parser B) : parser B :=
  fun s => flat_map (fun r => f (fst r) (snd r)) (p s).

(** [p1|p2|...]: the alternatives are tried from left to right. *)
Definition p_alts {A : Type} (ps : list (parser A)) : parser A :=
  fun s => flat_map (fun p => p s) ps.

#[global] Instance parser_ret : MRet parser := @p_ret.
#[global] Instance parser_bind : MBind parser := fun A B f p => p_bind p f.

(** One character in the closed range [lo]..[hi]. *)
Definition p_range (lo hi : ascii) : parser ascii := fun s =>
  match s with
  | String c s' =>
      if ((nat_of_ascii lo <=? nat_of_ascii c)%nat
          && (nat_of_ascii c <=? nat_of_ascii hi)%nat)%bool
      then [(c, s')] else []
  | EmptyString => []
  end.

Definition p_char (c : ascii) : parser ascii := p_range c c.

Definition digit_val (c : ascii) : Z := Z.of_nat (nat_of_ascii c) - 48.

(** A digit in [lo]..[hi], as its value. *)
Definition p_digit (lo hi : ascii) : parser Z :=
  c ← p_range lo hi; mret (digit_val c).

(** [\d] *)
Definition p_d : parser Z := p_digit "0" "9".

(** [\s+], greedy: the longest run of spaces first, then shorter ones. *)
Fixpoint p_spaces (s : string) : list (unit * string) :=
  match s with
  | String c s' =>
      if PyStr.is_space c then p_spaces s' ++ [(tt, s')] else []
  | EmptyString => []
  end.

(** [(?P<Y>\d\d\d\d)] *)
Definition re_Y : parser Z :=
  a ← p_d; b ← p_d; c ← p_d; d ← p_d;
  mret (1000 * a + 100 * b + 10 * c + d).

(** [(?P<m>1[0-2]|0[1-9]|[1-9])] *)
Definition re_m : parser Z :=
  p_alts [ (_ ← p_char "1"; d ← p_digit "0" "2"; mret (10 + d));
           (_ ← p_char "0"; p_digit "1" "9");
           p_digit "1" "9" ].

(** [(?P<d>3[0-1]|[1-2]\d|0[1-9]|[1-9]| [1-9])] *)
Definition re_d : parser Z :=
  p_alts [ (_ ← p_char "3"; d ← p_digit "0" "1"; mret (30 + d));
           (t ← p_digit "1" "2"; d ← p_d; mret (10 * t + d));
           (_ ← p_char "0"; p_digit "1" "9");
           p_digit "1" "9";
           (_ ← p_char " "; p_digit "1" "9") ].

(** [(?P<H>2[0-3]|[0-1]\d|\d)] *)
Definition re_H : parser Z :=
  p_alts [ (_ ← p_char "2"; d ← p_digit "0" "3"; mret (20 + d));
           (t ← p_digit "0" "1"; d ← p_d; mret (10 * t + d));
           p_d ].

(** [(?P<M>[0-5]\d|\d)] *)
Definition re_M : parser Z :=
  p_alts [ (t ← p_digit "0" "5"; d ← p_d; mret (10 * t + d));
           p_d ].

(** [(?P<S>6[0-1]|[0-5]\d|\d)] *)
Definition re_S : parser Z :=
  p_alts [ (_ ← p_char "6"; d ← p_digit "0" "1"; mret (60 + d));
           (t ← p_digit "0" "5"; d ← p_d; mret (10 * t + d));
           p_d ].

(** Up to [n] further digits after the accumulated value [acc], greedy;
    when the digits stop early the value is padded with zeros on the
    right. *)
Fixpoint p_more_digits (n : nat) (acc : Z) : parser Z :=
  match n with
  | O => mret acc
  | S n' =>
      p_alts [ (d ← p_d; p_more_digits n' (10 * acc + d));
               mret (acc * 10 ^ Z.of_nat n) ]
  end.

(** [(?P<f>[0-9]{1,6})], with the conversion
    [s += "0" * (6 - len(s)); fraction = int(s)]. *)
Definition re_f : parser Z :=
  d ← p_d; p_more_digits 5 d.

(** *** [datetime] values *)

Record datetime : Type := mk_datetime {
  year : Z; month : Z; day : Z;
  hour : Z; minute : Z; second : Z; microsecond : Z
}.

#[global] Instance datetime_eq_dec : EqDecision datetime.
Proof. solve_decision. Defined.

Definition _is_leap (y : Z) : bool :=
  (y mod 4 =? 0) && (negb (y mod 100 =? 0) || (y mod 400 =? 0)).

(** [_DAYS_IN_MONTH] with the February adjustment of [_days_in_month]. *)
Definition _days_in_month (y m : Z) : Z :=
  if (m =? 2) && _is_leap y then 29
  else nth (Z.to_nat m) [-1; 31; 28; 31; 30; 31; 30; 31; 31; 30; 31; 30; 31] (-1).

(** [_DAYS_BEFORE_MONTH] with the leap-day adjustment of
    [_days_before_month]. *)
Definition _days_before_month (y m : Z) : Z :=
  nth (Z.to_nat m) [-1; 0; 31; 59; 90; 120; 151; 181; 212; 243; 273; 304; 334] (-1)
  + (if (2 <? m) && _is_leap y then 1 else 0).

Definition _days_before_year (y : Z) : Z :=
  let y1 := y - 1 in y1 * 365 + y1 / 4 - y1 / 100 + y1 / 400.

Definition _ymd2ord (y m d : Z) : Z :=
  _days_before_year y + _days_before_month y m + d.

Definition toordinal (t : datetime) : Z :=
  _ymd2ord (year t) (month t) (day t).

(** [_check_date_fields] and [_check_time_fields]: the constructor
    accepts exactly the proleptic Gregorian dates of years 1..9999. *)
Definition check_fields (y m d H M S f : Z) : bool :=
  (1 <=? y) && (y <=? 9999) && (1 <=? m) && (m <=? 12)
  && (1 <=? d) && (d <=? _days_in_month y m)
  && (0 <=? H) && (H <=? 23) && (0 <=? M) && (M <=? 59)
  && (0 <=? S) && (S <=? 59) && (0 <=? f) && (f <=? 999999).

Definition valid (t : datetime) : bool :=
  check_fields (year t) (month t) (day t)
               (hour t) (minute t) (second t) (microsecond t).

(** *** [datetime.strptime] *)

(** The regular expression of ['%Y%m%d %H:%M:%S.%f']. *)
Definition re_fractional : parser datetime :=
  Y ← re_Y; m ← re_m; d ← re_d; _ ← p_spaces;
  H ← re_H; _ ← p_char ":"; M ← re_M; _ ← p_char ":"; S ← re_S;
  _ ← p_char "."; f ← re_f;
  mret (mk_datetime Y m d H M S f).

(** The regular expression of ['%Y%m%d %H:%M:%S']. *)
Definition re_whole : parser datetime :=
  Y ← re_Y; m ← re_m; d ← re_d; _ ← p_spaces;
  H ← re_H; _ ← p_char ":"; M ← re_M; _ ← p_char ":"; S ← re_S;
  mret (mk_datetime Y m d H M S 0).

(** [_strptime] then the [datetime] constructor: the first match of the
    expression must consume the whole text ("unconverted data remains"
    otherwise) and its fields must pass the constructor's range checks.
    Every failure is a [ValueError]; its message, which in CPython names
    the format or the unconverted rest, is not modelled: the exception
    carries the text given. *)
Definition strptime_with (re : parser datetime) (text : string) : py datetime :=
  match re text with
  | [] => raise (ValueError text)
  | (t, rest) :: _ =>
      if PyStr.is_empty rest && valid t then mret t
      else raise (ValueError text)
  end.

(** [datetime.strptime(text, '%Y%m%d %H:%M:%S.%f')] *)
Definition strptime_fractional : string -> py datetime :=
  strptime_with re_fractional.

(** [datetime.strptime(text, '%Y%m%d %H:%M:%S')] *)
Definition strptime_whole : string -> py datetime :=
  strptime_with re_whole.

(** *** [datetime.strftime] *)

Definition digit_char (d : Z) : ascii := ascii_of_nat (48 + Z.to_nat d).

(** The [w] low decimal digits of [n]: for [0 <= n < 10^w], [n] written
    in decimal and zero-padded to width [w]. *)
Fixpoint dec (w : nat) (n : Z) : string :=
  match w with
  | O => EmptyString
  | S w' => dec w' (n / 10) +:+ String (digit_char (n mod 10)) EmptyString
  end.

(** [%Y] for the years 1..9999 of a [datetime], which CPython leaves to
    the C library: glibc writes the year as a decimal number without
    padding, so that years before 1000 have fewer than four digits. *)
Definition strftime_Y (y : Z) : string :=
  if y <? 10 then dec 1 y
  else if y <? 100 then dec 2 y
  else if y <? 1000 then dec 3 y
  else dec 4 y.

(** [t.strftime('%Y-%m-%dT%H:%M:%S.%f')]: the other fields are written
    zero-padded to their width, the microseconds with six digits. *)
Definition strftime_iso (t : datetime) : string :=
  strftime_Y (year t) +:+ "-" +:+ dec 2 (month t) +:+ "-" +:+ dec 2 (day t)
  +:+ "T" +:+ dec 2 (hour t) +:+ ":" +:+ dec 2 (minute t)
  +:+ ":" +:+ dec 2 (second t) +:+ "." +:+ dec 6 (microsecond t).

(** *** Comparison of datetimes *)

(** Comparison of tuples of integers, as Python compares tuples. *)
Fixpoint tuple_cmp (a b : list Z) : comparison :=
  match a, b with
  | [], [] => Eq
  | [], _ :: _ => Lt
  | _ :: _, [] => Gt
  | x :: a', y :: b' =>
      match Z.compare x y with
      | Eq => tuple_cmp a' b'
      | c => c
      end
  end.

Definition dt_tuple (t : datetime) : list Z :=
  [year t; month t; day t; hour t; minute t; second t; microsecond t].

(** [a < b] on naive datetimes: [_cmp] of the field tuples. *)
Definition dt_ltb (a b : datetime) : bool :=
  match tuple_cmp (dt_tuple a) (dt_tuple b) with
  | Lt => true
  | _ => false
  end.

(** *** [timedelta] *)

Record timedelta : Type := mk_timedelta {
  days : Z; seconds : Z; microseconds : Z
}.

#[global] Instance timedelta_eq_dec : EqDecision timedelta.
Proof. solve_decision. Defined.

(** [timedelta(days=d, seconds=s, microseconds=us)] on integers: the
    constructor normalises to [0 <= seconds < 86400] and
    [0 <= microseconds < 1000000]. *)
Definition timedelta_new (d s us : Z) : timedelta :=
  let s1 := s + us / 1000000 in
  mk_timedelta (d + s1 / 86400) (s1 mod 86400) (us mod 1000000).

(** [timedelta(minutes=n)] *)
Definition timedelta_minutes (n : Z) : timedelta := timedelta_new 0 (60 * n) 0.

(** [a - b] on naive datetimes ([datetime.__sub__]). *)
Definition dt_sub (a b : datetime) : timedelta :=
  let secs1 := second a + minute a * 60 + hour a * 3600 in
  let secs2 := second b + minute b * 60 + hour b * 3600 in
  timedelta_new (toordinal a - toordinal b) (secs1 - secs2)
                (microsecond a - microsecond b).

Definition td_tuple (d : timedelta) : list Z :=
  [days d; seconds d; microseconds d].

(** [a <= b] on timedeltas: [_cmp] of the state tuples. *)
Definition td_leb (a b : timedelta) : bool :=
  match tuple_cmp (td_tuple a) (td_tuple b) with
  | Gt => false
  | _ => true
  end.

(** The duration in microseconds. *)
Definition total_microseconds (d : timedelta) : Z :=
  (days d * 86400 + seconds d) * 1000000 + microseconds d.

End PyTime.

(** ** The monitor *)

Import PyTime.

(** The dictionary [parse_line] returns and [process_telemetry] reads. *)
Record telemetry : Type := mk_telemetry {
  timestamp : string;
  satelliteId : Z;
  red_high_limit : spec_float;
  yellow_high_limit : spec_float;
  yellow_low_limit : spec_float;
  red_low_limit : spec_float;
  raw_value : spec_float;
  component : string
}.

(** An entry of a key's history: the dictionary appended by
    [process_telemetry]. *)
Record reading : Type := mk_reading {
  r_timestamp : datetime;
  value : spec_float;
  limit : spec_float;
  original_timestamp : string
}.

(** An alert dictionary. *)
Record alert : Type := mk_alert {
  a_satelliteId : Z;
  severity : string;
  a_component : string;
  a_timestamp : string
}.

#[global] Instance alert_eq_dec : EqDecision alert.
Proof. solve_decision. Defined.

(** The attributes of a [SatelliteMonitor] that change: [self.readings], a
    [defaultdict(list)] keyed by [(satelliteId, component)], and
    [self.alerts]. *)
Record monitor : Type := mk_monitor {
  readings : gmap (Z * string) (list reading);
  alerts : list alert
}.

(** [SatelliteMonitor()] *)
Definition init : monitor := mk_monitor ∅ [].

(** [self.time_window], set once by [__init__]: [timedelta(minutes=5)]. *)
Definition time_window : timedelta := timedelta_minutes 5.

(** [try: body except ValueError: handler] *)
Definition try_except_ValueError {A : Type} (body handler : py A) : py A :=
  match body with
  | inl (ValueError _) => handler
  | r => r
  end.

(** The two-format parse that [process_telemetry] and [get_alerts] share. *)
Definition parse_timestamp (text : string) : py datetime :=
  try_except_ValueError (strptime_fractional text) (strptime_whole text).

(** [r['value'] > r['limit']] *)
Definition exceeds_limit (r : reading) : bool := SFltb (limit r) (value r).

(** [r['value'] < r['limit']] *)
Definition below_limit (r : reading) : bool := SFltb (value r) (limit r).

(** [violating_readings.sort(key=lambda x: x['timestamp'])]: the sort is
    stable and compares keys with [<] only; it is modelled as the stable
    insertion sort, which computes the same list. *)
Fixpoint insert_by_timestamp (x : reading) (l : list reading) : list reading :=
  match l with
  | [] => [x]
  | y :: l' =>
      if dt_ltb (r_timestamp y) (r_timestamp x)
      then y :: insert_by_timestamp x l'
      else x :: l
  end.

Fixpoint sort_by_timestamp (l : list reading) : list reading :=
  match l with
  | [] => []
  | x :: l' => insert_by_timestamp x (sort_by_timestamp l')
  end.

(** The condition of the window test on [r1] and [r2]. *)
Definition within_window (r1 r2 : reading) : bool :=
  td_leb (dt_sub (r_timestamp r2) (r_timestamp r1)) time_window.

(** [if alert not in self.alerts: self.alerts.append(alert)] *)
Definition add_alert (a : alert) (als : list alert) : list alert :=
  if decide (a ∈ als) then als else als ++ [a].

(** The [for i in range(...)] loop of [check_violations], over the indices
    still to visit; a qualifying index ends the loop ([break]). *)
Fixpoint scan_triplets (satellite_id : Z) (sev comp : string)
    (violating_readings : list reading) (indices : list nat)
    (als : list alert) : py (list alert) :=
  match indices with
  | [] => mret als
  | i :: rest =>
      r1 ← getitem violating_readings i;
      r2 ← getitem violating_readings (i + 2)%nat;
      if within_window r1 r2
      then mret (add_alert (mk_alert satellite_id sev comp (original_timestamp r1)) als)
      else scan_triplets satellite_id sev comp violating_readings rest als
  end.

(** [range(n)] *)
Definition range (n : nat) : list nat := seq 0 n.

(** The part of [check_violations] after the component dispatch. *)
Definition check_triplets (satellite_id : Z) (sev comp : string)
    (violating_readings : list reading) (als : list alert) : py (list alert) :=
  if (3 <=? length violating_readings)%nat
  then
    let sorted := sort_by_timestamp violating_readings in
    scan_triplets satellite_id sev comp sorted (range (length sorted - 2)) als
  else mret als.

(** [self.readings[key]] on the [defaultdict]: an absent key is created
    with the empty list. *)
Definition readings_get (rd : gmap (Z * string) (list reading)) (key : Z * string)
    : list reading * gmap (Z * string) (list reading) :=
  match rd !! key with
  | Some l => (l, rd)
  | None => ([], <[key := []]> rd)
  end.

Definition check_violations (m : monitor) (key : Z * string) : py monitor :=
  let satellite_id := key.1 in
  let comp := key.2 in
  let (rs, rd) := readings_get (readings m) key in
  if String.eqb comp "TSTAT" then
    als ← check_triplets satellite_id "RED HIGH" comp
            (List.filter exceeds_limit rs) (alerts m);
    mret (mk_monitor rd als)
  else if String.eqb comp "BATT" then
    als ← check_triplets satellite_id "RED LOW" comp
            (List.filter below_limit rs) (alerts m);
    mret (mk_monitor rd als)
  else mret (mk_monitor rd (alerts m)).

(** The reading [process_telemetry] appends for [data]. *)
Definition reading_of (data : telemetry) (ts : datetime) : reading :=
  mk_reading ts (raw_value data)
    (if String.eqb (component data) "TSTAT"
     then red_high_limit data else red_low_limit data)
    (timestamp data).

Definition process_telemetry (m : monitor) (data : telemetry) : py monitor :=
  ts ← parse_timestamp (timestamp data);
  let key := (satelliteId data, component data) in
  let (rs, rd) := readings_get (readings m) key in
  let m1 := mk_monitor (<[key := rs ++ [reading_of data ts]]> rd) (alerts m) in
  check_violations m1 key.

(** The timestamp of a formatted alert:
    [dt.strftime('%Y-%m-%dT%H:%M:%S.%f')[:-3] + 'Z']. *)
Definition format_timestamp (text : string) : py string :=
  dt ← parse_timestamp text;
  mret (PyStr.drop_last 3 (strftime_iso dt) +:+ "Z").

Definition format_alert (a : alert) : py alert :=
  ts ← format_timestamp (a_timestamp a);
  mret (mk_alert (a_satelliteId a) (severity a) (a_component a) ts).

(** [get_alerts], up to the list [formatted_alerts]; its serialisation by
    [json.dumps] is not modelled. *)
Fixpoint formatted_alerts (als : list alert) : py (list alert) :=
  match als with
  | [] => mret []
  | a :: rest =>
      fa ← format_alert a;
      fas ← formatted_alerts rest;
      mret (fa :: fas)
  end.

Definition get_alerts (m : monitor) : py (list alert) :=
  formatted_alerts (alerts m).

Section Parsing.

(** The builtins [int] and [float] applied to text: [None] stands for the
    [ValueError] they raise on text they do not accept. *)
Variable builtin_int : string -> option Z.
Variable builtin_float : string -> option spec_float.

Definition int (text : string) : py Z :=
  match builtin_int text with
  | Some z => mret z
  | None => raise (ValueError text)
  end.

Definition float (text : string) : py spec_float :=
  match builtin_float text with
  | Some x => mret x
  | None => raise (ValueError text)
  end.

(** The dictionary display of [parse_line], its values evaluated in
    order. *)
Definition parse_fields (fields : list string) : py telemetry :=
  f0 ← getitem fields 0;
  f1 ← getitem fields 1; sat ← int f1;
  f2 ← getitem fields 2; rh ← float f2;
  f3 ← getitem fields 3; yh ← float f3;
  f4 ← getitem fields 4; yl ← float f4;
  f5 ← getitem fields 5; rl ← float f5;
  f6 ← getitem fields 6; rv ← float f6;
  f7 ← getitem fields 7;
  mret (mk_telemetry f0 sat rh yh yl rl rv f7).

Definition parse_line (line : string) : py telemetry :=
  parse_fields (PyStr.split "|" (PyStr.strip line)).

(** The text [f] is acceptable as field [i] of a record: the satellite id
    to [int], the limits and the raw value to [float]; the timestamp and
    the component code are taken as they are. *)
Definition field_ok (i : nat) (f : string) : bool :=
  match i with
  | 1%nat => match builtin_int f with Some _ => true | None => false end
  | 2%nat | 3%nat | 4%nat | 5%nat | 6%nat =>
      match builtin_float f with Some _ => true | None => false end
  | _ => true
  end.

(** [process_file] on the lines of the opened file. *)
Fixpoint process_file (m : monitor) (lines : list string) : py monitor :=
  match lines with
  | [] => mret m
  | line :: rest =>
      if PyStr.is_empty (PyStr.strip line) then process_file m rest
      else
        data ← parse_line line;
        m' ← process_telemetry m data;
        process_file m' rest
  end.

End Parsing.

(** ** Instances of the builtins on plain decimal literals

    [int] and [float] accept more than these two functions do (surrounding
    blanks, underscores, exponents, [inf], [nan]); on a text these accept,
    they return what the builtin returns.  They serve to run the model on
    concrete records. *)

Fixpoint decimal_digits (s : string) (acc : Z) : option Z :=
  match s with
  | EmptyString => Some acc
  | String c s' =>
      if ((48 <=? nat_of_ascii c)%nat && (nat_of_ascii c <=? 57)%nat)%bool
      then decimal_digits s' (10 * acc + digit_val c)
      else None
  end.

(** A sign, if any, and the rest of the text. *)
Definition split_sign (s : string) : bool * string :=
  match s with
  | String "-" s' => (true, s')
  | String "+" s' => (false, s')
  | _ => (false, s)
  end.

(** [[+-]?[0-9]+] *)
Definition int_decimal (s : string) : option Z :=
  let (neg, body) := split_sign s in
  if PyStr.is_empty body then None
  else n ← decimal_digits body 0; Some (if neg then - n else n).

(** The binary64 value nearest to [m / 10^k], ties to even. *)
Definition float_of_decimal (neg : bool) (m : Z) (k : nat) : spec_float :=
  match m with
  | Zpos p =>
      SFdiv 53 1024 (S754_finite neg p 0)
            (S754_finite false (Z.to_pos (10 ^ Z.of_nat k)) 0)
  | _ => S754_zero neg
  end.

(** [[+-]?[0-9]+(\.[0-9]+)?] *)
Definition float_decimal (s : string) : option spec_float :=
  let (neg, body) := split_sign s in
  match PyStr.split "." body with
  | [ip] =>
      if PyStr.is_empty ip then None
      else m ← decimal_digits ip 0; Some (float_of_decimal neg m 0)
  | [ip; fp] =>
      if PyStr.is_empty ip || PyStr.is_empty fp then None
      else m ← decimal_digits (ip +:+ fp) 0;
           Some (float_of_decimal neg m (String.length fp))
  | _ => None
  end.

(** ** Sample records *)

(** The binary64 value of a decimal literal ([nan] if it is not one). *)
Definition lit (s : string) : spec_float :=
  match float_decimal s with
  | Some x => x
  | None => S754_nan
  end.

Definition line_feed : string := String (ascii_of_nat 10) EmptyString.

(** Three battery readings of satellite 7 below the red-low limit 20, the
    third one exactly five minutes after the first. *)
Definition ex_line1 : string :=
  "20240101 00:00:00.000|7|101|98|25|20|19.9|BATT" +:+ line_feed.
Definition ex_line2 : string :=
  "20240101 00:02:00.000|7|101|98|25|20|7.5|BATT" +:+ line_feed.
Definition ex_line3 : string :=
  "20240101 00:05:00|7|101|98|25|20|0.1|BATT" +:+ line_feed.

Definition ex_r1 : reading :=
  mk_reading (mk_datetime 2024 1 1 0 0 0 0) (lit "19.9") (lit "20")
             "20240101 00:00:00.000".
Definition ex_r2 : reading :=
  mk_reading (mk_datetime 2024 1 1 0 2 0 0) (lit "7.5") (lit "20")
             "20240101 00:02:00.000".
Definition ex_r3 : reading :=
  mk_reading (mk_datetime 2024 1 1 0 5 0 0) (lit "0.1") (lit "20")
             "20240101 00:05:00".

(** The third reading one microsecond later. *)
Definition ex_r3_late : reading :=
  mk_reading (mk_datetime 2024 1 1 0 5 0 1) (lit "0.1") (lit "20")
             "20240101 00:05:00.000001".

(** A reading whose value equals its limit. *)
Definition ex_r_equal : reading :=
  mk_reading (mk_datetime 2024 1 1 0 1 0 0) (lit "20") (lit "20.0")
             "20240101 00:01:00".

(** Two later readings, more than five minutes after the first. *)
Definition ex_r6 : reading :=
  mk_reading (mk_datetime 2024 1 1 0 6 0 0) (lit "7.5") (lit "20")
             "20240101 00:06:00.000".
Definition ex_r7 : reading :=
  mk_reading (mk_datetime 2024 1 1 0 7 0 0) (lit "7.5") (lit "20")
             "20240101 00:07:00.000".

(** Thermostat readings above the red high limit, and one at the limit. *)
Definition ex_t1 : reading :=
  mk_reading (mk_datetime 2024 1 1 0 0 0 0) (lit "101.5") (lit "101")
             "20240101 00:00:00.000".
Definition ex_t2 : reading :=
  mk_reading (mk_datetime 2024 1 1 0 1 0 0) (lit "102") (lit "101")
             "20240101 00:01:00.000".
Definition ex_t3 : reading :=
  mk_reading (mk_datetime 2024 1 1 0 2 0 0) (lit "150.25") (lit "101")
             "20240101 00:02:00.000".
Definition ex_t_equal : reading :=
  mk_reading (mk_datetime 2024 1 1 0 1 0 0) (lit "101.0") (lit "101")
             "20240101 00:01:00.000".

(** The monitor after the first two lines. *)
Definition ex_monitor2 : monitor :=
  mk_monitor {[ (7, "BATT") := [ex_r1; ex_r2] ]} [].

(** The record of the third line. *)
Definition ex_data3 : telemetry :=
  mk_telemetry "20240101 00:05:00" 7 (lit "101") (lit "98") (lit "25")
               (lit "20") (lit "0.1") "BATT".

(** The monitor after the readings at 00:00, 00:06 and 00:07, and the
    record of a fourth reading at 00:08. *)
Definition ex_monitor3 : monitor :=
  mk_monitor {[ (7, "BATT") := [ex_r1; ex_r6; ex_r7] ]} [].

Definition ex_data8 : telemetry :=
  mk_telemetry "20240101 00:08:00" 7 (lit "101") (lit "98") (lit "25")
               (lit "20") (lit "0.1") "BATT".

(** A record whose timestamp has the time of day only. *)
Definition ex_data_undated : telemetry :=
  mk_telemetry "00:05:00.000" 7 (lit "101") (lit "98") (lit "25")
               (lit "20") (lit "0.1") "BATT".

(** A record of a component that is neither thermostat nor battery. *)
Definition ex_data_gyro : telemetry :=
  mk_telemetry "20240101 00:05:00" 7 (lit "101") (lit "98") (lit "25")
               (lit "20") (lit "0.1") "GYRO".

(** A thermostat record. *)
Definition ex_data_tstat : telemetry :=
  mk_telemetry "20240101 00:05:00.25" 7 (lit "101") (lit "98") (lit "25")
               (lit "20") (lit "101.5") "TSTAT".

(** A record with a ninth field. *)
Definition ex_line_long : string :=
  "20240101 00:00:00.000|7|101|98|25|20|19.9|BATT|spare|more".

(** Records cut short after the satellite id and after the raw value. *)
Definition ex_line_short2 : string := "20240101 00:00:00.000|7".
Definition ex_line_short7 : string := "20240101 00:00:00.000|7|101|98|25|20|19.9".

(** A record whose red-low limit is not a number. *)
Definition ex_line_bad5 : string :=
  "20240101 00:00:00.000|7|101|98|25|low|19.9|BATT".

(** The battery scenario of the specification: the third reading 4 min 59 s
    after the first. *)
Definition ex_scenario_battery : list string :=
  [ "20240101 00:00:00.000|7|101|98|25|20|19.9|BATT" +:+ line_feed;
    "20240101 00:02:00.000|7|101|98|25|20|7.5|BATT" +:+ line_feed;
    line_feed;
    "20240101 00:04:59.000|7|101|98|25|20|0.1|BATT" +:+ line_feed ].

(** The same with the third reading 5 min and 1 ms after the first. *)
Definition ex_scenario_late : list string :=
  [ "20240101 00:00:00.000|7|101|98|25|20|19.9|BATT" +:+ line_feed;
    "20240101 00:02:00.000|7|101|98|25|20|7.5|BATT" +:+ line_feed;
    "20240101 00:05:00.001|7|101|98|25|20|0.1|BATT" +:+ line_feed ].

(** Five thermostat readings above the red-high limit within five minutes,
    arriving out of order. *)
Definition ex_scenario_thermostat : list string :=
  [ "20240101 00:01:00.000|3|101|98|25|20|101.5|TSTAT" +:+ line_feed;
    "20240101 00:00:30|3|101|98|25|20|102|TSTAT" +:+ line_feed;
    "20240101 00:02:00.000|3|101|98|25|20|101|TSTAT" +:+ line_feed;
    "20240101 00:03:00.000|3|101|98|25|20|103.25|TSTAT" +:+ line_feed;
    "20240101 00:03:30.000|3|101|98|25|20|104|TSTAT" +:+ line_feed;
    "20240101 00:04:00.000|3|101|98|25|20|105|TSTAT" +:+ line_feed ].

(** [get_alerts] after [process_file] on a fresh monitor. *)
Definition run (lines : list string) : py (list alert) :=
  m ← process_file int_decimal float_decimal init lines; get_alerts m.

(** ** Notions used to state the properties *)

(** The violating readings [check_violations] selects for a component
    code, with the severity label; [None] for a code it skips. *)
Definition violation_rule (comp : string) : option ((reading -> bool) * string) :=
  if String.eqb comp "TSTAT" then Some (exceeds_limit, "RED HIGH")
  else if String.eqb comp "BATT" then Some (below_limit, "RED LOW")
  else None.

(** Index [i] starts a qualifying cluster of [vs]: the readings at [i] and
    [i + 2] exist and pass the window test. *)
Definition qualifies (vs : list reading) (i : nat) : bool :=
  match vs !! i, vs !! (i + 2)%nat with
  | Some r1, Some r2 => within_window r1 r2
  | _, _ => false
  end.

(** The alert built from the first reading [r1] of a cluster. *)
Definition alert_for (satellite_id : Z) (sev comp : string) (r1 : reading) : alert :=
  mk_alert satellite_id sev comp (original_timestamp r1).

(** The history stored for [key], empty when the key is absent. *)
Definition history (m : monitor) (key : Z * string) : list reading :=
  default [] (readings m !! key).

(** The states a monitor goes through: the initial one and those
    [process_telemetry] returns. *)
Inductive reachable : monitor -> Prop :=
  | reachable_init : reachable init
  | reachable_step (m m' : monitor) (data : telemetry) :
      reachable m -> process_telemetry m data = inr m' -> reachable m'.

(** A point in time as microseconds since the start of day 0 of the
    proleptic Gregorian calendar. *)
Definition abs_microseconds (t : datetime) : Z :=
  (toordinal t * 86400 + (second t + minute t * 60 + hour t * 3600)) * 1000000
  + microsecond t.

(** [a <= b] as the sort sees it: not [b < a]. *)
Definition dt_le (a b : datetime) : Prop := dt_ltb b a = false.

(** What [get_alerts] writes for a datetime: the year as [%Y] gives it,
    the other fields with two digits, the milliseconds (the microseconds
    divided by 1000, rounded down) with three, and [Z]. *)
Definition rendered (t : datetime) : string :=
  strftime_Y (year t) +:+ "-" +:+ dec 2 (month t) +:+ "-" +:+ dec 2 (day t)
  +:+ "T" +:+ dec 2 (hour t) +:+ ":" +:+ dec 2 (minute t)
  +:+ ":" +:+ dec 2 (second t) +:+ "." +:+ dec 3 (microsecond t / 1000) +:+ "Z".

(** The rendering of the output contract: [YYYY-MM-DDTHH:MM:SS.mmm] and
    [Z], the milliseconds being the microseconds divided by 1000, rounded
    down. *)
Definition iso_millis (t : datetime) : string :=
  dec 4 (year t) +:+ "-" +:+ dec 2 (month t) +:+ "-" +:+ dec 2 (day t)
  +:+ "T" +:+ dec 2 (hour t) +:+ ":" +:+ dec 2 (minute t)
  +:+ ":" +:+ dec 2 (second t) +:+ "." +:+ dec 3 (microsecond t / 1000) +:+ "Z".

(** The state in which [process_telemetry] calls [check_violations]. *)
Definition appended (m : monitor) (data : telemetry) (ts : datetime) : monitor :=
  let key := (satelliteId data, component data) in
  mk_monitor (<[key := history m key ++ [reading_of data ts]]> (readings m)) (alerts m).

(** The readings are in ascending order of timestamp. *)
Definition ascending (l : list reading) : Prop :=
  StronglySorted (fun a b => dt_le (r_timestamp a) (r_timestamp b)) l.

(** ** Notions used to state the further properties *)

(** The reading at the first index of [indices] that starts a qualifying
    cluster of [vs]. *)
Definition first_cluster (vs : list reading) (indices : list nat) : option reading :=
  match List.find (qualifies vs) indices with
  | Some i => vs !! i
  | None => None
  end.

(** The alert the scan finds for the violating readings [vs], if any. *)
Definition cluster_alert (satellite_id : Z) (sev comp : string)
    (vs : list reading) : option alert :=
  if (3 <=? length vs)%nat
  then
    match first_cluster (sort_by_timestamp vs) (range (length vs - 2)) with
    | Some r1 => Some (alert_for satellite_id sev comp r1)
    | None => None
    end
  else None.

(** The alert a key's history calls for, if any. *)
Definition candidate (key : Z * string) (hist : list reading) : option alert :=
  match violation_rule key.2 with
  | Some (violates, sev) => cluster_alert key.1 sev key.2 (List.filter violates hist)
  | None => None
  end.

(** Offering a candidate to the alert list. *)
Definition offer (c : option alert) (als : list alert) : list alert :=
  match c with
  | Some a => add_alert a als
  | None => als
  end.

(** The key of a record. *)
Definition key_of (data : telemetry) : Z * string :=
  (satelliteId data, component data).

(** [sep.join(fields)] *)
Fixpoint join (sep : ascii) (fields : list string) : string :=
  match fields with
  | [] => EmptyString
  | [f] => f
  | f :: fs => f +:+ String sep (join sep fs)
  end.

(** The character [c] occurs in [s]. *)
Fixpoint occurs (c : ascii) (s : string) : bool :=
  match s with
  | EmptyString => false
  | String c' s' => Ascii.eqb c' c || occurs c s'
  end.

(** [s] consists of white space only. *)
Fixpoint all_space (s : string) : bool :=
  match s with
  | EmptyString => true
  | String c s' => PyStr.is_space c && all_space s'
  end.

(** A line that [process_file] does not skip. *)
Definition non_blank (line : string) : bool :=
  negb (PyStr.is_empty (PyStr.strip line)).

(** The timestamp text [YYYYMMDD HH:MM:SS] of a datetime. *)
Definition compact_whole (t : datetime) : string :=
  dec 4 (year t) +:+ dec 2 (month t) +:+ dec 2 (day t) +:+ " "
  +:+ dec 2 (hour t) +:+ ":" +:+ dec 2 (minute t) +:+ ":" +:+ dec 2 (second t).

(** The timestamp text [YYYYMMDD HH:MM:SS.ffffff] of a datetime. *)
Definition compact_fractional (t : datetime) : string :=
  compact_whole t +:+ "." +:+ dec 6 (microsecond t).

(** [m'] keeps everything [m] holds: every history and the alert list of
    [m] are initial segments of those of [m']. *)
Definition extends (m m' : monitor) : Prop :=
  (forall k, history m k `prefix_of` history m' k) /\
  alerts m `prefix_of` alerts m'.

(** The alert [a] is backed by the histories of [m]: three entries of the
    history of its key violate the rule of its component, are in
    ascending order of timestamp with the outer two passing the window
    test, and the first one gives the alert its timestamp text. *)
Definition justified (m : monitor) (a : alert) : Prop :=
  exists (violates : reading -> bool) (r1 r2 r3 : reading),
    violation_rule (a_component a) = Some (violates, severity a) /\
    [r1; r2; r3] ⊆+ history m (a_satelliteId a, a_component a) /\
    violates r1 = true /\ violates r2 = true /\ violates r3 = true /\
    a_timestamp a = original_timestamp r1 /\
    dt_le (r_timestamp r1) (r_timestamp r2) /\
    dt_le (r_timestamp r2) (r_timestamp r3) /\
    within_window r1 r3 = true.

(** A parser only consumes: a character that occurs in what it leaves
    occurs in what it was given. *)
Definition consuming {A : Type} (p : parser A) : Prop :=
  forall (c : ascii) (s s' : string) (a : A),
    (a, s') ∈ p s -> occurs c s' = true -> occurs c s = true.

(** * Properties *)

(** ** The exception monad *)

Lemma getitem_Some {A : Type} (l : list A) (i : nat) (x : A) :
  l !! i = Some x -> getitem l i = inr x.
Proof. unfold getitem. intros ->. reflexivity. Qed.

Lemma getitem_None {A : Type} (l : list A) (i : nat) :
  l !! i = None -> getitem l i = inl IndexError.
Proof. unfold getitem. intros ->. reflexivity. Qed.

Lemma py_bind_inr {A B : Type} (f : A -> py B) (a : A) :
  (inr a ≫= f) = f a.
Proof. reflexivity. Qed.

(** ** Comparison of floating-point values *)

Lemma SFcompare_Lt_Gt (x y : spec_float) :
  SFcompare x y = Some Lt <-> SFcompare y x = Some Gt.
Proof.
  destruct x as [sx|sx| |sx mx ex], y as [sy|sy| |sy my ey]; simpl;
    try (split; discriminate);
    try (destruct sx; split; (discriminate || reflexivity));
    try (destruct sy; split; (discriminate || reflexivity));
    try (destruct sx, sy; split; (discriminate || reflexivity)).
  change (Pos.compare_cont Eq mx my) with (mx ?= my)%positive.
  change (Pos.compare_cont Eq my mx) with (my ?= mx)%positive.
  rewrite (Z.compare_antisym ex ey), (Pos.compare_antisym mx my).
  destruct sx, sy; try (split; (discriminate || reflexivity));
    destruct (ex ?= ey); simpl; try (split; (discriminate || reflexivity));
    destruct (mx ?= my)%positive; simpl; split; (discriminate || reflexivity).
Qed.

(** ** Violation predicates *)

Lemma exceeds_limit_iff (r : reading) :
  exceeds_limit r = true <-> SFcompare (value r) (limit r) = Some Gt.
Proof.
  unfold exceeds_limit, SFltb. rewrite <- SFcompare_Lt_Gt.
  destruct (SFcompare (limit r) (value r)) as [[]|]; split; congruence.
Qed.

Lemma below_limit_iff (r : reading) :
  below_limit r = true <-> SFcompare (value r) (limit r) = Some Lt.
Proof.
  unfold below_limit, SFltb.
  destruct (SFcompare (value r) (limit r)) as [[]|]; split; congruence.
Qed.

Lemma filter_app_skip {A : Type} (f : A -> bool) (l1 l2 : list A) (x : A) :
  f x = false -> List.filter f (l1 ++ x :: l2) = List.filter f (l1 ++ l2).
Proof.
  intros Hx. rewrite !List.filter_app. simpl. rewrite Hx. reflexivity.
Qed.

Lemma check_violations_rule (m : monitor) (key : Z * string) :
  check_violations m key =
  let (rs, rd) := readings_get (readings m) key in
  match violation_rule key.2 with
  | Some (violates, sev) =>
      als ← check_triplets key.1 sev key.2 (List.filter violates rs) (alerts m);
      mret (mk_monitor rd als)
  | None => mret (mk_monitor rd (alerts m))
  end.
Proof.
  unfold check_violations, violation_rule.
  destruct (readings_get (readings m) key) as [rs rd].
  destruct (String.eqb key.2 "TSTAT"); [reflexivity|].
  destruct (String.eqb key.2 "BATT"); reflexivity.
Qed.

(** ** The clustering scan *)

Lemma scan_triplets_none sat sev comp vs indices als :
  Forall (fun i => (i + 2 < length vs)%nat) indices ->
  Forall (fun i => qualifies vs i = false) indices ->
  scan_triplets sat sev comp vs indices als = inr als.
Proof.
  induction indices as [|i rest IH]; intros Hr Hq; [reflexivity|].
  inversion Hr as [|? ? Hi Hr']; inversion Hq as [|? ? Hqi Hq']; subst.
  simpl. unfold qualifies in Hqi.
  destruct (lookup_lt_is_Some_2 vs i ltac:(lia)) as [r1 H1].
  destruct (lookup_lt_is_Some_2 vs (i + 2)%nat ltac:(lia)) as [r2 H2].
  rewrite H1, H2 in Hqi.
  rewrite (getitem_Some _ _ _ H1), (getitem_Some _ _ _ H2). simpl.
  rewrite Hqi. apply IH; assumption.
Qed.

Lemma scan_triplets_first sat sev comp vs pre i post r1 als :
  Forall (fun j => (j + 2 < length vs)%nat) pre ->
  Forall (fun j => qualifies vs j = false) pre ->
  vs !! i = Some r1 ->
  qualifies vs i = true ->
  scan_triplets sat sev comp vs (pre ++ i :: post) als
  = inr (add_alert (alert_for sat sev comp r1) als).
Proof.
  induction pre as [|j pre IH]; intros Hr Hq H1 Hqi.
  - simpl. unfold qualifies in Hqi. rewrite H1 in Hqi.
    destruct (vs !! (i + 2)%nat) as [r2|] eqn:H2; [|discriminate].
    rewrite (getitem_Some _ _ _ H1), (getitem_Some _ _ _ H2). simpl.
    rewrite Hqi. reflexivity.
  - inversion Hr as [|? ? Hj Hr']; inversion Hq as [|? ? Hqj Hq']; subst.
    simpl. unfold qualifies in Hqj.
    destruct (lookup_lt_is_Some_2 vs j ltac:(lia)) as [a Ha].
    destruct (lookup_lt_is_Some_2 vs (j + 2)%nat ltac:(lia)) as [b Hb].
    rewrite Ha, Hb in Hqj.
    rewrite (getitem_Some _ _ _ Ha), (getitem_Some _ _ _ Hb). simpl.
    rewrite Hqj. apply IH; assumption.
Qed.

(** Over in-range indices the loop never raises; it leaves the alerts as
    they are or offers one alert, built from a scanned reading. *)
Lemma scan_triplets_total sat sev comp vs indices als :
  Forall (fun i => (i + 2 < length vs)%nat) indices ->
  scan_triplets sat sev comp vs indices als = inr als \/
  exists r1, r1 ∈ vs /\
    scan_triplets sat sev comp vs indices als
    = inr (add_alert (alert_for sat sev comp r1) als).
Proof.
  induction indices as [|i rest IH]; intros Hr; [left; reflexivity|].
  inversion Hr as [|? ? Hi Hr']; subst. simpl.
  destruct (lookup_lt_is_Some_2 vs i ltac:(lia)) as [r1 H1].
  destruct (lookup_lt_is_Some_2 vs (i + 2)%nat ltac:(lia)) as [r2 H2].
  rewrite (getitem_Some _ _ _ H1), (getitem_Some _ _ _ H2). simpl.
  destruct (within_window r1 r2).
  - right. exists r1. split; [|reflexivity].
    apply list_elem_of_lookup. exists i. exact H1.
  - apply IH. assumption.
Qed.

Lemma range_in_bounds (n len : nat) :
  (n + 2 <= len)%nat -> Forall (fun i => (i + 2 < len)%nat) (range n).
Proof.
  intros H. apply Forall_forall. intros i Hi. unfold range in Hi.
  apply elem_of_seq in Hi. lia.
Qed.

(** ** The sort *)

Lemma insert_by_timestamp_perm (x : reading) (l : list reading) :
  Permutation (x :: l) (insert_by_timestamp x l).
Proof.
  induction l as [|y l IH]; simpl; [reflexivity|].
  destruct (dt_ltb (r_timestamp y) (r_timestamp x)); [|reflexivity].
  rewrite perm_swap. apply perm_skip. exact IH.
Qed.

Lemma sort_by_timestamp_perm (l : list reading) :
  Permutation l (sort_by_timestamp l).
Proof.
  induction l as [|x l IH]; simpl; [reflexivity|].
  rewrite <- insert_by_timestamp_perm. apply perm_skip. exact IH.
Qed.

Lemma sort_by_timestamp_length (l : list reading) :
  length (sort_by_timestamp l) = length l.
Proof. symmetry. apply Permutation_length, sort_by_timestamp_perm. Qed.

Lemma sort_by_timestamp_elem (l : list reading) (r : reading) :
  r ∈ sort_by_timestamp l <-> r ∈ l.
Proof. rewrite <- sort_by_timestamp_perm. reflexivity. Qed.

(** ** [check_violations] *)

Lemma check_triplets_total sat sev comp vs als :
  check_triplets sat sev comp vs als = inr als \/
  exists r1, r1 ∈ vs /\
    check_triplets sat sev comp vs als
    = inr (add_alert (alert_for sat sev comp r1) als).
Proof.
  unfold check_triplets.
  destruct (3 <=? length vs)%nat eqn:Hlen; [|left; reflexivity].
  apply Nat.leb_le in Hlen.
  destruct (scan_triplets_total sat sev comp (sort_by_timestamp vs)
              (range (length (sort_by_timestamp vs) - 2)) als) as [H|(r1 & Hin & H)].
  - apply range_in_bounds. rewrite sort_by_timestamp_length. lia.
  - left. exact H.
  - right. exists r1. split; [|exact H].
    apply sort_by_timestamp_elem. exact Hin.
Qed.

Lemma readings_get_present (rd : gmap (Z * string) (list reading)) key l :
  rd !! key = Some l -> readings_get rd key = (l, rd).
Proof. unfold readings_get. intros ->. reflexivity. Qed.

(** [check_violations] never raises and never changes the histories of a
    monitor that has the key; it leaves the alerts as they are or offers
    one alert for the key, built from a violating reading of its history. *)
Lemma check_violations_total (m : monitor) (key : Z * string) (l : list reading) :
  readings m !! key = Some l ->
  check_violations m key = inr m \/
  exists violates sev r1,
    violation_rule key.2 = Some (violates, sev) /\
    r1 ∈ l /\ violates r1 = true /\
    check_violations m key
    = inr (mk_monitor (readings m)
             (add_alert (alert_for key.1 sev key.2 r1) (alerts m))).
Proof.
  intros Hl. rewrite check_violations_rule.
  rewrite (readings_get_present _ _ _ Hl).
  destruct (violation_rule key.2) as [[violates sev]|]; [|left; destruct m; reflexivity].
  destruct (check_triplets_total key.1 sev key.2 (List.filter violates l) (alerts m))
    as [H|(r1 & Hin & H)]; rewrite H; simpl.
  - left. destruct m; reflexivity.
  - right. exists violates, sev, r1. split; [reflexivity|].
    apply list_elem_of_In, List.filter_In in Hin. destruct Hin as [Hin Hv].
    split; [apply list_elem_of_In; exact Hin|]. split; [exact Hv|reflexivity].
Qed.

Lemma process_telemetry_appended (m : monitor) (data : telemetry) (ts : datetime) :
  parse_timestamp (timestamp data) = inr ts ->
  process_telemetry m data
  = check_violations (appended m data ts) (satelliteId data, component data).
Proof.
  intros Hts. unfold process_telemetry, appended. rewrite Hts. simpl.
  unfold readings_get, history.
  destruct (readings m !! (satelliteId data, component data)) eqn:E; simpl.
  - reflexivity.
  - rewrite insert_insert_eq. reflexivity.
Qed.

Lemma process_telemetry_raises (m : monitor) (data : telemetry) (e : exn) :
  parse_timestamp (timestamp data) = inl e -> process_telemetry m data = inl e.
Proof. intros Hts. unfold process_telemetry. rewrite Hts. reflexivity. Qed.

Lemma appended_lookup (m : monitor) (data : telemetry) (ts : datetime) :
  readings (appended m data ts) !! (satelliteId data, component data)
  = Some (history m (satelliteId data, component data) ++ [reading_of data ts]).
Proof. unfold appended. simpl. apply lookup_insert_eq. Qed.

(** What one call of [process_telemetry] does on a record whose timestamp
    parses: the reading is appended to the history of its key and at most
    one alert, for that key, is offered to the alert list. *)
Lemma process_telemetry_result (m : monitor) (data : telemetry) (ts : datetime) :
  parse_timestamp (timestamp data) = inr ts ->
  let key := (satelliteId data, component data) in
  exists als',
    process_telemetry m data = inr (mk_monitor (readings (appended m data ts)) als') /\
    (als' = alerts m \/
     exists violates sev r1,
       violation_rule (component data) = Some (violates, sev) /\
       r1 ∈ history m key ++ [reading_of data ts] /\ violates r1 = true /\
       als' = add_alert (alert_for (satelliteId data) sev (component data) r1) (alerts m)).
Proof.
  intros Hts key. rewrite (process_telemetry_appended _ _ _ Hts).
  destruct (check_violations_total _ _ _ (appended_lookup m data ts))
    as [H|(violates & sev & r1 & Hrule & Hin & Hv & H)]; rewrite H.
  - exists (alerts m). split; [reflexivity|left; reflexivity].
  - eexists. split; [reflexivity|]. right. exists violates, sev, r1. auto.
Qed.

Lemma history_appended (m : monitor) (data : telemetry) (ts : datetime) als :
  let key := (satelliteId data, component data) in
  history (mk_monitor (readings (appended m data ts)) als) key
  = history m key ++ [reading_of data ts].
Proof.
  intros key. unfold history at 1. simpl. rewrite lookup_insert_eq. reflexivity.
Qed.

Lemma history_appended_ne (m : monitor) (data : telemetry) (ts : datetime) als k :
  k <> (satelliteId data, component data) ->
  history (mk_monitor (readings (appended m data ts)) als) k = history m k.
Proof.
  intros Hne. unfold history. simpl. rewrite lookup_insert_ne; [reflexivity|congruence].
Qed.

(** C7: for every record whose timestamp parses, [process_telemetry]
    returns, and the reading it has appended to the history of the record's
    key carries the record's value, its timestamp text, and as limit the
    red-high limit when the component code is [TSTAT] and the red-low limit
    for every other code. *)
Theorem C7_limit_selection (m : monitor) (data : telemetry) (ts : datetime) :
  parse_timestamp (timestamp data) = inr ts ->
  exists m' r,
    process_telemetry m data = inr m' /\
    history m' (satelliteId data, component data)
    = history m (satelliteId data, component data) ++ [r] /\
    value r = raw_value data /\
    original_timestamp r = timestamp data /\
    r_timestamp r = ts /\
    (component data = "TSTAT" -> limit r = red_high_limit data) /\
    (component data <> "TSTAT" -> limit r = red_low_limit data).
Proof.
  intros Hts.
  destruct (process_telemetry_result m data ts Hts) as (als' & Hrun & _).
  eexists. exists (reading_of data ts). split; [exact Hrun|].
  split; [apply history_appended|].
  unfold reading_of. simpl. repeat split.
  - intros ->. reflexivity.
  - intros Hne. apply String.eqb_neq in Hne. rewrite Hne. reflexivity.
Qed.

(** ** Unknown component codes *)

Lemma violation_rule_alert_component comp violates sev :
  violation_rule comp = Some (violates, sev) ->
  (comp = "TSTAT" /\ sev = "RED HIGH") \/ (comp = "BATT" /\ sev = "RED LOW").
Proof.
  unfold violation_rule.
  destruct (String.eqb_spec comp "TSTAT") as [->|_].
  - intros [= <- <-]. left. auto.
  - destruct (String.eqb_spec comp "BATT") as [->|_]; [|discriminate].
    intros [= <- <-]. right. auto.
Qed.

Lemma violation_rule_unknown comp :
  comp <> "TSTAT" -> comp <> "BATT" -> violation_rule comp = None.
Proof.
  intros H1 H2. unfold violation_rule.
  apply String.eqb_neq in H1, H2. rewrite H1, H2. reflexivity.
Qed.

Lemma elem_of_add_alert (a b : alert) (als : list alert) :
  b ∈ add_alert a als <-> b ∈ als \/ b = a.
Proof.
  unfold add_alert. destruct (decide (a ∈ als)) as [Hin|Hnin].
  - split; [auto|]. intros [H| ->]; assumption.
  - rewrite elem_of_app, list_elem_of_singleton. reflexivity.
Qed.

Lemma reachable_alert_components (m : monitor) :
  reachable m ->
  forall a, a ∈ alerts m -> a_component a = "TSTAT" \/ a_component a = "BATT".
Proof.
  induction 1 as [|m m' data Hm IH Hstep]; intros a Ha.
  - simpl in Ha. apply elem_of_nil in Ha. contradiction.
  - destruct (parse_timestamp (timestamp data)) as [e|ts] eqn:Hts.
    { rewrite (process_telemetry_raises _ _ _ Hts) in Hstep. discriminate. }
    destruct (process_telemetry_result m data ts Hts) as (als' & Hrun & Hals).
    rewrite Hrun in Hstep. injection Hstep as <-. simpl in Ha.
    destruct Hals as [->|(violates & sev & r1 & Hrule & _ & _ & ->)]; [auto|].
    apply elem_of_add_alert in Ha. destruct Ha as [Ha| ->]; [auto|].
    simpl. destruct (violation_rule_alert_component _ _ _ Hrule) as [[-> _]|[-> _]]; auto.
Qed.


(** ** No duplicate alerts *)

Lemma add_alert_present (a : alert) (als : list alert) :
  a ∈ als -> add_alert a als = als.
Proof. intros Hin. unfold add_alert. rewrite decide_True; auto. Qed.

Lemma add_alert_new (a : alert) (als : list alert) :
  a ∉ als -> add_alert a als = als ++ [a].
Proof. intros Hin. unfold add_alert. rewrite decide_False; auto. Qed.

Lemma add_alert_NoDup (a : alert) (als : list alert) :
  NoDup als -> NoDup (add_alert a als).
Proof.
  intros Hnd. unfold add_alert. destruct (decide (a ∈ als)) as [Hin|Hnin]; [exact Hnd|].
  apply NoDup_app. split; [exact Hnd|]. split.
  - intros x Hx Hx'. apply list_elem_of_singleton in Hx'. subst. contradiction.
  - apply NoDup_singleton.
Qed.

Lemma process_telemetry_NoDup (m m' : monitor) (data : telemetry) :
  NoDup (alerts m) -> process_telemetry m data = inr m' -> NoDup (alerts m').
Proof.
  intros Hnd Hstep.
  destruct (parse_timestamp (timestamp data)) as [e|ts] eqn:Hts.
  { rewrite (process_telemetry_raises _ _ _ Hts) in Hstep. discriminate. }
  destruct (process_telemetry_result m data ts Hts) as (als' & Hrun & Hals).
  rewrite Hrun in Hstep. injection Hstep as <-. simpl.
  destruct Hals as [->|(violates & sev & r1 & _ & _ & _ & ->)]; [exact Hnd|].
  apply add_alert_NoDup. exact Hnd.
Qed.

Lemma reachable_NoDup (m : monitor) : reachable m -> NoDup (alerts m).
Proof.
  induction 1 as [|m m' data Hm IH Hstep].
  - apply NoDup_nil_2.
  - eapply process_telemetry_NoDup; eassumption.
Qed.

Lemma alert_fields_eq (a b : alert) :
  a_satelliteId a = a_satelliteId b -> severity a = severity b ->
  a_component a = a_component b -> a_timestamp a = a_timestamp b -> a = b.
Proof. destruct a, b. simpl. intros -> -> -> ->. reflexivity. Qed.

(** C2: a candidate alert equal to an alert already in the list leaves the
    list unchanged; the absence of duplicates is preserved by every
    [process_telemetry]; hence in every state the monitor reaches, alerts
    at two different positions of the alert list differ in at least one of
    their four fields. *)
Theorem C2_no_duplicate_alerts :
  (forall (a : alert) (als : list alert), a ∈ als -> add_alert a als = als) /\
  (forall (m m' : monitor) (data : telemetry),
     NoDup (alerts m) -> process_telemetry m data = inr m' -> NoDup (alerts m')) /\
  (forall m : monitor, reachable m ->
     NoDup (alerts m) /\
     forall (i j : nat) (a b : alert),
       alerts m !! i = Some a -> alerts m !! j = Some b -> i <> j ->
       ~ (a_satelliteId a = a_satelliteId b /\ severity a = severity b /\
          a_component a = a_component b /\ a_timestamp a = a_timestamp b)).
Proof.
  split; [exact add_alert_present|]. split; [exact process_telemetry_NoDup|].
  intros m Hm. pose proof (reachable_NoDup m Hm) as Hnd. split; [exact Hnd|].
  intros i j a b Ha Hb Hij (H1 & H2 & H3 & H4).
  assert (a = b) by (apply alert_fields_eq; assumption). subst b.
  apply Hij. eapply NoDup_lookup; eassumption.
Qed.

(** ** Runs of [process_file] *)

Section Runs.

Variable builtin_int : string -> option Z.
Variable builtin_float : string -> option spec_float.

Lemma process_file_reachable (m m' : monitor) (lines : list string) :
  reachable m ->
  process_file builtin_int builtin_float m lines = inr m' ->
  reachable m'.
Proof.
  revert m. induction lines as [|line rest IH]; intros m Hm Hrun.
  - simpl in Hrun. injection Hrun as <-. exact Hm.
  - simpl in Hrun.
    destruct (PyStr.is_empty (PyStr.strip line)); [eapply IH; eassumption|].
    destruct (parse_line builtin_int builtin_float line) as [e|data]; [discriminate|].
    simpl in Hrun.
    destruct (process_telemetry m data) as [e|m1] eqn:Hstep; [discriminate|].
    simpl in Hrun. eapply IH; [|exact Hrun].
    eapply reachable_step; eassumption.
Qed.

End Runs.

(** ** The order of the sort *)

Lemma tuple_cmp_antisym (a b : list Z) :
  tuple_cmp b a = CompOpp (tuple_cmp a b).
Proof.
  revert b. induction a as [|x a IH]; intros [|y b]; simpl; try reflexivity.
  rewrite (Z.compare_antisym x y). destruct (x ?= y); simpl; auto.
Qed.

Lemma tuple_cmp_le_trans (a b c : list Z) :
  tuple_cmp a b <> Gt -> tuple_cmp b c <> Gt -> tuple_cmp a c <> Gt.
Proof.
  revert b c. induction a as [|x a IH]; intros [|y b] [|z c]; simpl;
    try congruence.
  destruct (Z.compare_spec x y) as [->|Hxy|Hxy]; try congruence.
  - destruct (Z.compare_spec y z) as [->|Hyz|Hyz]; try congruence.
    apply IH.
  - destruct (Z.compare_spec y z) as [->|Hyz|Hyz]; try congruence.
    + intros _ _. destruct (Z.compare_spec x z); try congruence; lia.
    + intros _ _. destruct (Z.compare_spec x z); try congruence; lia.
Qed.

Lemma dt_le_alt (a b : datetime) :
  dt_le a b <-> tuple_cmp (dt_tuple a) (dt_tuple b) <> Gt.
Proof.
  unfold dt_le, dt_ltb. rewrite (tuple_cmp_antisym (dt_tuple a) (dt_tuple b)).
  destruct (tuple_cmp (dt_tuple a) (dt_tuple b)); simpl; split; congruence.
Qed.

Lemma dt_le_trans (a b c : datetime) : dt_le a b -> dt_le b c -> dt_le a c.
Proof. rewrite !dt_le_alt. apply tuple_cmp_le_trans. Qed.

Lemma dt_ltb_le (a b : datetime) : dt_ltb a b = true -> dt_le a b.
Proof.
  unfold dt_le, dt_ltb. rewrite (tuple_cmp_antisym (dt_tuple a) (dt_tuple b)).
  destruct (tuple_cmp (dt_tuple a) (dt_tuple b)); simpl; congruence.
Qed.

Lemma insert_by_timestamp_ascending (x : reading) (l : list reading) :
  ascending l -> ascending (insert_by_timestamp x l).
Proof.
  unfold ascending. induction l as [|y l IH]; intros Hs; simpl.
  - constructor; [constructor|constructor].
  - inversion Hs as [|? ? Hl Hy]; subst.
    destruct (dt_ltb (r_timestamp y) (r_timestamp x)) eqn:E.
    + constructor; [apply IH; exact Hl|].
      rewrite <- (insert_by_timestamp_perm x l).
      constructor; [apply dt_ltb_le; exact E|exact Hy].
    + constructor; [exact Hs|].
      constructor; [exact E|].
      eapply Forall_impl; [exact Hy|].
      intros z Hz. simpl in Hz. eapply dt_le_trans; [exact E|exact Hz].
Qed.

Lemma sort_by_timestamp_ascending (l : list reading) :
  ascending (sort_by_timestamp l).
Proof.
  induction l as [|x l IH]; simpl.
  - constructor.
  - apply insert_by_timestamp_ascending. exact IH.
Qed.

(** ** The order of the sort is the chronological order *)

Lemma days_before_year_succ (y : Z) :
  _days_before_year (y + 1)
  = _days_before_year y + 365 + (if _is_leap y then 1 else 0).
Proof.
  unfold _days_before_year, _is_leap.
  replace (y + 1 - 1) with y by lia.
  destruct (Z.eqb_spec (y mod 4) 0), (Z.eqb_spec (y mod 100) 0),
    (Z.eqb_spec (y mod 400) 0); simpl; Z.div_mod_to_equations; lia.
Qed.

Lemma days_before_year_mono (y1 y2 : Z) :
  y1 <= y2 -> _days_before_year y1 <= _days_before_year y2.
Proof. unfold _days_before_year. intros H. Z.div_mod_to_equations. lia. Qed.

Ltac each_month m :=
  let H := fresh in
  assert (H : m = 1 \/ m = 2 \/ m = 3 \/ m = 4 \/ m = 5 \/ m = 6 \/ m = 7 \/
              m = 8 \/ m = 9 \/ m = 10 \/ m = 11 \/ m = 12) by lia;
  repeat destruct H as [H|H]; subst m.

Lemma day_of_year_bounds (y m d : Z) :
  1 <= m <= 12 -> 1 <= d <= _days_in_month y m ->
  1 <= _days_before_month y m + d <= 365 + (if _is_leap y then 1 else 0).
Proof.
  intros Hm. unfold _days_in_month, _days_before_month.
  each_month m; destruct (_is_leap y); simpl; lia.
Qed.

Lemma day_of_year_month_lt (y m1 d1 m2 d2 : Z) :
  1 <= m1 -> m1 < m2 -> m2 <= 12 ->
  d1 <= _days_in_month y m1 -> 1 <= d2 ->
  _days_before_month y m1 + d1 < _days_before_month y m2 + d2.
Proof.
  intros H1 H12 H2. unfold _days_in_month, _days_before_month.
  each_month m1; each_month m2; try lia; destruct (_is_leap y); simpl; lia.
Qed.

Lemma ymd2ord_year_lt (y1 m1 d1 y2 m2 d2 : Z) :
  y1 < y2 ->
  1 <= m1 <= 12 -> 1 <= d1 <= _days_in_month y1 m1 ->
  1 <= m2 <= 12 -> 1 <= d2 <= _days_in_month y2 m2 ->
  _ymd2ord y1 m1 d1 < _ymd2ord y2 m2 d2.
Proof.
  intros Hy Hm1 Hd1 Hm2 Hd2. unfold _ymd2ord.
  pose proof (day_of_year_bounds y1 m1 d1 Hm1 Hd1).
  pose proof (day_of_year_bounds y2 m2 d2 Hm2 Hd2).
  pose proof (days_before_year_succ y1).
  pose proof (days_before_year_mono (y1 + 1) y2 ltac:(lia)).
  lia.
Qed.

Lemma valid_bounds (t : datetime) :
  valid t = true ->
  1 <= year t <= 9999 /\ 1 <= month t <= 12 /\
  1 <= day t <= _days_in_month (year t) (month t) /\
  0 <= hour t <= 23 /\ 0 <= minute t <= 59 /\ 0 <= second t <= 59 /\
  0 <= microsecond t <= 999999.
Proof.
  unfold valid, check_fields. rewrite !andb_true_iff, !Z.leb_le. tauto.
Qed.

(** On the datetimes the constructor accepts, comparing the field tuples
    is comparing the points in time. *)
Lemma tuple_cmp_chronological (a b : datetime) :
  valid a = true -> valid b = true ->
  tuple_cmp (dt_tuple a) (dt_tuple b)
  = (abs_microseconds a ?= abs_microseconds b).
Proof.
  intros Ha Hb. apply valid_bounds in Ha, Hb.
  destruct a as [y1 m1 d1 H1 M1 S1 f1], b as [y2 m2 d2 H2 M2 S2 f2].
  unfold abs_microseconds, toordinal, dt_tuple. simpl in *.
  destruct Ha as (Hy1 & Hm1 & Hd1 & HH1 & HM1 & HS1 & Hf1).
  destruct Hb as (Hy2 & Hm2 & Hd2 & HH2 & HM2 & HS2 & Hf2).
  symmetry.
  destruct (Z.compare_spec y1 y2) as [->|Hy|Hy].
  2:{ apply Z.compare_lt_iff.
      pose proof (ymd2ord_year_lt y1 m1 d1 y2 m2 d2 Hy Hm1 Hd1 Hm2 Hd2). lia. }
  2:{ apply Z.compare_gt_iff.
      pose proof (ymd2ord_year_lt y2 m2 d2 y1 m1 d1 Hy Hm2 Hd2 Hm1 Hd1). lia. }
  destruct (Z.compare_spec m1 m2) as [->|Hm|Hm].
  2:{ apply Z.compare_lt_iff. unfold _ymd2ord.
      pose proof (day_of_year_month_lt y2 m1 d1 m2 d2). lia. }
  2:{ apply Z.compare_gt_iff. unfold _ymd2ord.
      pose proof (day_of_year_month_lt y2 m2 d2 m1 d1). lia. }
  unfold _ymd2ord.
  destruct (Z.compare_spec d1 d2) as [->|Hd|Hd];
    [|apply Z.compare_lt_iff; lia|apply Z.compare_gt_iff; lia].
  destruct (Z.compare_spec H1 H2) as [->|Hh|Hh];
    [|apply Z.compare_lt_iff; lia|apply Z.compare_gt_iff; lia].
  destruct (Z.compare_spec M1 M2) as [->|HM|HM];
    [|apply Z.compare_lt_iff; lia|apply Z.compare_gt_iff; lia].
  destruct (Z.compare_spec S1 S2) as [->|HS|HS];
    [|apply Z.compare_lt_iff; lia|apply Z.compare_gt_iff; lia].
  destruct (Z.compare_spec f1 f2) as [->|Hf|Hf];
    [|apply Z.compare_lt_iff; lia|apply Z.compare_gt_iff; lia].
  apply Z.compare_refl.
Qed.

Lemma dt_ltb_chronological (a b : datetime) :
  valid a = true -> valid b = true ->
  dt_ltb a b = true <-> abs_microseconds a < abs_microseconds b.
Proof.
  intros Ha Hb. unfold dt_ltb. rewrite (tuple_cmp_chronological a b Ha Hb).
  destruct (Z.compare_spec (abs_microseconds a) (abs_microseconds b));
    split; (congruence || lia).
Qed.

Lemma dt_le_chronological (a b : datetime) :
  valid a = true -> valid b = true ->
  dt_le a b <-> abs_microseconds a <= abs_microseconds b.
Proof.
  intros Ha Hb. unfold dt_le.
  pose proof (dt_ltb_chronological b a Hb Ha) as H.
  destruct (dt_ltb b a); split; intros; try congruence; try lia.
Qed.

Lemma ascending_lookup (l : list reading) (i j : nat) (a b : reading) :
  ascending l -> (i < j)%nat -> l !! i = Some a -> l !! j = Some b ->
  dt_le (r_timestamp a) (r_timestamp b).
Proof.
  unfold ascending. intros Hs. revert i j.
  induction Hs as [|x l Hs IH Hx]; intros i j Hij Ha Hb.
  - rewrite lookup_nil in Ha. discriminate.
  - destruct j as [|j]; [lia|]. simpl in Hb. destruct i as [|i]; simpl in Ha.
    + injection Ha as <-. rewrite Forall_forall in Hx. apply Hx.
      apply list_elem_of_lookup. exists j. exact Hb.
    + apply (IH i j); [lia|exact Ha|exact Hb].
Qed.

(** C9: when [check_triplets] scans (three violating readings or more),
    the list handed to the scan is the sorted one, whatever the order of
    the violating readings in the history: it is a rearrangement of the
    violating readings in which every reading is followed only by
    readings whose timestamp is not smaller; on timestamps the [datetime]
    constructor accepts, positions in that list increase with the point in
    time. *)
Theorem C9_scan_sorted (sat : Z) (sev comp : string)
    (vs : list reading) (als : list alert) :
  (3 <= length vs)%nat ->
  check_triplets sat sev comp vs als
  = scan_triplets sat sev comp (sort_by_timestamp vs)
      (range (length vs - 2)) als /\
  Permutation vs (sort_by_timestamp vs) /\
  ascending (sort_by_timestamp vs) /\
  ((forall r, r ∈ vs -> valid (r_timestamp r) = true) ->
   forall (i j : nat) (a b : reading),
     (i < j)%nat ->
     sort_by_timestamp vs !! i = Some a -> sort_by_timestamp vs !! j = Some b ->
     abs_microseconds (r_timestamp a) <= abs_microseconds (r_timestamp b)).
Proof.
  intros Hlen. split; [|split; [|split]].
  - unfold check_triplets. apply Nat.leb_le in Hlen. rewrite Hlen.
    rewrite sort_by_timestamp_length. reflexivity.
  - apply sort_by_timestamp_perm.
  - apply sort_by_timestamp_ascending.
  - intros Hvalid i j a b Hij Ha Hb.
    apply dt_le_chronological.
    + apply Hvalid, sort_by_timestamp_elem, list_elem_of_lookup. eauto.
    + apply Hvalid, sort_by_timestamp_elem, list_elem_of_lookup. eauto.
    + eapply ascending_lookup; [apply sort_by_timestamp_ascending|exact Hij|exact Ha|exact Hb].
Qed.

(** ** The window test *)

Lemma total_microseconds_new (d s us : Z) :
  total_microseconds (timedelta_new d s us) = (d * 86400 + s) * 1000000 + us.
Proof.
  unfold total_microseconds, timedelta_new. simpl.
  Z.div_mod_to_equations. lia.
Qed.

Lemma total_microseconds_sub (a b : datetime) :
  total_microseconds (dt_sub a b) = abs_microseconds a - abs_microseconds b.
Proof.
  unfold dt_sub. rewrite total_microseconds_new. unfold abs_microseconds. lia.
Qed.

Lemma timedelta_new_normal (d s us : Z) :
  0 <= seconds (timedelta_new d s us) < 86400 /\
  0 <= microseconds (timedelta_new d s us) < 1000000.
Proof. unfold timedelta_new. simpl. Z.div_mod_to_equations. lia. Qed.

(** On normalised timedeltas the comparison of the state tuples is the
    comparison of the durations. *)
Lemma td_leb_total (a b : timedelta) :
  0 <= seconds a < 86400 -> 0 <= microseconds a < 1000000 ->
  0 <= seconds b < 86400 -> 0 <= microseconds b < 1000000 ->
  td_leb a b = true <-> total_microseconds a <= total_microseconds b.
Proof.
  destruct a as [d1 s1 u1], b as [d2 s2 u2].
  unfold td_leb, td_tuple, total_microseconds. simpl. intros.
  destruct (Z.compare_spec d1 d2); [|split; intros; (congruence || lia)..].
  destruct (Z.compare_spec s1 s2); [|split; intros; (congruence || lia)..].
  destruct (Z.compare_spec u1 u2); split; intros; (congruence || lia).
Qed.

Lemma time_window_value : time_window = mk_timedelta 0 300 0.
Proof. reflexivity. Qed.

Lemma within_window_iff (r1 r2 : reading) :
  within_window r1 r2 = true <->
  abs_microseconds (r_timestamp r2) - abs_microseconds (r_timestamp r1) <= 300000000.
Proof.
  unfold within_window. rewrite <- total_microseconds_sub.
  unfold dt_sub.
  match goal with |- context [timedelta_new ?d ?s ?u] =>
    pose proof (timedelta_new_normal d s u) as [Hs Hu] end.
  rewrite time_window_value.
  rewrite td_leb_total; [|assumption|assumption|simpl; lia|simpl; lia].
  unfold total_microseconds at 2. simpl. reflexivity.
Qed.

(** ** The first qualifying cluster *)

Lemma range_split (n i : nat) :
  (i < n)%nat -> range n = range i ++ i :: seq (S i) (n - S i).
Proof.
  intros Hi. unfold range.
  replace n with (i + S (n - S i))%nat at 1 by lia.
  rewrite seq_app. reflexivity.
Qed.

Lemma check_triplets_first sat sev comp vs als i r1 :
  (i + 2 < length (sort_by_timestamp vs))%nat ->
  sort_by_timestamp vs !! i = Some r1 ->
  qualifies (sort_by_timestamp vs) i = true ->
  (forall j, (j < i)%nat -> qualifies (sort_by_timestamp vs) j = false) ->
  check_triplets sat sev comp vs als
  = inr (add_alert (alert_for sat sev comp r1) als).
Proof.
  intros Hi H1 Hq Hfirst. unfold check_triplets.
  pose proof (sort_by_timestamp_length vs) as Hlen.
  destruct (Nat.leb_spec 3 (length vs)); [|lia].
  rewrite (range_split (length (sort_by_timestamp vs) - 2) i) by lia.
  apply scan_triplets_first; [| |exact H1|exact Hq].
  - apply Forall_forall. intros j Hj. apply elem_of_seq in Hj. lia.
  - apply Forall_forall. intros j Hj. apply elem_of_seq in Hj. apply Hfirst. lia.
Qed.

Lemma check_triplets_none sat sev comp vs als :
  (length (sort_by_timestamp vs) < 3)%nat \/
  (forall i, (i + 2 < length (sort_by_timestamp vs))%nat ->
     qualifies (sort_by_timestamp vs) i = false) ->
  check_triplets sat sev comp vs als = inr als.
Proof.
  intros H. unfold check_triplets.
  pose proof (sort_by_timestamp_length vs) as Hlen.
  destruct (Nat.leb_spec 3 (length vs)) as [H3|H3]; [|reflexivity].
  destruct H as [H|H]; [lia|].
  apply scan_triplets_none.
  - apply range_in_bounds. lia.
  - apply Forall_forall. intros j Hj. apply elem_of_seq in Hj. apply H. lia.
Qed.

Lemma process_telemetry_rule (m : monitor) (data : telemetry) (ts : datetime)
    violates sev :
  parse_timestamp (timestamp data) = inr ts ->
  violation_rule (component data) = Some (violates, sev) ->
  process_telemetry m data
  = (als ← check_triplets (satelliteId data) sev (component data)
             (List.filter violates
                (history m (satelliteId data, component data) ++ [reading_of data ts]))
             (alerts m);
     mret (mk_monitor (readings (appended m data ts)) als)).
Proof.
  intros Hts Hrule. rewrite (process_telemetry_appended _ _ _ Hts).
  rewrite check_violations_rule.
  rewrite (readings_get_present _ _ _ (appended_lookup m data ts)).
  simpl. rewrite Hrule. reflexivity.
Qed.

Lemma add_alert_cases (a : alert) (als : list alert) :
  add_alert a als = als \/ add_alert a als = als ++ [a].
Proof. unfold add_alert. destruct (decide (a ∈ als)); auto. Qed.


(** C4: the window test is inclusive.  When the sorted violating readings
    are three readings [a], [b], [c], a difference [c - a] of exactly
    [timedelta(minutes=5)] ends the scan with the alert for [a], which is
    appended to the alert list unless the list holds it already, and a
    difference of five minutes and one microsecond leaves the alert list
    unchanged; in general the alert is produced when the points in time of
    [a] and [c] are at most 300000000 microseconds apart and not produced
    when they are further apart, two readings passing the test iff they
    are at most that far apart. *)
Theorem C4_window_inclusive (sat : Z) (sev comp : string)
    (vs : list reading) (a b c : reading) (als : list alert) :
  sort_by_timestamp vs = [a; b; c] ->
  let al := mk_alert sat sev comp (original_timestamp a) in
  (dt_sub (r_timestamp c) (r_timestamp a) = timedelta_minutes 5 ->
   (al ∉ als -> check_triplets sat sev comp vs als = inr (als ++ [al])) /\
   (al ∈ als -> check_triplets sat sev comp vs als = inr als)) /\
  (dt_sub (r_timestamp c) (r_timestamp a) = timedelta_new 0 300 1 ->
   check_triplets sat sev comp vs als = inr als) /\
  (abs_microseconds (r_timestamp c) - abs_microseconds (r_timestamp a) <= 300000000 ->
   (al ∉ als -> check_triplets sat sev comp vs als = inr (als ++ [al])) /\
   (al ∈ als -> check_triplets sat sev comp vs als = inr als)) /\
  (300000000 < abs_microseconds (r_timestamp c) - abs_microseconds (r_timestamp a) ->
   check_triplets sat sev comp vs als = inr als) /\
  (within_window a c = true <->
   abs_microseconds (r_timestamp c) - abs_microseconds (r_timestamp a) <= 300000000).
Proof.
  intros Hsort al.
  assert (Hyes : within_window a c = true ->
            check_triplets sat sev comp vs als = inr (add_alert al als)).
  { intros Hw. apply (check_triplets_first sat sev comp vs als 0 a); rewrite Hsort.
    - simpl. lia.
    - reflexivity.
    - unfold qualifies. simpl. exact Hw.
    - intros j Hj. lia. }
  assert (Hno : within_window a c = false ->
            check_triplets sat sev comp vs als = inr als).
  { intros Hw. apply check_triplets_none. right. rewrite Hsort.
    intros i Hi. simpl in Hi. assert (i = 0%nat) as -> by lia.
    unfold qualifies. simpl. exact Hw. }
  split; [|split; [|split; [|split]]].
  - intros Hspan.
    assert (Hw : within_window a c = true).
    { unfold within_window. rewrite Hspan. reflexivity. }
    split; intros Hin; rewrite (Hyes Hw); f_equal;
      [apply add_alert_new|apply add_alert_present]; exact Hin.
  - intros Hspan. apply Hno. unfold within_window. rewrite Hspan. reflexivity.
  - intros Hspan. apply within_window_iff in Hspan.
    split; intros Hin; rewrite (Hyes Hspan); f_equal;
      [apply add_alert_new|apply add_alert_present]; exact Hin.
  - intros Hspan. apply Hno.
    destruct (within_window a c) eqn:Hw; [|reflexivity].
    apply within_window_iff in Hw. lia.
  - apply within_window_iff.
Qed.

(** ** The violation predicates *)

Lemma filter_Forall_id {A : Type} (f : A -> bool) (l : list A) :
  Forall (fun x => f x = true) l -> List.filter f l = l.
Proof.
  induction 1 as [|x l Hx _ IH]; [reflexivity|].
  simpl. rewrite Hx, IH. reflexivity.
Qed.

Lemma filter_length_lt {A : Type} (f : A -> bool) (l : list A) :
  Exists (fun x => f x = false) l -> (length (List.filter f l) < length l)%nat.
Proof.
  induction 1 as [x l Hx|x l _ IH]; simpl.
  - rewrite Hx. pose proof (List.filter_length_le f l). lia.
  - destruct (f x); simpl; [lia|]. pose proof (List.filter_length_le f l). lia.
Qed.

Lemma check_triplets_three sat sev comp vs a b c als :
  sort_by_timestamp vs = [a; b; c] ->
  check_triplets sat sev comp vs als
  = inr (if within_window a c then add_alert (alert_for sat sev comp a) als else als).
Proof.
  intros Hsort. destruct (within_window a c) eqn:Hw.
  - apply (check_triplets_first sat sev comp vs als 0 a); rewrite Hsort.
    + simpl. lia.
    + reflexivity.
    + unfold qualifies. simpl. exact Hw.
    + intros j Hj. lia.
  - apply check_triplets_none. right. rewrite Hsort.
    intros i Hi. simpl in Hi. assert (i = 0%nat) as -> by lia.
    unfold qualifies. simpl. exact Hw.
Qed.

(** What [check_violations] does for a key whose component has the
    violation predicate [violates]. *)
Lemma check_violations_filtered (m : monitor) (sat : Z) (comp : string)
    (violates : reading -> bool) (sev : string) (l : list reading) :
  violation_rule comp = Some (violates, sev) ->
  readings m !! (sat, comp) = Some l ->
  check_violations m (sat, comp)
  = (als ← check_triplets sat sev comp (List.filter violates l) (alerts m);
     mret (mk_monitor (readings m) als)) /\
  ((length l <= 3)%nat -> Exists (fun r => violates r = false) l ->
   check_violations m (sat, comp) = inr m) /\
  (forall a b c,
     sort_by_timestamp l = [a; b; c] -> within_window a c = true ->
     Forall (fun r => violates r = true) l ->
     mk_alert sat sev comp (original_timestamp a) ∉ alerts m ->
     check_violations m (sat, comp)
     = inr (mk_monitor (readings m)
              (alerts m ++ [mk_alert sat sev comp (original_timestamp a)]))) /\
  (forall r l1 l2,
     l = l1 ++ r :: l2 -> violates r = false ->
     exists als',
       check_violations m (sat, comp) = inr (mk_monitor (readings m) als') /\
       check_violations
         (mk_monitor (<[(sat, comp) := l1 ++ l2]> (readings m)) (alerts m)) (sat, comp)
       = inr (mk_monitor (<[(sat, comp) := l1 ++ l2]> (readings m)) als')).
Proof.
  intros Hrule Hl.
  assert (Hscan : forall m' l', readings m' !! (sat, comp) = Some l' ->
            check_violations m' (sat, comp)
            = (als ← check_triplets sat sev comp (List.filter violates l') (alerts m');
               mret (mk_monitor (readings m') als))).
  { intros m' l' Hl'. rewrite check_violations_rule.
    rewrite (readings_get_present _ _ _ Hl'). cbn [fst snd].
    rewrite Hrule. reflexivity. }
  split; [exact (Hscan m l Hl)|]. split; [|split].
  - intros Hlen Hex. rewrite (Hscan m l Hl). unfold check_triplets.
    pose proof (filter_length_lt violates l Hex) as Hlt.
    destruct (Nat.leb_spec 3 (length (List.filter violates l))); [lia|].
    destruct m; reflexivity.
  - intros a b c Hsort Hw Hall Hnew. rewrite (Hscan m l Hl).
    rewrite (filter_Forall_id _ _ Hall).
    rewrite (check_triplets_three _ _ _ _ _ _ _ _ Hsort), Hw.
    unfold alert_for. rewrite (add_alert_new _ _ Hnew). reflexivity.
  - intros r l1 l2 -> Hr.
    rewrite (Hscan m _ Hl).
    rewrite (Hscan (mk_monitor (<[(sat, comp) := l1 ++ l2]> (readings m)) (alerts m))
               (l1 ++ l2)) by (cbn [readings]; apply lookup_insert_eq).
    cbn [readings alerts]. rewrite (filter_app_skip violates l1 l2 r Hr).
    destruct (check_triplets_total sat sev comp (List.filter violates (l1 ++ l2))
                (alerts m)) as [H|(r1 & _ & H)]; rewrite H; eexists; split; reflexivity.
Qed.

(** C3: the two violation predicates are strict comparisons of the value
    with the limit.  For a [TSTAT] key [check_violations] scans the
    readings of the history whose value is greater than their limit, with
    the label [RED HIGH]; for a [BATT] key those whose value is less than
    their limit, with the label [RED LOW].  A reading whose value equals
    its limit satisfies neither comparison: three readings of a key
    within the window that all violate strictly give the alert of the
    first, while a history of at most three readings one of which has its
    value equal to its limit gives no alert, and removing such a reading
    from any history of the key leaves the outcome of the check as it
    is. *)
Theorem C3_strict_threshold (m : monitor) (sat : Z) (l : list reading) :
  let above := fun r : reading => SFltb (limit r) (value r) in
  let below := fun r : reading => SFltb (value r) (limit r) in
  let at_limit := fun r : reading => SFeqb (value r) (limit r) = true in
  let removed := fun (comp : string) (l' : list reading) =>
    mk_monitor (<[(sat, comp) := l']> (readings m)) (alerts m) in
  (forall r, above r = true <-> SFcompare (value r) (limit r) = Some Gt) /\
  (forall r, below r = true <-> SFcompare (value r) (limit r) = Some Lt) /\
  (forall r, at_limit r -> above r = false /\ below r = false) /\
  (readings m !! (sat, "TSTAT") = Some l ->
   check_violations m (sat, "TSTAT")
   = (als ← check_triplets sat "RED HIGH" "TSTAT" (List.filter above l) (alerts m);
      mret (mk_monitor (readings m) als)) /\
   (forall a b c,
      sort_by_timestamp l = [a; b; c] -> within_window a c = true ->
      Forall (fun r => SFcompare (value r) (limit r) = Some Gt) l ->
      mk_alert sat "RED HIGH" "TSTAT" (original_timestamp a) ∉ alerts m ->
      check_violations m (sat, "TSTAT")
      = inr (mk_monitor (readings m)
               (alerts m ++ [mk_alert sat "RED HIGH" "TSTAT" (original_timestamp a)]))) /\
   ((length l <= 3)%nat -> Exists at_limit l ->
    check_violations m (sat, "TSTAT") = inr m) /\
   (forall r l1 l2,
      l = l1 ++ r :: l2 -> at_limit r ->
      exists als',
        check_violations m (sat, "TSTAT") = inr (mk_monitor (readings m) als') /\
        check_violations (removed "TSTAT" (l1 ++ l2)) (sat, "TSTAT")
        = inr (mk_monitor (readings (removed "TSTAT" (l1 ++ l2))) als'))) /\
  (readings m !! (sat, "BATT") = Some l ->
   check_violations m (sat, "BATT")
   = (als ← check_triplets sat "RED LOW" "BATT" (List.filter below l) (alerts m);
      mret (mk_monitor (readings m) als)) /\
   (forall a b c,
      sort_by_timestamp l = [a; b; c] -> within_window a c = true ->
      Forall (fun r => SFcompare (value r) (limit r) = Some Lt) l ->
      mk_alert sat "RED LOW" "BATT" (original_timestamp a) ∉ alerts m ->
      check_violations m (sat, "BATT")
      = inr (mk_monitor (readings m)
               (alerts m ++ [mk_alert sat "RED LOW" "BATT" (original_timestamp a)]))) /\
   ((length l <= 3)%nat -> Exists at_limit l ->
    check_violations m (sat, "BATT") = inr m) /\
   (forall r l1 l2,
      l = l1 ++ r :: l2 -> at_limit r ->
      exists als',
        check_violations m (sat, "BATT") = inr (mk_monitor (readings m) als') /\
        check_violations (removed "BATT" (l1 ++ l2)) (sat, "BATT")
        = inr (mk_monitor (readings (removed "BATT" (l1 ++ l2))) als'))).
Proof.
  intros above below at_limit removed.
  assert (Hneither : forall r, at_limit r -> above r = false /\ below r = false).
  { intros r Heq.
    assert (Hc : SFcompare (value r) (limit r) = Some Eq).
    { unfold at_limit, SFeqb in Heq.
      destruct (SFcompare (value r) (limit r)) as [[]|]; congruence. }
    split.
    - destruct (above r) eqn:E; [|reflexivity].
      apply (exceeds_limit_iff r) in E. congruence.
    - destruct (below r) eqn:E; [|reflexivity].
      apply (below_limit_iff r) in E. congruence. }
  split; [exact exceeds_limit_iff|]. split; [exact below_limit_iff|].
  split; [exact Hneither|]. split.
  - intros Hl.
    destruct (check_violations_filtered m sat "TSTAT" exceeds_limit "RED HIGH" l
                eq_refl Hl) as (Hscan & Hfew & Hthree & Hrem).
    split; [exact Hscan|]. split; [|split].
    + intros a b c Hsort Hw Hall Hnew. apply (Hthree a b c Hsort Hw); [|exact Hnew].
      eapply Forall_impl; [exact Hall|]. intros r Hr. apply exceeds_limit_iff. exact Hr.
    + intros Hlen Hex. apply (Hfew Hlen).
      eapply Exists_impl; [exact Hex|]. intros r Hr. exact (proj1 (Hneither r Hr)).
    + intros r l1 l2 Hsplit Hr. exact (Hrem r l1 l2 Hsplit (proj1 (Hneither r Hr))).
  - intros Hl.
    destruct (check_violations_filtered m sat "BATT" below_limit "RED LOW" l
                eq_refl Hl) as (Hscan & Hfew & Hthree & Hrem).
    split; [exact Hscan|]. split; [|split].
    + intros a b c Hsort Hw Hall Hnew. apply (Hthree a b c Hsort Hw); [|exact Hnew].
      eapply Forall_impl; [exact Hall|]. intros r Hr. apply below_limit_iff. exact Hr.
    + intros Hlen Hex. apply (Hfew Hlen).
      eapply Exists_impl; [exact Hex|]. intros r Hr. exact (proj2 (Hneither r Hr)).
    + intros r l1 l2 Hsplit Hr. exact (Hrem r l1 l2 Hsplit (proj2 (Hneither r Hr))).
Qed.

(** ** Output formatting *)

Lemma append_assoc (s t u : string) : (s +:+ t) +:+ u = s +:+ (t +:+ u).
Proof.
  induction s as [|c s IH]; [reflexivity|].
  change (String c ((s +:+ t) +:+ u) = String c (s +:+ (t +:+ u))).
  rewrite IH. reflexivity.
Qed.

Lemma length_append (s t : string) :
  String.length (s +:+ t) = (String.length s + String.length t)%nat.
Proof.
  induction s as [|c s IH]; [reflexivity|].
  change (S (String.length (s +:+ t)) = S (String.length s + String.length t)).
  rewrite IH. reflexivity.
Qed.

Lemma length_dec (w : nat) (n : Z) : String.length (dec w n) = w.
Proof.
  revert n. induction w as [|w IH]; intros n; [reflexivity|].
  change (dec (S w) n) with (dec w (n / 10) +:+ String (digit_char (n mod 10)) EmptyString).
  rewrite length_append, IH. simpl. lia.
Qed.

Lemma drop_last_cons (k : nat) (c : ascii) (s : string) :
  (k <= String.length s)%nat ->
  PyStr.drop_last k (String c s) = String c (PyStr.drop_last k s).
Proof.
  intros Hk. unfold PyStr.drop_last. simpl String.length.
  replace (S (String.length s) - k)%nat with (S (String.length s - k)) by lia.
  reflexivity.
Qed.

Lemma drop_last_append (k : nat) (s t : string) :
  (k <= String.length t)%nat ->
  PyStr.drop_last k (s +:+ t) = s +:+ PyStr.drop_last k t.
Proof.
  intros Hk. induction s as [|c s IH]; [reflexivity|].
  change (String c s +:+ t) with (String c (s +:+ t)).
  rewrite drop_last_cons, IH; [reflexivity|]. rewrite length_append. lia.
Qed.

Lemma append_empty_r (s : string) : s +:+ EmptyString = s.
Proof.
  induction s as [|c s IH]; [reflexivity|].
  change (String c (s +:+ EmptyString) = String c s). rewrite IH. reflexivity.
Qed.

(** Cutting the last three of the six microsecond digits leaves the three
    digits of the whole milliseconds. *)
Lemma drop_last_dec6 (n : Z) :
  PyStr.drop_last 3 (dec 6 n) = dec 3 (n / 1000).
Proof.
  replace (n / 1000) with (n / 10 / 10 / 10)
    by (rewrite !Z.div_div by lia; reflexivity).
  reflexivity.
Qed.

Lemma strftime_drop_last (t : datetime) :
  PyStr.drop_last 3 (strftime_iso t) +:+ "Z" = rendered t.
Proof.
  unfold strftime_iso, rendered.
  rewrite !drop_last_append by (rewrite ?length_append, ?length_dec; simpl; lia).
  rewrite drop_last_dec6. rewrite !append_assoc. reflexivity.
Qed.

Lemma format_timestamp_parsed (text : string) (dt : datetime) :
  parse_timestamp text = inr dt -> format_timestamp text = inr (rendered dt).
Proof.
  intros H. unfold format_timestamp. rewrite H. simpl.
  rewrite strftime_drop_last. reflexivity.
Qed.

Lemma strptime_with_valid (re : parser datetime) (text : string) (dt : datetime) :
  strptime_with re text = inr dt -> valid dt = true.
Proof.
  unfold strptime_with. destruct (re text) as [|[t rest] ?]; [discriminate|].
  destruct (PyStr.is_empty rest); simpl; [|discriminate].
  destruct (valid t) eqn:E; [|discriminate]. intros [= <-]. exact E.
Qed.

Lemma strptime_with_raises (re : parser datetime) (text : string) (e : exn) :
  strptime_with re text = inl e -> e = ValueError text.
Proof.
  unfold strptime_with. destruct (re text) as [|[t rest] ?]; [intros [= <-]; reflexivity|].
  destruct (PyStr.is_empty rest && valid t); [discriminate|].
  intros [= <-]. reflexivity.
Qed.

Lemma parse_timestamp_cases (text : string) :
  parse_timestamp text =
  match strptime_fractional text with
  | inr dt => inr dt
  | inl _ => strptime_whole text
  end.
Proof.
  unfold parse_timestamp, try_except_ValueError.
  destruct (strptime_fractional text) as [e|dt] eqn:E; [|reflexivity].
  apply strptime_with_raises in E. subst e. reflexivity.
Qed.

Lemma parse_timestamp_valid (text : string) (dt : datetime) :
  parse_timestamp text = inr dt -> valid dt = true.
Proof.
  rewrite parse_timestamp_cases.
  destruct (strptime_fractional text) as [e|dt'] eqn:E.
  - apply strptime_with_valid.
  - intros [= <-]. eapply strptime_with_valid. exact E.
Qed.

Lemma decimal_digits_cons (c : ascii) (s : string) (acc : Z) :
  decimal_digits (String c s) acc
  = if ((48 <=? nat_of_ascii c)%nat && (nat_of_ascii c <=? 57)%nat)%bool
    then decimal_digits s (10 * acc + digit_val c)
    else None.
Proof. reflexivity. Qed.

(** [dec] writes decimal numbers: its digits read back as the number. *)
Lemma decimal_digits_append (s t : string) (acc : Z) :
  decimal_digits (s +:+ t) acc
  = match decimal_digits s acc with
    | Some x => decimal_digits t x
    | None => None
    end.
Proof.
  revert acc. induction s as [|c s IH]; intros acc; [reflexivity|].
  change (String c s +:+ t) with (String c (s +:+ t)).
  rewrite !decimal_digits_cons.
  destruct ((48 <=? nat_of_ascii c)%nat && (nat_of_ascii c <=? 57)%nat)%bool;
    [apply IH|reflexivity].
Qed.

Lemma decimal_digits_digit_char (d acc : Z) :
  0 <= d <= 9 ->
  decimal_digits (String (digit_char d) EmptyString) acc = Some (10 * acc + d).
Proof.
  intros Hd.
  assert (H : d = 0 \/ d = 1 \/ d = 2 \/ d = 3 \/ d = 4 \/ d = 5 \/ d = 6 \/
              d = 7 \/ d = 8 \/ d = 9) by lia.
  repeat destruct H as [H|H]; subst d; reflexivity.
Qed.

Lemma decimal_digits_dec (w : nat) (n acc : Z) :
  0 <= n < 10 ^ Z.of_nat w ->
  decimal_digits (dec w n) acc = Some (acc * 10 ^ Z.of_nat w + n).
Proof.
  revert n acc. induction w as [|w IH]; intros n acc Hn.
  - simpl in *. f_equal. lia.
  - change (dec (S w) n) with (dec w (n / 10) +:+ String (digit_char (n mod 10)) EmptyString).
    rewrite Nat2Z.inj_succ, Z.pow_succ_r in * by lia.
    rewrite decimal_digits_append, IH by (Z.div_mod_to_equations; lia).
    rewrite decimal_digits_digit_char by (Z.div_mod_to_equations; lia).
    f_equal. Z.div_mod_to_equations. lia.
Qed.

Lemma strptime_whole_microsecond (text : string) (dt : datetime) :
  strptime_whole text = inr dt -> microsecond dt = 0.
Proof.
  unfold strptime_whole, strptime_with.
  destruct (re_whole text) as [|[t rest] l] eqn:E; [discriminate|].
  destruct (PyStr.is_empty rest && valid t); [|discriminate].
  intros [= <-].
  assert (Hall : Forall (fun r => microsecond r.1 = 0) (re_whole text)).
  { unfold re_whole. unfold mbind, parser_bind, p_bind.
    repeat (apply Forall_flat_map, Forall_forall; intros ? _).
    unfold mret, parser_ret, p_ret. constructor; [reflexivity|constructor]. }
  rewrite E in Hall. inversion Hall; subst. assumption.
Qed.

(** In every state the monitor reaches, the timestamp text of a stored
    reading parses to its stored timestamp, and every alert carries the
    timestamp text of such a reading. *)
Lemma reachable_timestamps (m : monitor) :
  reachable m ->
  (forall key r, r ∈ history m key ->
     parse_timestamp (original_timestamp r) = inr (r_timestamp r)) /\
  (forall a, a ∈ alerts m ->
     exists dt, parse_timestamp (a_timestamp a) = inr dt).
Proof.
  induction 1 as [|m m' data Hm [IHr IHa] Hstep].
  - split.
    + intros key r Hr. unfold history, init in Hr. simpl in Hr.
      rewrite lookup_empty in Hr. simpl in Hr. apply elem_of_nil in Hr. contradiction.
    + intros a Ha. simpl in Ha. apply elem_of_nil in Ha. contradiction.
  - destruct (parse_timestamp (timestamp data)) as [e|ts] eqn:Hts.
    { rewrite (process_telemetry_raises _ _ _ Hts) in Hstep. discriminate. }
    destruct (process_telemetry_result m data ts Hts) as (als' & Hrun & Hals).
    rewrite Hrun in Hstep. injection Hstep as <-.
    assert (Hhist : forall key r,
               r ∈ history (mk_monitor (readings (appended m data ts)) als') key ->
               parse_timestamp (original_timestamp r) = inr (r_timestamp r)).
    { intros key r Hr.
      destruct (decide (key = (satelliteId data, component data))) as [->|Hne].
      - rewrite history_appended in Hr. apply elem_of_app in Hr.
        destruct Hr as [Hr|Hr]; [eapply IHr; exact Hr|].
        apply list_elem_of_singleton in Hr. subst r. simpl. exact Hts.
      - rewrite history_appended_ne in Hr by exact Hne. eapply IHr; exact Hr. }
    split; [exact Hhist|].
    intros a Ha. simpl in Ha.
    destruct Hals as [->|(violates & sev & r1 & _ & Hin & _ & ->)]; [auto|].
    apply elem_of_add_alert in Ha. destruct Ha as [Ha| ->]; [auto|].
    simpl. exists (r_timestamp r1).
    apply (Hhist (satelliteId data, component data)).
    rewrite history_appended. exact Hin.
Qed.

Lemma strftime_Y_four (y : Z) : 1000 <= y -> strftime_Y y = dec 4 y.
Proof.
  intros H. unfold strftime_Y.
  destruct (Z.ltb_spec y 10); [lia|]. destruct (Z.ltb_spec y 100); [lia|].
  destruct (Z.ltb_spec y 1000); [lia|]. reflexivity.
Qed.

Lemma rendered_iso (t : datetime) : 1000 <= year t -> rendered t = iso_millis t.
Proof. intros H. unfold rendered, iso_millis. rewrite (strftime_Y_four _ H). reflexivity. Qed.

Lemma formatted_alerts_total (als : list alert) :
  (forall a, a ∈ als -> exists dt, parse_timestamp (a_timestamp a) = inr dt) ->
  exists fas,
    formatted_alerts als = inr fas /\
    Forall2 (fun a fa =>
               exists dt, parse_timestamp (a_timestamp a) = inr dt /\
                 fa = mk_alert (a_satelliteId a) (severity a) (a_component a)
                        (rendered dt)) als fas.
Proof.
  induction als as [|a als IH]; intros H.
  - exists []. split; [reflexivity|constructor].
  - destruct (H a ltac:(left)) as [dt Hdt].
    destruct IH as (fas & Hfas & Hall).
    { intros b Hb. apply H. right. exact Hb. }
    eexists. split.
    + simpl. unfold format_alert. rewrite (format_timestamp_parsed _ _ Hdt). simpl.
      rewrite Hfas. simpl. reflexivity.
    + constructor; [|exact Hall]. exists dt. auto.
Qed.


(** ** Parsing records *)

Section ParsingProperties.

Variable builtin_int : string -> option Z.
Variable builtin_float : string -> option spec_float.

Lemma int_Some (f : string) (z : Z) :
  builtin_int f = Some z -> int builtin_int f = inr z.
Proof. unfold int. intros ->. reflexivity. Qed.

Lemma float_Some (f : string) (x : spec_float) :
  builtin_float f = Some x -> float builtin_float f = inr x.
Proof. unfold float. intros ->. reflexivity. Qed.

(** Only the first eight fields are looked at. *)
Lemma parse_fields_take (fields : list string) :
  parse_fields builtin_int builtin_float fields
  = parse_fields builtin_int builtin_float (take 8 fields).
Proof.
  unfold parse_fields, getitem.
  rewrite !lookup_take_lt by lia. reflexivity.
Qed.

Lemma parse_fields_eight f0 f1 f2 f3 f4 f5 f6 f7 extra sat rh yh yl rl rv :
  builtin_int f1 = Some sat ->
  builtin_float f2 = Some rh -> builtin_float f3 = Some yh ->
  builtin_float f4 = Some yl -> builtin_float f5 = Some rl ->
  builtin_float f6 = Some rv ->
  parse_fields builtin_int builtin_float
    (f0 :: f1 :: f2 :: f3 :: f4 :: f5 :: f6 :: f7 :: extra)
  = inr (mk_telemetry f0 sat rh yh yl rl rv f7).
Proof.
  intros H1 H2 H3 H4 H5 H6. unfold parse_fields, getitem. simpl.
  rewrite (int_Some _ _ H1). simpl.
  rewrite (float_Some _ _ H2). simpl. rewrite (float_Some _ _ H3). simpl.
  rewrite (float_Some _ _ H4). simpl. rewrite (float_Some _ _ H5). simpl.
  rewrite (float_Some _ _ H6). reflexivity.
Qed.

(** C10: a line whose stripped text splits at the bars into eight fields
    followed by any number of further fields parses, provided fields 1 to
    6 are acceptable numeric text: the result is built from the first
    eight fields, and the further fields change nothing.  In general
    [parse_fields] gives on a list of fields what it gives on its first
    eight. *)
Theorem C10_extra_fields_ignored (line : string)
    (f0 f1 f2 f3 f4 f5 f6 f7 : string) (extra : list string)
    (sat : Z) (rh yh yl rl rv : spec_float) :
  PyStr.split "|" (PyStr.strip line)
  = f0 :: f1 :: f2 :: f3 :: f4 :: f5 :: f6 :: f7 :: extra ->
  builtin_int f1 = Some sat ->
  builtin_float f2 = Some rh -> builtin_float f3 = Some yh ->
  builtin_float f4 = Some yl -> builtin_float f5 = Some rl ->
  builtin_float f6 = Some rv ->
  parse_line builtin_int builtin_float line
  = inr (mk_telemetry f0 sat rh yh yl rl rv f7) /\
  parse_line builtin_int builtin_float line
  = parse_fields builtin_int builtin_float [f0; f1; f2; f3; f4; f5; f6; f7] /\
  forall fields : list string,
    parse_fields builtin_int builtin_float fields
    = parse_fields builtin_int builtin_float (take 8 fields).
Proof.
  intros Hsplit H1 H2 H3 H4 H5 H6. unfold parse_line. rewrite Hsplit.
  rewrite !(parse_fields_eight _ _ _ _ _ _ _ _ _ _ _ _ _ _ _ H1 H2 H3 H4 H5 H6).
  split; [reflexivity|]. split; [reflexivity|]. apply parse_fields_take.
Qed.

Lemma field_ok_int (f : string) :
  field_ok builtin_int builtin_float 1 f = true ->
  exists z, int builtin_int f = inr z.
Proof.
  unfold field_ok, int. destruct (builtin_int f) as [z|]; [eauto|discriminate].
Qed.

Lemma field_ok_float (i : nat) (f : string) :
  (2 <= i <= 6)%nat ->
  field_ok builtin_int builtin_float i f = true ->
  exists x, float builtin_float f = inr x.
Proof.
  intros Hi. unfold float.
  assert (H : (i = 2 \/ i = 3 \/ i = 4 \/ i = 5 \/ i = 6)%nat) by lia.
  repeat destruct H as [H|H]; subst i; simpl;
    destruct (builtin_float f) as [x|]; eauto; discriminate.
Qed.

Lemma field_bad_int (f : string) :
  field_ok builtin_int builtin_float 1 f = false ->
  int builtin_int f = inl (ValueError f).
Proof.
  unfold field_ok, int. destruct (builtin_int f) as [z|]; [discriminate|reflexivity].
Qed.

Lemma field_bad_float (i : nat) (f : string) :
  (2 <= i <= 6)%nat ->
  field_ok builtin_int builtin_float i f = false ->
  float builtin_float f = inl (ValueError f).
Proof.
  intros Hi. unfold float.
  assert (H : (i = 2 \/ i = 3 \/ i = 4 \/ i = 5 \/ i = 6)%nat) by lia.
  repeat destruct H as [H|H]; subst i; simpl;
    destruct (builtin_float f) as [x|]; (discriminate || reflexivity).
Qed.

(** A line on which [parse_line] raises ends the run with that
    exception: no later line is processed. *)
Lemma process_file_propagates (m m1 : monitor) (pre post : list string)
    (line : string) (e : exn) :
  process_file builtin_int builtin_float m pre = inr m1 ->
  PyStr.is_empty (PyStr.strip line) = false ->
  parse_line builtin_int builtin_float line = inl e ->
  process_file builtin_int builtin_float m (pre ++ line :: post) = inl e.
Proof.
  revert m. induction pre as [|l pre IH]; intros m Hpre Hne Hline.
  - simpl in Hpre. injection Hpre as ->. simpl. rewrite Hne, Hline. reflexivity.
  - simpl in Hpre |- *.
    destruct (PyStr.is_empty (PyStr.strip l)); [apply IH; assumption|].
    destruct (parse_line builtin_int builtin_float l) as [e'|data]; [discriminate|].
    simpl in Hpre |- *.
    destruct (process_telemetry m data) as [e'|m'] ; [discriminate|].
    simpl in Hpre |- *. apply IH; assumption.
Qed.

Ltac consume_field Hprev j :=
  let Hf := fresh "Hf" in
  let Hok := fresh "Hok" in
  let Hz := fresh "Hz" in
  destruct (Hprev j ltac:(lia)) as (? & Hf & Hok);
  rewrite (getitem_Some _ _ _ Hf); rewrite py_bind_inr; cbv beta;
  first [ destruct (field_ok_int _ Hok) as [? Hz];
          rewrite Hz; rewrite py_bind_inr; cbv beta
        | destruct (field_ok_float j _ ltac:(lia) Hok) as [? Hz];
          rewrite Hz; rewrite py_bind_inr; cbv beta
        | idtac ].

Ltac offending_field i :=
  split;
  [ let H := fresh in
    intros H; rewrite (getitem_None _ _ H); reflexivity
  | let H := fresh in
    let Hbad := fresh in
    intros ? H Hbad; rewrite (getitem_Some _ _ _ H); rewrite py_bind_inr; cbv beta;
    first [ discriminate Hbad
          | rewrite (field_bad_int _ Hbad); reflexivity
          | rewrite (field_bad_float i _ ltac:(lia) Hbad); reflexivity ] ].

(** The first field that is missing or not acceptable decides how
    [parse_fields] fails. *)
Lemma parse_fields_first_offending (fields : list string) (i : nat) :
  (i < 8)%nat ->
  (forall j, (j < i)%nat ->
     exists f, fields !! j = Some f /\ field_ok builtin_int builtin_float j f = true) ->
  (fields !! i = None ->
     parse_fields builtin_int builtin_float fields = inl IndexError) /\
  (forall f, fields !! i = Some f ->
     field_ok builtin_int builtin_float i f = false ->
     parse_fields builtin_int builtin_float fields = inl (ValueError f)).
Proof.
  intros Hi Hprev. unfold parse_fields.
  assert (H : (i = 0 \/ i = 1 \/ i = 2 \/ i = 3 \/ i = 4 \/ i = 5 \/ i = 6 \/ i = 7)%nat)
    by lia.
  destruct H as [->|[->|[->|[->|[->|[->|[->| ->]]]]]]].
  - offending_field 0%nat.
  - consume_field Hprev 0%nat. offending_field 1%nat.
  - consume_field Hprev 0%nat. consume_field Hprev 1%nat. offending_field 2%nat.
  - consume_field Hprev 0%nat. consume_field Hprev 1%nat. consume_field Hprev 2%nat.
    offending_field 3%nat.
  - consume_field Hprev 0%nat. consume_field Hprev 1%nat. consume_field Hprev 2%nat.
    consume_field Hprev 3%nat. offending_field 4%nat.
  - consume_field Hprev 0%nat. consume_field Hprev 1%nat. consume_field Hprev 2%nat.
    consume_field Hprev 3%nat. consume_field Hprev 4%nat. offending_field 5%nat.
  - consume_field Hprev 0%nat. consume_field Hprev 1%nat. consume_field Hprev 2%nat.
    consume_field Hprev 3%nat. consume_field Hprev 4%nat. consume_field Hprev 5%nat.
    offending_field 6%nat.
  - consume_field Hprev 0%nat. consume_field Hprev 1%nat. consume_field Hprev 2%nat.
    consume_field Hprev 3%nat. consume_field Hprev 4%nat. consume_field Hprev 5%nat.
    consume_field Hprev 6%nat. offending_field 7%nat.
Qed.

(** C5 (as the code has it): when the fields before field [i] (one of
    the first eight) are present and acceptable, a missing field [i]
    makes [parse_line] raise [IndexError], which names no field, and a
    field [i] whose numeric text is not acceptable makes it raise the
    [ValueError] that carries that text; the exception ends
    [process_file], which returns it to its caller whatever lines
    follow. *)
Theorem C5_parse_failure (line : string) (i : nat) :
  let fields := PyStr.split "|" (PyStr.strip line) in
  (i < 8)%nat ->
  (forall j, (j < i)%nat ->
     exists f, fields !! j = Some f /\ field_ok builtin_int builtin_float j f = true) ->
  (fields !! i = None ->
     parse_line builtin_int builtin_float line = inl IndexError) /\
  (forall f, fields !! i = Some f ->
     field_ok builtin_int builtin_float i f = false ->
     parse_line builtin_int builtin_float line = inl (ValueError f)) /\
  (forall (e : exn) (m m1 : monitor) (pre post : list string),
     parse_line builtin_int builtin_float line = inl e ->
     PyStr.is_empty (PyStr.strip line) = false ->
     process_file builtin_int builtin_float m pre = inr m1 ->
     process_file builtin_int builtin_float m (pre ++ line :: post) = inl e).
Proof.
  intros fields Hi Hprev.
  destruct (parse_fields_first_offending fields i Hi Hprev) as [Hmiss Hbad].
  split; [exact Hmiss|]. split; [exact Hbad|].
  intros e m m1 pre post He Hne Hpre.
  eapply process_file_propagates; eassumption.
Qed.

End ParsingProperties.

(** * The properties on the sample records *)


Lemma C2_no_duplicate_alerts_witness :
  let a := mk_alert 7 "RED LOW" "BATT" "20240101 00:00:00.000" in
  a ∈ [a] /\ add_alert a [a] = [a] /\ NoDup (alerts init).
Proof.
  intros a. destruct C2_no_duplicate_alerts as (Hsame & _ & Hreach).
  assert (Hin : a ∈ [a]) by (apply list_elem_of_singleton; reflexivity).
  split; [exact Hin|]. split; [exact (Hsame a [a] Hin)|].
  exact (proj1 (Hreach init reachable_init)).
Defined.

Lemma C3_strict_threshold_witness :
  let m := mk_monitor {[ (7, "TSTAT") := [ex_t1; ex_t2; ex_t3] ]} [] in
  let m_limit := mk_monitor {[ (7, "TSTAT") := [ex_t1; ex_t_equal; ex_t3] ]} [] in
  let b_limit := mk_monitor {[ (7, "BATT") := [ex_r1; ex_r_equal; ex_r2] ]} [] in
  SFeqb (value ex_t_equal) (limit ex_t_equal) = true /\
  SFeqb (value ex_r_equal) (limit ex_r_equal) = true /\
  check_violations m (7, "TSTAT")
  = inr (mk_monitor (readings m) [mk_alert 7 "RED HIGH" "TSTAT" "20240101 00:00:00.000"]) /\
  check_violations m_limit (7, "TSTAT") = inr m_limit /\
  check_violations b_limit (7, "BATT") = inr b_limit.
Proof.
  intros m m_limit b_limit.
  assert (Ht : SFeqb (value ex_t_equal) (limit ex_t_equal) = true) by reflexivity.
  assert (Hr : SFeqb (value ex_r_equal) (limit ex_r_equal) = true) by reflexivity.
  split; [exact Ht|]. split; [exact Hr|]. split; [|split].
  - destruct (C3_strict_threshold m 7 [ex_t1; ex_t2; ex_t3])
      as (_ & _ & _ & Htstat & _).
    destruct (Htstat (lookup_singleton_eq _ _)) as (_ & Hthree & _).
    apply (Hthree ex_t1 ex_t2 ex_t3).
    + reflexivity.
    + reflexivity.
    + repeat constructor.
    + apply not_elem_of_nil.
  - destruct (C3_strict_threshold m_limit 7 [ex_t1; ex_t_equal; ex_t3])
      as (_ & _ & _ & Htstat & _).
    destruct (Htstat (lookup_singleton_eq _ _)) as (_ & _ & Hfew & _).
    apply Hfew; [simpl; lia|]. right. left. exact Ht.
  - destruct (C3_strict_threshold b_limit 7 [ex_r1; ex_r_equal; ex_r2])
      as (_ & _ & _ & _ & Hbatt).
    destruct (Hbatt (lookup_singleton_eq _ _)) as (_ & _ & Hfew & _).
    apply Hfew; [simpl; lia|]. right. left. exact Hr.
Defined.

Lemma C4_window_inclusive_witness :
  let al := mk_alert 7 "RED LOW" "BATT" "20240101 00:00:00.000" in
  sort_by_timestamp [ex_r3; ex_r1; ex_r2] = [ex_r1; ex_r2; ex_r3] /\
  dt_sub (r_timestamp ex_r3) (r_timestamp ex_r1) = timedelta_minutes 5 /\
  check_triplets 7 "RED LOW" "BATT" [ex_r3; ex_r1; ex_r2] [] = inr [al] /\
  check_triplets 7 "RED LOW" "BATT" [ex_r3; ex_r1; ex_r2] [al] = inr [al] /\
  sort_by_timestamp [ex_r3_late; ex_r1; ex_r2] = [ex_r1; ex_r2; ex_r3_late] /\
  dt_sub (r_timestamp ex_r3_late) (r_timestamp ex_r1) = timedelta_new 0 300 1 /\
  check_triplets 7 "RED LOW" "BATT" [ex_r3_late; ex_r1; ex_r2] [] = inr [].
Proof.
  intros al.
  assert (Hs : sort_by_timestamp [ex_r3; ex_r1; ex_r2] = [ex_r1; ex_r2; ex_r3])
    by reflexivity.
  assert (Hd : dt_sub (r_timestamp ex_r3) (r_timestamp ex_r1) = timedelta_minutes 5)
    by reflexivity.
  assert (Hs' : sort_by_timestamp [ex_r3_late; ex_r1; ex_r2]
                = [ex_r1; ex_r2; ex_r3_late]) by reflexivity.
  assert (Hd' : dt_sub (r_timestamp ex_r3_late) (r_timestamp ex_r1)
                = timedelta_new 0 300 1) by reflexivity.
  split; [exact Hs|]. split; [exact Hd|]. split.
  { apply (proj1 (proj1 (C4_window_inclusive 7 "RED LOW" "BATT" _ _ _ _ [] Hs) Hd)).
    apply not_elem_of_nil. }
  split.
  { apply (proj2 (proj1 (C4_window_inclusive 7 "RED LOW" "BATT" _ _ _ _ [al] Hs) Hd)).
    apply list_elem_of_singleton. reflexivity. }
  split; [exact Hs'|]. split; [exact Hd'|].
  exact (proj1 (proj2 (C4_window_inclusive 7 "RED LOW" "BATT" _ _ _ _ [] Hs')) Hd').
Defined.


Lemma C7_limit_selection_witness :
  parse_timestamp (timestamp ex_data_tstat)
  = inr (mk_datetime 2024 1 1 0 5 0 250000) /\
  component ex_data_tstat = "TSTAT" /\
  exists m' r,
    process_telemetry init ex_data_tstat = inr m' /\
    history m' (7, "TSTAT") = history init (7, "TSTAT") ++ [r] /\
    limit r = lit "101".
Proof.
  assert (Hts : parse_timestamp (timestamp ex_data_tstat)
                = inr (mk_datetime 2024 1 1 0 5 0 250000)) by reflexivity.
  split; [exact Hts|]. split; [reflexivity|].
  destruct (C7_limit_selection init ex_data_tstat _ Hts)
    as (m' & r & Hrun & Hhist & _ & _ & _ & Hhigh & _).
  exists m', r. split; [exact Hrun|]. split; [exact Hhist|].
  exact (Hhigh eq_refl).
Defined.



Lemma C9_scan_sorted_witness :
  (3 <= length [ex_r3; ex_r1; ex_r2])%nat /\
  check_triplets 7 "RED LOW" "BATT" [ex_r3; ex_r1; ex_r2] []
  = scan_triplets 7 "RED LOW" "BATT" [ex_r1; ex_r2; ex_r3] (range 1) [] /\
  ascending (sort_by_timestamp [ex_r3; ex_r1; ex_r2]).
Proof.
  assert (Hlen : (3 <= length [ex_r3; ex_r1; ex_r2])%nat) by (simpl; lia).
  destruct (C9_scan_sorted 7 "RED LOW" "BATT" [ex_r3; ex_r1; ex_r2] [] Hlen)
    as (Hscan & _ & Hasc & _).
  split; [exact Hlen|]. split; [exact Hscan|exact Hasc].
Defined.

Lemma C10_extra_fields_ignored_witness :
  PyStr.split "|" (PyStr.strip ex_line_long)
  = ["20240101 00:00:00.000"; "7"; "101"; "98"; "25"; "20"; "19.9"; "BATT";
     "spare"; "more"] /\
  parse_line int_decimal float_decimal ex_line_long
  = inr (mk_telemetry "20240101 00:00:00.000" 7 (lit "101") (lit "98")
           (lit "25") (lit "20") (lit "19.9") "BATT").
Proof.
  assert (Hsplit : PyStr.split "|" (PyStr.strip ex_line_long)
    = ["20240101 00:00:00.000"; "7"; "101"; "98"; "25"; "20"; "19.9"; "BATT";
       "spare"; "more"]) by reflexivity.
  split; [exact Hsplit|].
  apply (C10_extra_fields_ignored int_decimal float_decimal ex_line_long
           _ _ _ _ _ _ _ _ _ 7 (lit "101") (lit "98") (lit "25") (lit "20")
           (lit "19.9") Hsplit); reflexivity.
Defined.

Lemma C5_parse_failure_witness :
  (PyStr.split "|" (PyStr.strip ex_line_bad5) !! 5%nat = Some "low" /\
   field_ok int_decimal float_decimal 5 "low" = false /\
   parse_line int_decimal float_decimal ex_line_bad5 = inl (ValueError "low")) /\
  process_file int_decimal float_decimal init [ex_line1; ex_line_bad5; ex_line2]
  = inl (ValueError "low").
Proof.
  assert (Hprev : forall j, (j < 5)%nat ->
            exists f, PyStr.split "|" (PyStr.strip ex_line_bad5) !! j = Some f /\
                      field_ok int_decimal float_decimal j f = true).
  { intros j Hj.
    assert (H : (j = 0 \/ j = 1 \/ j = 2 \/ j = 3 \/ j = 4)%nat) by lia.
    destruct H as [->|[->|[->|[->| ->]]]]; eexists; split; reflexivity. }
  destruct (C5_parse_failure int_decimal float_decimal ex_line_bad5 5%nat
              ltac:(lia) Hprev) as (_ & Hbad & Hrun).
  assert (Hline : parse_line int_decimal float_decimal ex_line_bad5
                  = inl (ValueError "low")) by (apply Hbad; reflexivity).
  split; [split; [reflexivity|split; [reflexivity|exact Hline]]|].
  destruct (process_file int_decimal float_decimal init [ex_line1]) as [e|m1] eqn:E.
  { vm_compute in E. discriminate. }
  exact (Hrun _ init m1 [ex_line1] [ex_line2] Hline eq_refl E).
Defined.

(** C5, as the claim states it, fails: records cut short at different
    fields (the first limit, the component code) raise one and the same
    [IndexError], from which the missing field cannot be told. *)
Lemma C5_counterexample :
  PyStr.split "|" (PyStr.strip ex_line_short2) !! 2%nat = None /\
  length (PyStr.split "|" (PyStr.strip ex_line_short2)) = 2%nat /\
  PyStr.split "|" (PyStr.strip ex_line_short7) !! 7%nat = None /\
  length (PyStr.split "|" (PyStr.strip ex_line_short7)) = 7%nat /\
  parse_line int_decimal float_decimal ex_line_short2 = inl IndexError /\
  parse_line int_decimal float_decimal ex_line_short7 = inl IndexError /\
  ~ exists field_of : exn -> nat,
      (forall e, parse_line int_decimal float_decimal ex_line_short2 = inl e ->
                 field_of e = 2%nat) /\
      (forall e, parse_line int_decimal float_decimal ex_line_short7 = inl e ->
                 field_of e = 7%nat).
Proof.
  repeat (split; [reflexivity|]).
  intros (field_of & H2 & H7).
  specialize (H2 IndexError eq_refl). specialize (H7 IndexError eq_refl).
  congruence.
Qed.

(** ** Scenarios of the specification *)

Example scenario_battery :
  run ex_scenario_battery
  = inr [mk_alert 7 "RED LOW" "BATT" "2024-01-01T00:00:00.000Z"].
Proof. vm_compute. reflexivity. Qed.

Example scenario_late : run ex_scenario_late = inr [].
Proof. vm_compute. reflexivity. Qed.

Example scenario_thermostat :
  run ex_scenario_thermostat
  = inr [mk_alert 3 "RED HIGH" "TSTAT" "2024-01-01T00:00:30.000Z"].
Proof. vm_compute. reflexivity. Qed.

(** * Further properties *)

(** ** What a call of [check_violations] does to the alert list *)

Lemma scan_triplets_offer sat sev comp vs indices als :
  Forall (fun i => (i + 2 < length vs)%nat) indices ->
  scan_triplets sat sev comp vs indices als
  = inr (offer (match first_cluster vs indices with
                | Some r1 => Some (alert_for sat sev comp r1)
                | None => None
                end) als).
Proof.
  unfold first_cluster.
  induction indices as [|i rest IH]; intros Hr; [reflexivity|].
  inversion Hr as [|? ? Hi Hr']; subst. simpl.
  destruct (lookup_lt_is_Some_2 vs i ltac:(lia)) as [r1 H1].
  destruct (lookup_lt_is_Some_2 vs (i + 2)%nat ltac:(lia)) as [r2 H2].
  rewrite (getitem_Some _ _ _ H1), (getitem_Some _ _ _ H2). simpl.
  unfold qualifies at 1. rewrite H1, H2.
  destruct (within_window r1 r2).
  - rewrite H1. reflexivity.
  - apply IH. exact Hr'.
Qed.

Lemma check_triplets_offer sat sev comp vs als :
  check_triplets sat sev comp vs als
  = inr (offer (cluster_alert sat sev comp vs) als).
Proof.
  unfold check_triplets, cluster_alert.
  destruct (Nat.leb_spec 3 (length vs)) as [H3|H3]; [|reflexivity].
  rewrite sort_by_timestamp_length.
  apply scan_triplets_offer, range_in_bounds.
  rewrite sort_by_timestamp_length. lia.
Qed.

Lemma check_violations_offer (m : monitor) (key : Z * string) (l : list reading) :
  readings m !! key = Some l ->
  check_violations m key
  = inr (mk_monitor (readings m) (offer (candidate key l) (alerts m))).
Proof.
  intros Hl. rewrite check_violations_rule, (readings_get_present _ _ _ Hl).
  unfold candidate.
  destruct (violation_rule key.2) as [[violates sev]|]; [|reflexivity].
  rewrite check_triplets_offer. reflexivity.
Qed.

Lemma process_telemetry_offer (m : monitor) (data : telemetry) (ts : datetime) :
  parse_timestamp (timestamp data) = inr ts ->
  process_telemetry m data
  = inr (mk_monitor (readings (appended m data ts))
           (offer (candidate (key_of data)
                     (history m (key_of data) ++ [reading_of data ts]))
                  (alerts m))).
Proof.
  intros Hts. rewrite (process_telemetry_appended _ _ _ Hts).
  apply (check_violations_offer _ _ _ (appended_lookup m data ts)).
Qed.

Lemma history_readings_get (m : monitor) (key k : Z * string) als :
  history (mk_monitor (readings_get (readings m) key).2 als) k = history m k.
Proof.
  unfold history, readings_get. simpl.
  destruct (readings m !! key) eqn:E; simpl; [reflexivity|].
  destruct (decide (k = key)) as [->|Hne].
  - rewrite lookup_insert_eq, E. reflexivity.
  - rewrite lookup_insert_ne by congruence. reflexivity.
Qed.

Lemma check_violations_any (m : monitor) (key : Z * string) :
  check_violations m key
  = inr (mk_monitor (readings_get (readings m) key).2
           (offer (candidate key (history m key)) (alerts m))).
Proof.
  rewrite check_violations_rule. unfold candidate, history, readings_get.
  destruct (readings m !! key) as [l|]; cbn [fst snd default];
    (destruct (violation_rule key.2) as [[violates sev]|]; [|reflexivity]);
    rewrite check_triplets_offer; reflexivity.
Qed.

(** ** When ingestion raises *)

(** [check_violations] returns for every monitor and key, also a key with
    no history, and leaves every history as it reads: the indexing of the
    scan never raises.  [process_telemetry] raises exactly when the
    timestamp text is rejected by both formats, and what it raises is a
    [ValueError]; when the fractional format accepts the text, or rejects
    it while the whole-second format accepts it, the call returns and the
    history of the record's key ends with the reading of the parsed
    timestamp.  (Which of the two messages of [strptime] the raised
    [ValueError] carries is not part of the model.) *)
Theorem ingest_raises_iff (m : monitor) (data : telemetry) :
  (forall key, exists m',
     check_violations m key = inr m' /\
     forall k, history m' k = history m k) /\
  ((exists e, process_telemetry m data = inl e) <->
   (exists e1, strptime_fractional (timestamp data) = inl e1) /\
   (exists e2, strptime_whole (timestamp data) = inl e2)) /\
  (forall e, process_telemetry m data = inl e -> exists text, e = ValueError text) /\
  (forall ts, strptime_fractional (timestamp data) = inr ts ->
     exists m', process_telemetry m data = inr m' /\
       history m' (key_of data) = history m (key_of data) ++ [reading_of data ts]) /\
  (forall e ts, strptime_fractional (timestamp data) = inl e ->
     strptime_whole (timestamp data) = inr ts ->
     exists m', process_telemetry m data = inr m' /\
       history m' (key_of data) = history m (key_of data) ++ [reading_of data ts]).
Proof.
  assert (Hret : forall ts, parse_timestamp (timestamp data) = inr ts ->
            exists m', process_telemetry m data = inr m' /\
              history m' (key_of data)
              = history m (key_of data) ++ [reading_of data ts]).
  { intros ts Hts. eexists. split; [apply (process_telemetry_offer _ _ _ Hts)|].
    unfold history at 1. cbn [readings]. unfold key_of.
    rewrite appended_lookup. reflexivity. }
  split; [|split; [|split; [|split]]].
  - intros key. eexists. split; [apply check_violations_any|].
    intros k. apply history_readings_get.
  - split.
    + intros [e Hrun].
      destruct (parse_timestamp (timestamp data)) as [e'|ts] eqn:Hts.
      * rewrite parse_timestamp_cases in Hts.
        destruct (strptime_fractional (timestamp data)) as [ef|t] eqn:Hf; [|discriminate].
        split; eexists; [reflexivity|exact Hts].
      * rewrite (process_telemetry_offer _ _ _ Hts) in Hrun. discriminate.
    + intros [[e1 Hf] [e2 Hw]]. exists e2. apply process_telemetry_raises.
      rewrite parse_timestamp_cases, Hf. exact Hw.
  - intros e Hrun.
    destruct (parse_timestamp (timestamp data)) as [e'|ts] eqn:Hts.
    + rewrite (process_telemetry_raises _ _ _ Hts) in Hrun. injection Hrun as <-.
      rewrite parse_timestamp_cases in Hts.
      destruct (strptime_fractional (timestamp data)) as [ef|t]; [|discriminate].
      apply strptime_with_raises in Hts. eexists. exact Hts.
    + rewrite (process_telemetry_offer _ _ _ Hts) in Hrun. discriminate.
  - intros ts Hf. apply Hret. rewrite parse_timestamp_cases, Hf. reflexivity.
  - intros e ts Hf Hw. apply Hret. rewrite parse_timestamp_cases, Hf. exact Hw.
Qed.

Lemma ingest_raises_iff_witness :
  (exists e, strptime_fractional (timestamp ex_data3) = inl e) /\
  strptime_whole (timestamp ex_data3) = inr (r_timestamp ex_r3) /\
  (exists m',
     process_telemetry ex_monitor2 ex_data3 = inr m' /\
     history m' (7, "BATT") = [ex_r1; ex_r2; ex_r3]) /\
  (exists e, strptime_fractional (timestamp ex_data_undated) = inl e) /\
  (exists e, strptime_whole (timestamp ex_data_undated) = inl e) /\
  exists e, process_telemetry ex_monitor2 ex_data_undated = inl e.
Proof.
  assert (Hf : strptime_fractional (timestamp ex_data3)
               = inl (ValueError (timestamp ex_data3))) by reflexivity.
  assert (Hw : strptime_whole (timestamp ex_data3) = inr (r_timestamp ex_r3))
    by reflexivity.
  assert (Hf' : exists e, strptime_fractional (timestamp ex_data_undated) = inl e)
    by (eexists; reflexivity).
  assert (Hw' : exists e, strptime_whole (timestamp ex_data_undated) = inl e)
    by (eexists; reflexivity).
  split; [eexists; exact Hf|]. split; [exact Hw|]. split.
  - destruct (ingest_raises_iff ex_monitor2 ex_data3) as (_ & _ & _ & _ & Hfall).
    exact (Hfall _ _ Hf Hw).
  - split; [exact Hf'|]. split; [exact Hw'|].
    destruct (ingest_raises_iff ex_monitor2 ex_data_undated) as (_ & Hiff & _).
    apply Hiff. split; [exact Hf'|exact Hw'].
Defined.

(** ** Nothing is removed *)

Lemma offer_prefix (c : option alert) (als : list alert) :
  als `prefix_of` offer c als /\ (length (offer c als) <= S (length als))%nat.
Proof.
  destruct c as [a|]; simpl.
  - destruct (add_alert_cases a als) as [-> | ->].
    + split; [reflexivity|lia].
    + split; [apply prefix_app_r; reflexivity|rewrite length_app; simpl; lia].
  - split; [reflexivity|lia].
Qed.

Lemma extends_refl (m : monitor) : extends m m.
Proof. split; reflexivity. Qed.

Lemma extends_trans (m1 m2 m3 : monitor) :
  extends m1 m2 -> extends m2 m3 -> extends m1 m3.
Proof.
  intros [H1 A1] [H2 A2]. split.
  - intros k. etransitivity; [apply H1|apply H2].
  - etransitivity; eassumption.
Qed.

Lemma process_telemetry_extends (m m' : monitor) (data : telemetry) :
  process_telemetry m data = inr m' ->
  extends m m' /\
  length (history m' (key_of data)) = S (length (history m (key_of data))) /\
  (forall k, k <> key_of data -> history m' k = history m k) /\
  (length (alerts m') <= S (length (alerts m)))%nat.
Proof.
  intros Hrun.
  destruct (parse_timestamp (timestamp data)) as [e|ts] eqn:Hts.
  { rewrite (process_telemetry_raises _ _ _ Hts) in Hrun. discriminate. }
  rewrite (process_telemetry_offer _ _ _ Hts) in Hrun.
  assert (Hm' : m' = mk_monitor (readings (appended m data ts))
                       (offer (candidate (key_of data)
                                 (history m (key_of data) ++ [reading_of data ts]))
                              (alerts m))) by congruence.
  clear Hrun. subst m'.
  destruct (offer_prefix (candidate (key_of data)
              (history m (key_of data) ++ [reading_of data ts])) (alerts m)) as [Hp Hl].
  assert (Hkey : forall als,
             history (mk_monitor (readings (appended m data ts)) als) (key_of data)
             = history m (key_of data) ++ [reading_of data ts])
    by (intros als; apply history_appended).
  split; [split|split; [|split]].
  - intros k. destruct (decide (k = key_of data)) as [->|Hne].
    + rewrite Hkey. apply prefix_app_r. reflexivity.
    + rewrite history_appended_ne by exact Hne. reflexivity.
  - exact Hp.
  - rewrite Hkey, length_app. simpl. lia.
  - intros k Hne. apply history_appended_ne. exact Hne.
  - exact Hl.
Qed.

Section Growth.

Variable builtin_int : string -> option Z.
Variable builtin_float : string -> option spec_float.

(** Histories and alert list only grow at their end: what
    [process_telemetry] returns extends the monitor it was given, with one
    more reading for the key of the record, the other histories as they
    were and at most one more alert; a run of [process_file] extends the
    monitor it started from and adds at most one alert per line that is not
    blank. *)
Theorem monitor_append_only (m m' : monitor) :
  (forall data, process_telemetry m data = inr m' ->
     extends m m' /\
     length (history m' (key_of data)) = S (length (history m (key_of data))) /\
     (forall k, k <> key_of data -> history m' k = history m k) /\
     (length (alerts m') <= S (length (alerts m)))%nat) /\
  (forall lines, process_file builtin_int builtin_float m lines = inr m' ->
     extends m m' /\
     (length (alerts m')
      <= length (alerts m) + length (List.filter non_blank lines))%nat).
Proof.
  split; [intros data; apply process_telemetry_extends|].
  intros lines. revert m. induction lines as [|line rest IH]; intros m Hrun.
  - simpl in Hrun. injection Hrun as <-. split; [apply extends_refl|simpl; lia].
  - simpl in Hrun. simpl List.filter. unfold non_blank at 1.
    destruct (PyStr.is_empty (PyStr.strip line)); simpl.
    + apply IH. exact Hrun.
    + destruct (parse_line builtin_int builtin_float line) as [e|data]; [discriminate|].
      simpl in Hrun.
      destruct (process_telemetry m data) as [e|m1] eqn:Hstep; [discriminate|].
      simpl in Hrun. destruct (IH m1 Hrun) as [Hext Hlen].
      destruct (process_telemetry_extends _ _ _ Hstep) as (Hext1 & _ & _ & Hlen1).
      split; [eapply extends_trans; eassumption|]. simpl. lia.
Qed.

End Growth.

Lemma monitor_append_only_witness :
  exists m',
    process_telemetry ex_monitor2 ex_data3 = inr m' /\
    extends ex_monitor2 m' /\
    length (history m' (7, "BATT")) = 3%nat.
Proof.
  destruct (process_telemetry ex_monitor2 ex_data3) as [e|m'] eqn:Hrun.
  { vm_compute in Hrun. discriminate. }
  exists m'. split; [reflexivity|].
  destruct (proj1 (monitor_append_only int_decimal float_decimal ex_monitor2 m')
              ex_data3 Hrun) as (Hext & Hlen & _).
  split; [exact Hext|exact Hlen].
Defined.

(** ** Every alert is backed by three violating readings *)

Lemma filter_sublist {A : Type} (f : A -> bool) (l : list A) :
  List.filter f l `sublist_of` l.
Proof.
  induction l as [|x l IH]; simpl; [constructor|].
  destruct (f x); [apply sublist_skip|apply sublist_cons]; exact IH.
Qed.

Lemma first_cluster_Some (vs : list reading) (indices : list nat) (r1 : reading) :
  first_cluster vs indices = Some r1 ->
  exists i, i ∈ indices /\ vs !! i = Some r1 /\ qualifies vs i = true.
Proof.
  unfold first_cluster.
  destruct (List.find (qualifies vs) indices) as [i|] eqn:E; [|discriminate].
  apply List.find_some in E. destruct E as [Hin Hq].
  intros H. exists i. split; [apply list_elem_of_In; exact Hin|]. auto.
Qed.

Lemma qualifies_triple (vs : list reading) (i : nat) :
  qualifies vs i = true ->
  exists r1 r2 r3,
    vs !! i = Some r1 /\ vs !! (i + 1)%nat = Some r2 /\
    vs !! (i + 2)%nat = Some r3 /\ within_window r1 r3 = true.
Proof.
  unfold qualifies.
  destruct (vs !! i) as [r1|] eqn:H1; [|discriminate].
  destruct (vs !! (i + 2)%nat) as [r3|] eqn:H3; [|discriminate].
  intros Hw.
  destruct (lookup_lt_is_Some_2 vs (i + 1)%nat) as [r2 H2].
  { apply lookup_lt_Some in H3. lia. }
  exists r1, r2, r3. auto.
Qed.

Lemma triple_sublist {A : Type} (l : list A) (i : nat) (x y z : A) :
  l !! i = Some x -> l !! (i + 1)%nat = Some y -> l !! (i + 2)%nat = Some z ->
  [x; y; z] `sublist_of` l.
Proof.
  intros Hx Hy Hz. rewrite <- (take_drop i l).
  apply sublist_inserts_l.
  rewrite (drop_S _ _ _ Hx).
  replace (S i) with (i + 1)%nat by lia. rewrite (drop_S _ _ _ Hy).
  replace (S (i + 1)) with (i + 2)%nat by lia. rewrite (drop_S _ _ _ Hz).
  do 3 apply sublist_skip. apply sublist_nil_l.
Qed.

Lemma cluster_alert_sound sat sev comp (vs : list reading) (a : alert) :
  cluster_alert sat sev comp vs = Some a ->
  exists r1 r2 r3,
    [r1; r2; r3] ⊆+ vs /\
    dt_le (r_timestamp r1) (r_timestamp r2) /\
    dt_le (r_timestamp r2) (r_timestamp r3) /\
    within_window r1 r3 = true /\
    a = alert_for sat sev comp r1.
Proof.
  unfold cluster_alert. destruct (3 <=? length vs)%nat; [|discriminate].
  destruct (first_cluster _ _) as [r1|] eqn:E; [|discriminate].
  intros [= <-].
  apply first_cluster_Some in E. destruct E as (i & _ & H1 & Hq).
  apply qualifies_triple in Hq. destruct Hq as (r1' & r2 & r3 & H1' & H2 & H3 & Hw).
  rewrite H1 in H1'. injection H1' as <-.
  exists r1, r2, r3. split; [|split; [|split; [|split]]].
  - rewrite (sort_by_timestamp_perm vs).
    apply sublist_submseteq. eapply triple_sublist; eassumption.
  - eapply (ascending_lookup _ i (i + 1)); [apply sort_by_timestamp_ascending|lia|eassumption..].
  - eapply (ascending_lookup _ (i + 1) (i + 2)); [apply sort_by_timestamp_ascending|lia|eassumption..].
  - exact Hw.
  - reflexivity.
Qed.

Lemma candidate_sound (key : Z * string) (hist : list reading) (a : alert) :
  candidate key hist = Some a ->
  a_satelliteId a = key.1 /\ a_component a = key.2 /\
  exists violates r1 r2 r3,
    violation_rule key.2 = Some (violates, severity a) /\
    [r1; r2; r3] ⊆+ hist /\
    violates r1 = true /\ violates r2 = true /\ violates r3 = true /\
    a_timestamp a = original_timestamp r1 /\
    dt_le (r_timestamp r1) (r_timestamp r2) /\
    dt_le (r_timestamp r2) (r_timestamp r3) /\
    within_window r1 r3 = true.
Proof.
  unfold candidate.
  destruct (violation_rule key.2) as [[violates sev]|] eqn:Hrule; [|discriminate].
  intros Hc. apply cluster_alert_sound in Hc.
  destruct Hc as (r1 & r2 & r3 & Hsub & H12 & H23 & Hw & ->).
  split; [reflexivity|]. split; [reflexivity|].
  exists violates, r1, r2, r3. simpl.
  assert (Hall : forall r, r ∈ [r1; r2; r3] -> r ∈ hist /\ violates r = true).
  { intros r Hr. eapply elem_of_submseteq in Hr; [|exact Hsub].
    apply list_elem_of_In, List.filter_In in Hr. destruct Hr as [Hin Hv].
    split; [apply list_elem_of_In; exact Hin|exact Hv]. }
  split; [reflexivity|]. split.
  { etransitivity; [exact Hsub|]. apply sublist_submseteq, filter_sublist. }
  split; [apply Hall, list_elem_of_In; simpl; auto|].
  split; [apply Hall, list_elem_of_In; simpl; auto|].
  split; [apply Hall, list_elem_of_In; simpl; auto|]. auto.
Qed.

Lemma justified_extends (m m' : monitor) (a : alert) :
  extends m m' -> justified m a -> justified m' a.
Proof.
  intros [Hext _] (violates & r1 & r2 & r3 & Hrule & Hsub & H).
  exists violates, r1, r2, r3. split; [exact Hrule|]. split; [|exact H].
  destruct (Hext (a_satelliteId a, a_component a)) as [k ->].
  apply submseteq_inserts_r. exact Hsub.
Qed.

Lemma reachable_justified (m : monitor) :
  reachable m -> forall a, a ∈ alerts m -> justified m a.
Proof.
  induction 1 as [|m m' data Hm IH Hstep]; intros a Ha.
  - simpl in Ha. apply elem_of_nil in Ha. contradiction.
  - pose proof (process_telemetry_extends _ _ _ Hstep) as (Hext & _).
    destruct (parse_timestamp (timestamp data)) as [e|ts] eqn:Hts.
    { rewrite (process_telemetry_raises _ _ _ Hts) in Hstep. discriminate. }
    rewrite (process_telemetry_offer _ _ _ Hts) in Hstep.
    assert (Hals : alerts m' = offer (candidate (key_of data)
                     (history m (key_of data) ++ [reading_of data ts])) (alerts m))
      by (injection Hstep as <-; reflexivity).
    assert (Hhist : history m' (key_of data)
                    = history m (key_of data) ++ [reading_of data ts])
      by (injection Hstep as <-; apply history_appended).
    rewrite Hals in Ha.
    destruct (candidate _ _) as [c|] eqn:Hc; simpl in Ha.
    + apply elem_of_add_alert in Ha. destruct Ha as [Ha| ->].
      * eapply justified_extends; [exact Hext|]. apply IH. exact Ha.
      * apply candidate_sound in Hc.
        destruct Hc as (Hsat & Hcomp & violates & r1 & r2 & r3 & Hrule & Hsub & H).
        exists violates, r1, r2, r3. rewrite Hsat, Hcomp.
        split; [exact Hrule|]. split; [|exact H].
        change (key_of data).1 with (satelliteId data).
        change (key_of data).2 with (component data).
        fold (key_of data). rewrite Hhist. exact Hsub.
    + eapply justified_extends; [exact Hext|]. apply IH. exact Ha.
Qed.

Lemma reachable_valid (m : monitor) (key : Z * string) (r : reading) :
  reachable m -> r ∈ history m key -> valid (r_timestamp r) = true.
Proof.
  intros Hm Hr. eapply parse_timestamp_valid.
  apply (proj1 (reachable_timestamps m Hm) key r Hr).
Qed.

(** No false alerts: in every state the monitor reaches, each alert stands
    for three entries of the history of its key that violate the rule of
    its component, the severity being the one of that rule; the alert
    carries the timestamp text of the earliest of the three, and the three
    points in time lie within 300000000 microseconds. *)
Theorem alert_soundness (m : monitor) (a : alert) :
  reachable m -> a ∈ alerts m ->
  exists (violates : reading -> bool) (r1 r2 r3 : reading),
    violation_rule (a_component a) = Some (violates, severity a) /\
    [r1; r2; r3] ⊆+ history m (a_satelliteId a, a_component a) /\
    violates r1 = true /\ violates r2 = true /\ violates r3 = true /\
    a_timestamp a = original_timestamp r1 /\
    abs_microseconds (r_timestamp r1) <= abs_microseconds (r_timestamp r2) /\
    abs_microseconds (r_timestamp r2) <= abs_microseconds (r_timestamp r3) /\
    abs_microseconds (r_timestamp r3) - abs_microseconds (r_timestamp r1)
    <= 300000000.
Proof.
  intros Hm Ha.
  destruct (reachable_justified m Hm a Ha)
    as (violates & r1 & r2 & r3 & Hrule & Hsub & Hv1 & Hv2 & Hv3 & Hts & H12 & H23 & Hw).
  assert (Hvalid : forall r, r ∈ [r1; r2; r3] -> valid (r_timestamp r) = true).
  { intros r Hr. eapply reachable_valid; [exact Hm|].
    eapply elem_of_submseteq; eassumption. }
  exists violates, r1, r2, r3.
  repeat (split; [assumption|]).
  split; [|split].
  - apply dt_le_chronological;
      [apply Hvalid, list_elem_of_In; simpl; auto..|exact H12].
  - apply dt_le_chronological;
      [apply Hvalid, list_elem_of_In; simpl; auto..|exact H23].
  - apply within_window_iff. exact Hw.
Qed.

Lemma alert_soundness_witness :
  exists (m : monitor) (a : alert),
    reachable m /\ a ∈ alerts m /\
    exists r1 r2 r3,
      [r1; r2; r3] ⊆+ history m (a_satelliteId a, a_component a) /\
      a_timestamp a = original_timestamp r1 /\
      abs_microseconds (r_timestamp r3) - abs_microseconds (r_timestamp r1)
      <= 300000000.
Proof.
  destruct (process_file int_decimal float_decimal init ex_scenario_battery)
    as [e|m] eqn:Hrun.
  { vm_compute in Hrun. discriminate. }
  assert (Hm : reachable m)
    by (eapply process_file_reachable; [apply reachable_init|exact Hrun]).
  assert (Ha : mk_alert 7 "RED LOW" "BATT" "20240101 00:00:00.000" ∈ alerts m).
  { vm_compute in Hrun. injection Hrun as <-. simpl. left. }
  exists m, (mk_alert 7 "RED LOW" "BATT" "20240101 00:00:00.000").
  split; [exact Hm|]. split; [exact Ha|].
  destruct (alert_soundness m _ Hm Ha)
    as (violates & r1 & r2 & r3 & _ & Hsub & _ & _ & _ & Hts & _ & _ & Hw).
  exists r1, r2, r3. auto.
Defined.

(** ** Three violating readings within the window always alert *)

Lemma filter_Permutation {A : Type} (f : A -> bool) (l1 l2 : list A) :
  l1 ≡ₚ l2 -> List.filter f l1 ≡ₚ List.filter f l2.
Proof.
  induction 1 as [|x l1 l2 _ IH|x y l|l1 l2 l3 _ IH1 _ IH2]; simpl.
  - reflexivity.
  - destruct (f x); [apply perm_skip|]; exact IH.
  - destruct (f x), (f y); try reflexivity. apply perm_swap.
  - etransitivity; eassumption.
Qed.

Lemma filter_all {A : Type} (f : A -> bool) (l : list A) :
  (forall x, x ∈ l -> f x = true) -> List.filter f l = l.
Proof.
  induction l as [|x l IH]; intros H; simpl; [reflexivity|].
  rewrite (H x) by left. f_equal. apply IH. intros y Hy. apply H. right. exact Hy.
Qed.

Lemma submseteq_filter {A : Type} (f : A -> bool) (l h : list A) :
  l ⊆+ h -> (forall x, x ∈ l -> f x = true) -> l ⊆+ List.filter f h.
Proof.
  intros Hsub Hall. apply submseteq_Permutation in Hsub. destruct Hsub as [k Hk].
  rewrite (filter_Permutation f _ _ Hk), List.filter_app, (filter_all f l Hall).
  apply submseteq_inserts_r. reflexivity.
Qed.

Lemma find_qualifying (vs : list reading) (indices : list nat) (p : nat) :
  p ∈ indices -> qualifies vs p = true ->
  exists r1, r1 ∈ vs /\ first_cluster vs indices = Some r1.
Proof.
  intros Hp Hq. unfold first_cluster.
  destruct (List.find (qualifies vs) indices) as [i|] eqn:E.
  - apply List.find_some in E. destruct E as [_ Hi].
    destruct (qualifies_triple vs i Hi) as (r1 & _ & _ & H1 & _).
    exists r1. split; [|exact H1]. apply list_elem_of_lookup. eauto.
  - apply List.find_none with (x := p) in E; [congruence|].
    apply list_elem_of_In. exact Hp.
Qed.

(** In a list in ascending order three entries within the window, wherever
    they stand, make the index of the first of them qualify. *)
Lemma ascending_triple_qualifies (vs : list reading) (a b c : reading) :
  ascending vs ->
  (forall r, r ∈ vs -> valid (r_timestamp r) = true) ->
  [a; b; c] `sublist_of` vs ->
  abs_microseconds (r_timestamp c) - abs_microseconds (r_timestamp a) <= 300000000 ->
  exists p, (p + 2 < length vs)%nat /\ qualifies vs p = true.
Proof.
  intros Hasc Hvalid Hsub Hspan.
  apply sublist_cons_l in Hsub. destruct Hsub as (k1 & k2 & -> & Hsub).
  apply sublist_cons_l in Hsub. destruct Hsub as (k3 & k4 & -> & Hsub).
  apply sublist_cons_l in Hsub. destruct Hsub as (k5 & k6 & -> & _).
  set (vs := k1 ++ a :: k3 ++ b :: k5 ++ c :: k6) in *.
  set (p := length k1). set (r := (p + 1 + length k3 + 1 + length k5)%nat).
  assert (Ha : vs !! p = Some a).
  { unfold vs, p. rewrite lookup_app_r by lia. rewrite Nat.sub_diag. reflexivity. }
  assert (Hc : vs !! r = Some c).
  { unfold vs, r, p. rewrite lookup_app_r by lia.
    replace (length k1 + 1 + length k3 + 1 + length k5 - length k1)%nat
      with (S (length k3 + S (length k5)))%nat by lia.
    simpl. rewrite lookup_app_r by lia.
    replace (length k3 + S (length k5) - length k3)%nat with (S (length k5)) by lia.
    simpl. rewrite lookup_app_r by lia. rewrite Nat.sub_diag. reflexivity. }
  assert (Hr : (r < length vs)%nat) by (apply lookup_lt_Some in Hc; exact Hc).
  destruct (lookup_lt_is_Some_2 vs (p + 2)%nat ltac:(unfold r in Hr; lia)) as [w Hw].
  exists p. split; [unfold r in Hr; lia|].
  unfold qualifies. rewrite Ha, Hw. apply within_window_iff.
  assert (Hwc : abs_microseconds (r_timestamp w) <= abs_microseconds (r_timestamp c)).
  { destruct (decide (p + 2 = r)%nat) as [Heq|Hne].
    - rewrite Heq, Hc in Hw. injection Hw as <-. lia.
    - apply dt_le_chronological.
      + apply Hvalid, list_elem_of_lookup. eauto.
      + apply Hvalid, list_elem_of_lookup. eauto.
      + apply (ascending_lookup vs (p + 2) r); [exact Hasc|unfold r in *; lia|exact Hw|exact Hc]. }
  lia.
Qed.

Lemma cluster_alert_complete sat sev comp (vs : list reading) (x y z : reading) :
  (forall r, r ∈ vs -> valid (r_timestamp r) = true) ->
  [x; y; z] ⊆+ vs ->
  (forall u v, u ∈ [x; y; z] -> v ∈ [x; y; z] ->
     abs_microseconds (r_timestamp v) - abs_microseconds (r_timestamp u) <= 300000000) ->
  exists r1, r1 ∈ vs /\
    cluster_alert sat sev comp vs = Some (alert_for sat sev comp r1).
Proof.
  intros Hvalid Hsub Hspan.
  pose proof (submseteq_length _ _ Hsub) as Hlen. simpl in Hlen.
  rewrite (sort_by_timestamp_perm vs) in Hsub.
  apply submseteq_sublist_r in Hsub. destruct Hsub as (l2 & Hperm & Hsl).
  pose proof (Permutation_length Hperm) as Hl2.
  destruct l2 as [|a [|b [|c [|? ?]]]]; try discriminate Hl2.
  assert (Hin : forall u, u ∈ [a; b; c] -> u ∈ [x; y; z])
    by (intros u Hu; rewrite Hperm; exact Hu).
  destruct (ascending_triple_qualifies (sort_by_timestamp vs) a b c) as (p & Hp & Hq).
  - apply sort_by_timestamp_ascending.
  - intros r Hr. apply Hvalid, sort_by_timestamp_elem. exact Hr.
  - exact Hsl.
  - apply Hspan; apply Hin, list_elem_of_In; simpl; auto.
  - rewrite sort_by_timestamp_length in Hp.
    destruct (find_qualifying (sort_by_timestamp vs) (range (length vs - 2)) p)
      as (r1 & Hr1 & Hfind).
    + unfold range. apply elem_of_seq. lia.
    + exact Hq.
    + exists r1. split; [apply sort_by_timestamp_elem; exact Hr1|].
      unfold cluster_alert. destruct (Nat.leb_spec 3 (length vs)); [|lia].
      rewrite Hfind. reflexivity.
Qed.



(** ** The alert list is always up to date *)

Lemma elem_of_offer (c : option alert) (als : list alert) (b : alert) :
  b ∈ offer c als <-> b ∈ als \/ c = Some b.
Proof.
  destruct c as [a|]; simpl.
  - rewrite elem_of_add_alert. split; intros [H|H]; auto; [subst; auto|].
    injection H as ->. auto.
  - split; [auto|]. intros [H|H]; [exact H|discriminate].
Qed.

Lemma offer_present (c : option alert) (als : list alert) :
  (forall a, c = Some a -> a ∈ als) -> offer c als = als.
Proof.
  destruct c as [a|]; simpl; [|reflexivity].
  intros H. apply add_alert_present, H. reflexivity.
Qed.

Lemma offer_idempotent (c : option alert) (als : list alert) :
  offer c (offer c als) = offer c als.
Proof.
  apply offer_present. intros a ->. apply elem_of_offer. right. reflexivity.
Qed.

Lemma history_lookup (m : monitor) (key : Z * string) (l : list reading) :
  readings m !! key = Some l -> history m key = l.
Proof. unfold history. intros ->. reflexivity. Qed.

(** In every state the monitor reaches, every key with a history already
    has the alert its history calls for. *)
Lemma reachable_saturated (m : monitor) :
  reachable m ->
  forall key a, candidate key (history m key) = Some a -> a ∈ alerts m.
Proof.
  induction 1 as [|m m' data Hm IH Hstep]; intros key a Hc.
  - unfold history, init in Hc. simpl in Hc. rewrite lookup_empty in Hc.
    unfold candidate in Hc. simpl in Hc.
    destruct (violation_rule key.2) as [[violates sev]|]; discriminate.
  - destruct (parse_timestamp (timestamp data)) as [e|ts] eqn:Hts.
    { rewrite (process_telemetry_raises _ _ _ Hts) in Hstep. discriminate. }
    rewrite (process_telemetry_offer _ _ _ Hts) in Hstep.
    assert (Hm' : m' = mk_monitor (readings (appended m data ts))
                         (offer (candidate (key_of data)
                                   (history m (key_of data) ++ [reading_of data ts]))
                                (alerts m))) by congruence.
    clear Hstep. subst m'. simpl. apply elem_of_offer.
    destruct (decide (key = key_of data)) as [->|Hne].
    + unfold key_of in Hc. rewrite history_appended in Hc. right. exact Hc.
    + rewrite history_appended_ne in Hc by exact Hne. left. eapply IH. exact Hc.
Qed.

(** Checking again changes nothing: in every state the monitor reaches,
    [check_violations] on any key returns with the alert list as it was,
    and, when the key has a history, with the very same monitor. *)
Theorem recheck_is_noop (m : monitor) (key : Z * string) :
  reachable m ->
  (exists m', check_violations m key = inr m' /\ alerts m' = alerts m) /\
  (forall l, readings m !! key = Some l -> check_violations m key = inr m).
Proof.
  intros Hm.
  assert (Hoffer : offer (candidate key (history m key)) (alerts m) = alerts m).
  { apply offer_present. intros a Ha. eapply reachable_saturated; eassumption. }
  split.
  - eexists. split; [apply check_violations_any|]. simpl. exact Hoffer.
  - intros l Hl. rewrite (check_violations_offer _ _ _ Hl).
    rewrite <- (history_lookup _ _ _ Hl), Hoffer. destruct m; reflexivity.
Qed.

Lemma recheck_is_noop_witness :
  exists m,
    reachable m /\ alerts m <> [] /\
    exists l, readings m !! (7, "BATT") = Some l /\
      check_violations m (7, "BATT") = inr m.
Proof.
  destruct (process_file int_decimal float_decimal init ex_scenario_battery)
    as [e|m] eqn:Hrun.
  { vm_compute in Hrun. discriminate. }
  assert (Hm : reachable m)
    by (eapply process_file_reachable; [apply reachable_init|exact Hrun]).
  assert (Hals : alerts m <> []).
  { vm_compute in Hrun. injection Hrun as <-. discriminate. }
  destruct (readings m !! (7, "BATT")) as [l|] eqn:Hl.
  2:{ vm_compute in Hrun. injection Hrun as <-. vm_compute in Hl. discriminate. }
  exists m. split; [exact Hm|]. split; [exact Hals|].
  exists l. split; [exact Hl|].
  exact (proj2 (recheck_is_noop m (7, "BATT") Hm) l Hl).
Defined.

(** ** Keys are independent *)

Lemma add_alert_comm (a b : alert) (als : list alert) :
  add_alert a (add_alert b als) ≡ₚ add_alert b (add_alert a als).
Proof.
  destruct (decide (a = b)) as [->|Hab]; [reflexivity|].
  destruct (decide (b ∈ als)) as [Hb|Hb], (decide (a ∈ als)) as [Ha|Ha].
  - rewrite (add_alert_present b als Hb), (add_alert_present a als Ha).
    rewrite (add_alert_present b als Hb). reflexivity.
  - rewrite (add_alert_present b als Hb), (add_alert_new a als Ha).
    rewrite (add_alert_present b) by (apply elem_of_app; auto). reflexivity.
  - rewrite (add_alert_present a als Ha), (add_alert_new b als Hb).
    rewrite (add_alert_present a) by (apply elem_of_app; auto). reflexivity.
  - rewrite (add_alert_new b als Hb), (add_alert_new a als Ha).
    rewrite (add_alert_new a), (add_alert_new b).
    + rewrite <- !app_assoc. apply Permutation_app_head. apply perm_swap.
    + rewrite elem_of_app, list_elem_of_singleton. intros [?|?]; congruence.
    + rewrite elem_of_app, list_elem_of_singleton. intros [?|?]; congruence.
Qed.

Lemma offer_comm (c1 c2 : option alert) (als : list alert) :
  offer c1 (offer c2 als) ≡ₚ offer c2 (offer c1 als).
Proof.
  destruct c1 as [a|], c2 as [b|]; simpl; try reflexivity. apply add_alert_comm.
Qed.

(** Records of different keys can be ingested in either order: both orders
    return, with the same histories and the same alerts up to their order
    in the alert list. *)
Theorem ingest_commutes (m : monitor) (d1 d2 : telemetry) (t1 t2 : datetime) :
  key_of d1 <> key_of d2 ->
  parse_timestamp (timestamp d1) = inr t1 ->
  parse_timestamp (timestamp d2) = inr t2 ->
  exists m12 m21,
    (process_telemetry m d1 ≫= fun m1 => process_telemetry m1 d2) = inr m12 /\
    (process_telemetry m d2 ≫= fun m2 => process_telemetry m2 d1) = inr m21 /\
    readings m12 = readings m21 /\
    alerts m12 ≡ₚ alerts m21.
Proof.
  intros Hne H1 H2.
  rewrite (process_telemetry_offer m d1 t1 H1), (process_telemetry_offer m d2 t2 H2).
  rewrite !py_bind_inr.
  rewrite (process_telemetry_offer _ d2 t2 H2), (process_telemetry_offer _ d1 t1 H1).
  do 2 eexists. split; [reflexivity|]. split; [reflexivity|].
  unfold appended, history, key_of in *. cbn [readings alerts].
  rewrite !lookup_insert_ne by congruence.
  split.
  - apply insert_insert_ne. congruence.
  - apply offer_comm.
Qed.

Lemma ingest_commutes_witness :
  key_of ex_data3 <> key_of ex_data_tstat /\
  exists m12 m21,
    (process_telemetry ex_monitor2 ex_data3
       ≫= fun m1 => process_telemetry m1 ex_data_tstat) = inr m12 /\
    (process_telemetry ex_monitor2 ex_data_tstat
       ≫= fun m2 => process_telemetry m2 ex_data3) = inr m21 /\
    readings m12 = readings m21 /\ alerts m12 ≡ₚ alerts m21.
Proof.
  assert (Hne : key_of ex_data3 <> key_of ex_data_tstat) by discriminate.
  split; [exact Hne|].
  apply (ingest_commutes ex_monitor2 ex_data3 ex_data_tstat
           (r_timestamp ex_r3) (mk_datetime 2024 1 1 0 5 0 250000) Hne);
    reflexivity.
Defined.

(** ** Values that are not numbers *)

Lemma cluster_alert_nil sat sev comp : cluster_alert sat sev comp [] = None.
Proof. reflexivity. Qed.

Lemma filter_none {A : Type} (f : A -> bool) (l : list A) :
  (forall x, x ∈ l -> f x = false) -> List.filter f l = [].
Proof.
  induction l as [|x l IH]; intros H; simpl; [reflexivity|].
  rewrite (H x) by left. apply IH. intros y Hy. apply H. right. exact Hy.
Qed.

(** A reading whose value or limit is not a number violates neither rule,
    no reading violates both rules, and a history made of such readings
    calls for no alert, whatever the key. *)
Theorem nan_never_violates (r : reading) :
  (value r = S754_nan \/ limit r = S754_nan ->
     exceeds_limit r = false /\ below_limit r = false) /\
  ~ (exceeds_limit r = true /\ below_limit r = true) /\
  (forall (key : Z * string) (hist : list reading),
     (forall x, x ∈ hist -> value x = S754_nan \/ limit x = S754_nan) ->
     candidate key hist = None).
Proof.
  assert (Hnan : forall x : reading,
             value x = S754_nan \/ limit x = S754_nan ->
             exceeds_limit x = false /\ below_limit x = false).
  { intros x [H|H]; unfold exceeds_limit, below_limit, SFltb; rewrite H;
      destruct (limit x), (value x); split; reflexivity. }
  split; [apply Hnan|]. split.
  - intros [He Hb]. apply exceeds_limit_iff in He. apply below_limit_iff in Hb.
    congruence.
  - intros key hist Hall. unfold candidate.
    destruct (violation_rule key.2) as [[violates sev]|] eqn:Hrule; [|reflexivity].
    rewrite filter_none; [apply cluster_alert_nil|].
    intros x Hx. destruct (Hnan x (Hall x Hx)) as [He Hb].
    unfold violation_rule in Hrule.
    destruct (String.eqb key.2 "TSTAT"); [injection Hrule as <- _; exact He|].
    destruct (String.eqb key.2 "BATT"); [injection Hrule as <- _; exact Hb|discriminate].
Qed.

Lemma nan_never_violates_witness :
  let r := mk_reading (mk_datetime 2024 1 1 0 0 0 0) S754_nan (lit "20")
                      "20240101 00:00:00" in
  exceeds_limit r = false /\ below_limit r = false /\
  candidate (7, "BATT") [r; r; r] = None.
Proof.
  intros r. destruct (nan_never_violates r) as (Hr & _ & Hhist).
  destruct (Hr (or_introl eq_refl)) as [He Hb].
  split; [exact He|]. split; [exact Hb|].
  apply Hhist. intros x Hx. apply list_elem_of_In in Hx. simpl in Hx.
  destruct Hx as [<-|[<-|[<-|[]]]]; left; reflexivity.
Defined.

(** ** Runs compose *)

Section Composition.

Variable builtin_int : string -> option Z.
Variable builtin_float : string -> option spec_float.

Lemma process_file_app (m : monitor) (l1 l2 : list string) :
  process_file builtin_int builtin_float m (l1 ++ l2)
  = (process_file builtin_int builtin_float m l1
       ≫= fun m1 => process_file builtin_int builtin_float m1 l2).
Proof.
  revert m. induction l1 as [|line rest IH]; intros m; [reflexivity|].
  simpl. destruct (PyStr.is_empty (PyStr.strip line)); [apply IH|].
  destruct (parse_line builtin_int builtin_float line) as [e|data]; [reflexivity|].
  simpl. destruct (process_telemetry m data) as [e|m1]; [reflexivity|].
  simpl. apply IH.
Qed.

Lemma process_file_non_blank (m : monitor) (lines : list string) :
  process_file builtin_int builtin_float m lines
  = process_file builtin_int builtin_float m (List.filter non_blank lines).
Proof.
  revert m. induction lines as [|line rest IH]; intros m; [reflexivity|].
  simpl. unfold non_blank at 1.
  destruct (PyStr.is_empty (PyStr.strip line)) eqn:E; simpl; [apply IH|].
  rewrite E.
  destruct (parse_line builtin_int builtin_float line) as [e|data]; [reflexivity|].
  simpl. destruct (process_telemetry m data) as [e|m1]; [reflexivity|].
  simpl. apply IH.
Qed.

(** Processing the lines of a file is processing a first part and then,
    from the monitor reached, the rest (an exception in the first part
    ending the run); lines that are empty or white space can be left out;
    and a run that returns has parsed and ingested every other line. *)
Theorem process_file_composes (m : monitor) (l1 l2 : list string) :
  process_file builtin_int builtin_float m (l1 ++ l2)
  = (process_file builtin_int builtin_float m l1
       ≫= fun m1 => process_file builtin_int builtin_float m1 l2) /\
  process_file builtin_int builtin_float m l1
  = process_file builtin_int builtin_float m (List.filter non_blank l1) /\
  (forall m', process_file builtin_int builtin_float m l1 = inr m' ->
     forall line, line ∈ l1 -> non_blank line = true ->
       exists data ts,
         parse_line builtin_int builtin_float line = inr data /\
         parse_timestamp (timestamp data) = inr ts /\
         reading_of data ts ∈ history m' (key_of data)).
Proof.
  split; [apply process_file_app|]. split; [apply process_file_non_blank|].
  revert m. induction l1 as [|l rest IH]; intros m m' Hrun line Hin Hnb.
  - apply elem_of_nil in Hin. contradiction.
  - simpl in Hrun. apply elem_of_cons in Hin.
    destruct (PyStr.is_empty (PyStr.strip l)) eqn:E.
    + destruct Hin as [->|Hin]; [|eapply IH; eassumption].
      unfold non_blank in Hnb. rewrite E in Hnb. discriminate.
    + destruct (parse_line builtin_int builtin_float l) as [e|data] eqn:Hl; [discriminate|].
      simpl in Hrun.
      destruct (process_telemetry m data) as [e|m1] eqn:Hstep; [discriminate|].
      simpl in Hrun. destruct Hin as [->|Hin]; [|eapply IH; eassumption].
      destruct (parse_timestamp (timestamp data)) as [e|ts] eqn:Hts.
      { rewrite (process_telemetry_raises _ _ _ Hts) in Hstep. discriminate. }
      exists data, ts. split; [exact Hl|]. split; [exact Hts|].
      assert (Hext : extends m1 m').
      { clear - Hrun. revert m1 Hrun. induction rest as [|x rest IHr]; intros m1 Hrun.
        - simpl in Hrun. injection Hrun as <-. apply extends_refl.
        - simpl in Hrun.
          destruct (PyStr.is_empty (PyStr.strip x)); [apply IHr; exact Hrun|].
          destruct (parse_line builtin_int builtin_float x) as [e|d]; [discriminate|].
          simpl in Hrun.
          destruct (process_telemetry m1 d) as [e|m2] eqn:Hs; [discriminate|].
          simpl in Hrun. eapply extends_trans; [|apply IHr; exact Hrun].
          apply (process_telemetry_extends _ _ _ Hs). }
      destruct (proj1 Hext (key_of data)) as [k Hk]. rewrite Hk.
      apply elem_of_app. left.
      rewrite (process_telemetry_offer _ _ _ Hts) in Hstep.
      assert (Hh : history m1 (key_of data)
                   = history m (key_of data) ++ [reading_of data ts])
        by (injection Hstep as <-; apply history_appended).
      rewrite Hh. apply elem_of_app. right. left.
Qed.

End Composition.

Lemma process_file_composes_witness :
  exists m',
    process_file int_decimal float_decimal init ex_scenario_battery = inr m' /\
    exists data ts,
      parse_line int_decimal float_decimal ex_line2 = inr data /\
      parse_timestamp (timestamp data) = inr ts /\
      reading_of data ts ∈ history m' (key_of data).
Proof.
  destruct (process_file int_decimal float_decimal init ex_scenario_battery)
    as [e|m'] eqn:Hrun.
  { vm_compute in Hrun. discriminate. }
  exists m'. split; [reflexivity|].
  apply (proj2 (proj2 (process_file_composes int_decimal float_decimal init
                         ex_scenario_battery [])) m' Hrun ex_line2).
  - right. left.
  - reflexivity.
Defined.

(** ** The order of arrival *)

Lemma tuple_cmp_Eq (a b : list Z) : tuple_cmp a b = Eq -> a = b.
Proof.
  revert b. induction a as [|x a IH]; intros [|y b]; simpl; try discriminate.
  - reflexivity.
  - destruct (Z.compare_spec x y) as [->| |]; try discriminate.
    intros H. f_equal. apply IH. exact H.
Qed.

Lemma dt_tuple_inj (a b : datetime) : dt_tuple a = dt_tuple b -> a = b.
Proof. destruct a, b. unfold dt_tuple. simpl. intros [= -> -> -> -> -> -> ->]. reflexivity. Qed.

Lemma dt_le_neq_ltb (a b : datetime) :
  dt_le a b -> a <> b -> dt_ltb a b = true.
Proof.
  intros Hle Hne. apply dt_le_alt in Hle. unfold dt_ltb.
  destruct (tuple_cmp (dt_tuple a) (dt_tuple b)) eqn:E; try congruence.
  apply tuple_cmp_Eq, dt_tuple_inj in E. contradiction.
Qed.

Lemma dt_ltb_asym (a b : datetime) : dt_ltb a b = true -> dt_ltb b a = false.
Proof. apply dt_ltb_le. Qed.

(** Readings in strictly ascending order of timestamp. *)
Lemma ascending_strict (l : list reading) :
  ascending l -> NoDup (fmap r_timestamp l) ->
  StronglySorted (fun a b => dt_ltb (r_timestamp a) (r_timestamp b) = true) l.
Proof.
  unfold ascending. induction 1 as [|x l Hs IH Hx]; intros Hnd; [constructor|].
  simpl in Hnd. apply NoDup_cons in Hnd. destruct Hnd as [Hnin Hnd].
  constructor; [apply IH; exact Hnd|].
  rewrite Forall_forall in Hx |- *. intros y Hy.
  apply dt_le_neq_ltb; [apply Hx; exact Hy|].
  intros Heq. apply Hnin. rewrite Heq. apply list_elem_of_fmap_2. exact Hy.
Qed.

Lemma strictly_sorted_unique (l1 l2 : list reading) :
  StronglySorted (fun a b => dt_ltb (r_timestamp a) (r_timestamp b) = true) l1 ->
  StronglySorted (fun a b => dt_ltb (r_timestamp a) (r_timestamp b) = true) l2 ->
  l1 ≡ₚ l2 -> l1 = l2.
Proof.
  intros H1. revert l2. induction H1 as [|x l1 Hs1 IH Hx]; intros l2 H2 Hperm.
  - apply Permutation_nil in Hperm. congruence.
  - destruct H2 as [|y l2 Hs2 Hy].
    { symmetry in Hperm. apply Permutation_nil in Hperm. discriminate. }
    assert (Hxy : x = y).
    { assert (Hx2 : x ∈ y :: l2) by (rewrite <- Hperm; left).
      assert (Hy1 : y ∈ x :: l1) by (rewrite Hperm; left).
      apply elem_of_cons in Hx2. destruct Hx2 as [Hx2|Hx2]; [exact Hx2|].
      apply elem_of_cons in Hy1. destruct Hy1 as [Hy1|Hy1]; [congruence|].
      rewrite Forall_forall in Hx, Hy.
      pose proof (Hx y Hy1) as Hlt1. pose proof (Hy x Hx2) as Hlt2.
      apply dt_ltb_asym in Hlt1. congruence. }
    subst y. f_equal. apply IH; [exact Hs2|].
    eapply Permutation_cons_inv. exact Hperm.
Qed.

Lemma sort_by_timestamp_unique (l1 l2 : list reading) :
  l1 ≡ₚ l2 -> NoDup (fmap r_timestamp l1) ->
  sort_by_timestamp l1 = sort_by_timestamp l2.
Proof.
  intros Hperm Hnd.
  assert (Hnd1 : NoDup (fmap r_timestamp (sort_by_timestamp l1))).
  { rewrite <- (sort_by_timestamp_perm l1). exact Hnd. }
  assert (Hnd2 : NoDup (fmap r_timestamp (sort_by_timestamp l2))).
  { rewrite <- (sort_by_timestamp_perm l2), <- Hperm. exact Hnd. }
  apply strictly_sorted_unique.
  - apply ascending_strict; [apply sort_by_timestamp_ascending|exact Hnd1].
  - apply ascending_strict; [apply sort_by_timestamp_ascending|exact Hnd2].
  - rewrite <- (sort_by_timestamp_perm l1), <- (sort_by_timestamp_perm l2). exact Hperm.
Qed.

Lemma filter_NoDup_map (f : reading -> bool) (l : list reading) :
  NoDup (fmap r_timestamp l) -> NoDup (fmap r_timestamp (List.filter f l)).
Proof.
  intros Hnd. eapply sublist_NoDup; [exact Hnd|].
  apply fmap_sublist, filter_sublist.
Qed.

(** When the readings of a key have pairwise different timestamps, the
    order in which they arrived does not matter: two histories that hold
    the same readings sort to the same list of violating readings, call
    for the same alert, and [check_violations] on monitors with the same
    alert list returns the same alert list. *)
Theorem arrival_order_irrelevant (m1 m2 : monitor) (key : Z * string)
    (h1 h2 : list reading) :
  readings m1 !! key = Some h1 -> readings m2 !! key = Some h2 ->
  h1 ≡ₚ h2 -> NoDup (fmap r_timestamp h1) ->
  alerts m1 = alerts m2 ->
  (forall violates : reading -> bool,
     sort_by_timestamp (List.filter violates h1)
     = sort_by_timestamp (List.filter violates h2)) /\
  candidate key h1 = candidate key h2 /\
  exists m1' m2',
    check_violations m1 key = inr m1' /\ check_violations m2 key = inr m2' /\
    alerts m1' = alerts m2'.
Proof.
  intros Hh1 Hh2 Hperm Hnd Hals.
  assert (Hsort : forall violates : reading -> bool,
             sort_by_timestamp (List.filter violates h1)
             = sort_by_timestamp (List.filter violates h2)).
  { intros violates. apply sort_by_timestamp_unique.
    - apply filter_Permutation. exact Hperm.
    - apply filter_NoDup_map. exact Hnd. }
  assert (Hcand : candidate key h1 = candidate key h2).
  { unfold candidate.
    destruct (violation_rule key.2) as [[violates sev]|]; [|reflexivity].
    unfold cluster_alert.
    rewrite (Hsort violates).
    rewrite (Permutation_length (filter_Permutation violates _ _ Hperm)).
    reflexivity. }
  split; [exact Hsort|]. split; [exact Hcand|].
  do 2 eexists. split; [apply (check_violations_offer _ _ _ Hh1)|].
  split; [apply (check_violations_offer _ _ _ Hh2)|].
  simpl. rewrite Hcand, Hals. reflexivity.
Qed.

Lemma arrival_order_irrelevant_witness :
  let m1 := mk_monitor {[ (7, "BATT") := [ex_r1; ex_r2; ex_r3] ]} [] in
  let m2 := mk_monitor {[ (7, "BATT") := [ex_r3; ex_r1; ex_r2] ]} [] in
  candidate (7, "BATT") [ex_r1; ex_r2; ex_r3]
  = candidate (7, "BATT") [ex_r3; ex_r1; ex_r2] /\
  exists m1' m2',
    check_violations m1 (7, "BATT") = inr m1' /\
    check_violations m2 (7, "BATT") = inr m2' /\
    alerts m1' = alerts m2'.
Proof.
  intros m1 m2.
  assert (Hperm : [ex_r1; ex_r2; ex_r3] ≡ₚ [ex_r3; ex_r1; ex_r2]).
  { change [ex_r3; ex_r1; ex_r2] with ([ex_r3] ++ [ex_r1; ex_r2]).
    change [ex_r1; ex_r2; ex_r3] with ([ex_r1; ex_r2] ++ [ex_r3]).
    apply Permutation_app_comm. }
  assert (Hnd : NoDup (fmap r_timestamp [ex_r1; ex_r2; ex_r3])).
  { apply (bool_decide_unpack _). vm_compute. exact I. }
  destruct (arrival_order_irrelevant m1 m2 (7, "BATT") _ _
              (lookup_singleton_eq _ _) (lookup_singleton_eq _ _) Hperm Hnd eq_refl)
    as (_ & Hc & Hrun).
  split; [exact Hc|exact Hrun].
Defined.

(** ** White space around a line *)

Lemma append_cons (c : ascii) (s t : string) :
  String c s +:+ t = String c (s +:+ t).
Proof. reflexivity. Qed.

Lemma lstrip_space_app (ws s : string) :
  all_space ws = true -> PyStr.lstrip (ws +:+ s) = PyStr.lstrip s.
Proof.
  induction ws as [|c ws IH]; intros H; [reflexivity|].
  simpl in H. apply andb_true_iff in H. destruct H as [Hc Hws].
  rewrite append_cons. simpl. rewrite Hc. apply IH. exact Hws.
Qed.

Lemma rstrip_space (ws : string) :
  all_space ws = true -> PyStr.rstrip ws = EmptyString.
Proof.
  induction ws as [|c ws IH]; intros H; [reflexivity|].
  simpl in H. apply andb_true_iff in H. destruct H as [Hc Hws].
  simpl. rewrite (IH Hws), Hc. reflexivity.
Qed.

Lemma rstrip_app_space (s ws : string) :
  all_space ws = true -> PyStr.rstrip (s +:+ ws) = PyStr.rstrip s.
Proof.
  intros H. induction s as [|c s IH]; [apply rstrip_space; exact H|].
  rewrite append_cons. simpl. rewrite IH. reflexivity.
Qed.

Lemma lstrip_space (ws : string) :
  all_space ws = true -> PyStr.lstrip ws = EmptyString.
Proof.
  induction ws as [|c ws IH]; intros H; [reflexivity|].
  simpl in H. apply andb_true_iff in H. destruct H as [Hc Hws].
  simpl. rewrite Hc. apply IH. exact Hws.
Qed.

Lemma strip_app_space (s ws : string) :
  all_space ws = true -> PyStr.strip (s +:+ ws) = PyStr.strip s.
Proof.
  intros H. unfold PyStr.strip. induction s as [|c s IH].
  - change (EmptyString +:+ ws) with ws. rewrite (lstrip_space ws H). reflexivity.
  - rewrite append_cons.
    change (PyStr.lstrip (String c (s +:+ ws)))
      with (if PyStr.is_space c then PyStr.lstrip (s +:+ ws) else String c (s +:+ ws)).
    change (PyStr.lstrip (String c s))
      with (if PyStr.is_space c then PyStr.lstrip s else String c s).
    destruct (PyStr.is_space c); [exact IH|].
    change (String c (s +:+ ws)) with (String c s +:+ ws).
    apply rstrip_app_space. exact H.
Qed.

Lemma strip_surrounded (ws1 s ws2 : string) :
  all_space ws1 = true -> all_space ws2 = true ->
  PyStr.strip (ws1 +:+ s +:+ ws2) = PyStr.strip s.
Proof.
  intros H1 H2. rewrite <- (strip_app_space s ws2 H2).
  unfold PyStr.strip. rewrite (lstrip_space_app _ _ H1). reflexivity.
Qed.

Lemma lstrip_idempotent (s : string) :
  PyStr.lstrip (PyStr.lstrip s) = PyStr.lstrip s.
Proof.
  induction s as [|c s IH]; [reflexivity|].
  simpl. destruct (PyStr.is_space c) eqn:E; [exact IH|]. simpl. rewrite E. reflexivity.
Qed.

Section WhiteSpace.

Variable builtin_int : string -> option Z.
Variable builtin_float : string -> option spec_float.

Lemma process_file_cons (m : monitor) (line : string) (rest : list string) :
  process_file builtin_int builtin_float m (line :: rest)
  = if PyStr.is_empty (PyStr.strip line)
    then process_file builtin_int builtin_float m rest
    else data ← parse_line builtin_int builtin_float line;
         m' ← process_telemetry m data;
         process_file builtin_int builtin_float m' rest.
Proof. reflexivity. Qed.

(** White space before and after a line (indentation, the line
    terminator, a carriage return) does not matter: the stripped text, the
    result of [parse_line], exception included, and whether [process_file]
    skips the line are those of the bare line; and a line of white space
    only is skipped. *)
Theorem surrounding_space_ignored (ws1 line ws2 : string) :
  all_space ws1 = true -> all_space ws2 = true ->
  PyStr.strip (ws1 +:+ line +:+ ws2) = PyStr.strip line /\
  parse_line builtin_int builtin_float (ws1 +:+ line +:+ ws2)
  = parse_line builtin_int builtin_float line /\
  non_blank (ws1 +:+ line +:+ ws2) = non_blank line /\
  (forall (m : monitor) (rest : list string),
     process_file builtin_int builtin_float m ((ws1 +:+ line +:+ ws2) :: rest)
     = process_file builtin_int builtin_float m (line :: rest)) /\
  (forall (m : monitor) (rest : list string),
     process_file builtin_int builtin_float m ((ws1 +:+ ws2) :: rest)
     = process_file builtin_int builtin_float m rest).
Proof.
  intros H1 H2. pose proof (strip_surrounded ws1 line ws2 H1 H2) as Hs.
  split; [exact Hs|].
  assert (Hp : parse_line builtin_int builtin_float (ws1 +:+ line +:+ ws2)
               = parse_line builtin_int builtin_float line)
    by (unfold parse_line; rewrite Hs; reflexivity).
  split; [exact Hp|]. split; [unfold non_blank; rewrite Hs; reflexivity|].
  split.
  - intros m rest. rewrite !process_file_cons, Hs, Hp. reflexivity.
  - intros m rest. rewrite process_file_cons.
    change (ws1 +:+ ws2) with (ws1 +:+ EmptyString +:+ ws2).
    rewrite (strip_surrounded ws1 EmptyString ws2 H1 H2). reflexivity.
Qed.

End WhiteSpace.

Lemma surrounding_space_ignored_witness :
  let crlf := String (ascii_of_nat 13) (String (ascii_of_nat 10) EmptyString) in
  all_space "  " = true /\ all_space crlf = true /\
  parse_line int_decimal float_decimal ("  " +:+ ex_line_long +:+ crlf)
  = parse_line int_decimal float_decimal ex_line_long.
Proof.
  intros crlf.
  assert (H1 : all_space "  " = true) by reflexivity.
  assert (H2 : all_space crlf = true) by reflexivity.
  split; [exact H1|]. split; [exact H2|].
  exact (proj1 (proj2 (surrounding_space_ignored int_decimal float_decimal
                         "  " ex_line_long crlf H1 H2))).
Defined.

(** ** Splitting and joining *)

Lemma split_nonempty (sep : ascii) (s : string) : PyStr.split sep s <> [].
Proof.
  destruct s as [|c s]; simpl; [discriminate|].
  destruct (Ascii.eqb c sep); [discriminate|].
  destruct (PyStr.split sep s); discriminate.
Qed.

Lemma join_cons_char (sep c : ascii) (f : string) (fs : list string) :
  join sep (String c f :: fs) = String c (join sep (f :: fs)).
Proof. destruct fs; reflexivity. Qed.

Lemma join_split (sep : ascii) (s : string) :
  join sep (PyStr.split sep s) = s.
Proof.
  induction s as [|c s IH]; [reflexivity|].
  simpl. destruct (Ascii.eqb_spec c sep) as [->|Hne].
  - pose proof (split_nonempty sep s) as Hn.
    destruct (PyStr.split sep s) as [|g gs] eqn:E; [contradiction|].
    change (join sep (EmptyString :: g :: gs)) with (String sep (join sep (g :: gs))).
    rewrite IH. reflexivity.
  - pose proof (split_nonempty sep s) as Hn.
    destruct (PyStr.split sep s) as [|g gs] eqn:E; [contradiction|].
    rewrite join_cons_char, IH. reflexivity.
Qed.

Lemma split_no_sep (sep : ascii) (f : string) :
  occurs sep f = false -> PyStr.split sep f = [f].
Proof.
  induction f as [|c f IH]; intros H; [reflexivity|].
  simpl in H. apply orb_false_iff in H. destruct H as [Hc Hf].
  simpl. rewrite Hc, (IH Hf). reflexivity.
Qed.

Lemma split_app_sep (sep : ascii) (f rest : string) :
  occurs sep f = false ->
  PyStr.split sep (f +:+ String sep rest) = f :: PyStr.split sep rest.
Proof.
  induction f as [|c f IH]; intros H.
  - simpl. rewrite Ascii.eqb_refl. reflexivity.
  - simpl in H. apply orb_false_iff in H. destruct H as [Hc Hf].
    rewrite append_cons. simpl. rewrite Hc, (IH Hf). reflexivity.
Qed.

Lemma split_join (sep : ascii) (fields : list string) :
  fields <> [] -> Forall (fun f => occurs sep f = false) fields ->
  PyStr.split sep (join sep fields) = fields.
Proof.
  induction fields as [|f fs IH]; intros Hne Hall; [contradiction|].
  inversion Hall as [|? ? Hf Hfs]; subst.
  destruct fs as [|g gs].
  - simpl. apply split_no_sep. exact Hf.
  - change (join sep (f :: g :: gs)) with (f +:+ String sep (join sep (g :: gs))).
    rewrite (split_app_sep _ _ _ Hf), IH; [reflexivity|discriminate|exact Hfs].
Qed.

Lemma split_fields_no_sep (sep : ascii) (s : string) :
  Forall (fun f => occurs sep f = false) (PyStr.split sep s).
Proof.
  induction s as [|c s IH]; simpl; [repeat constructor|].
  destruct (Ascii.eqb c sep) eqn:E; [constructor; [reflexivity|exact IH]|].
  destruct (PyStr.split sep s) as [|g gs]; [repeat constructor; simpl; rewrite E; reflexivity|].
  inversion IH as [|? ? Hg Hgs]; subst.
  constructor; [simpl; rewrite E; exact Hg|exact Hgs].
Qed.

Section Records.

Variable builtin_int : string -> option Z.
Variable builtin_float : string -> option spec_float.

(** Splitting loses nothing and joining is undone by splitting: the
    fields of a text, joined with the separator, give the text back; they
    are never an empty list and none holds the separator; fields free of
    the separator, joined and split, come back as they were.  Hence a
    record written by joining fields free of bars, with no white space at
    its ends, is parsed from exactly those fields. *)
Theorem split_join_round_trip (sep : ascii) :
  (forall s : string,
     join sep (PyStr.split sep s) = s /\
     PyStr.split sep s <> [] /\
     Forall (fun f => occurs sep f = false) (PyStr.split sep s)) /\
  (forall fields : list string,
     fields <> [] -> Forall (fun f => occurs sep f = false) fields ->
     PyStr.split sep (join sep fields) = fields) /\
  (forall fields : list string,
     fields <> [] -> Forall (fun f => occurs "|" f = false) fields ->
     PyStr.strip (join "|" fields) = join "|" fields ->
     parse_line builtin_int builtin_float (join "|" fields)
     = parse_fields builtin_int builtin_float fields).
Proof.
  split; [|split].
  - intros s. split; [apply join_split|]. split; [apply split_nonempty|].
    apply split_fields_no_sep.
  - apply split_join.
  - intros fields Hne Hall Hstrip. unfold parse_line.
    rewrite Hstrip, split_join by assumption. reflexivity.
Qed.

End Records.

Lemma split_join_round_trip_witness :
  let fields := ["20240101 00:00:00.000"; "7"; "101"; "98"; "25"; "20"; "19.9"; "BATT"] in
  PyStr.split "|" (join "|" fields) = fields /\
  parse_line int_decimal float_decimal (join "|" fields)
  = parse_fields int_decimal float_decimal fields.
Proof.
  intros fields.
  assert (Hne : fields <> []) by discriminate.
  assert (Hall : Forall (fun f => occurs "|" f = false) fields)
    by (repeat constructor).
  destruct (split_join_round_trip int_decimal float_decimal "|") as (_ & Hsj & Hparse).
  split; [exact (Hsj fields Hne Hall)|].
  apply (Hparse fields Hne Hall). reflexivity.
Defined.

(** ** Timestamps in the usual layout always parse *)

Lemma head_bind {A B : Type} (p : parser A) (f : A -> parser B)
    (s s' : string) (a : A) (r : B * string) :
  head (p s) = Some (a, s') -> head (f a s') = Some r ->
  head ((p ≫= f) s) = Some r.
Proof.
  unfold mbind, parser_bind, p_bind.
  destruct (p s) as [|[a0 s0] l]; [discriminate|]. intros [= -> ->].
  simpl. destruct (f a s') as [|r0 l0]; [discriminate|]. intros [= ->]. reflexivity.
Qed.

Lemma head_ret {A : Type} (a : A) (s : string) :
  head ((mret a : parser A) s) = Some (a, s).
Proof. reflexivity. Qed.

Tactic Notation "each_below" integer(n) ident(k) :=
  do n (destruct k as [|k]; [first [lia | vm_compute; reflexivity]|]); lia.

Lemma head_re_m (n : Z) (rest : string) :
  1 <= n <= 12 -> head (re_m (dec 2 n +:+ rest)) = Some (n, rest).
Proof.
  intros H.
  assert (Hk : forall k : nat, (1 <= k <= 12)%nat ->
            head (re_m (dec 2 (Z.of_nat k) +:+ rest)) = Some (Z.of_nat k, rest)).
  { intros k Hk. each_below 13 k. }
  rewrite <- (Z2Nat.id n) by lia. apply Hk. lia.
Qed.

Lemma head_re_d (n : Z) (rest : string) :
  1 <= n <= 31 -> head (re_d (dec 2 n +:+ rest)) = Some (n, rest).
Proof.
  intros H.
  assert (Hk : forall k : nat, (1 <= k <= 31)%nat ->
            head (re_d (dec 2 (Z.of_nat k) +:+ rest)) = Some (Z.of_nat k, rest)).
  { intros k Hk. each_below 32 k. }
  rewrite <- (Z2Nat.id n) by lia. apply Hk. lia.
Qed.

Lemma head_spaces_re_H (n : Z) (rest : string) :
  0 <= n <= 23 ->
  head (p_spaces (" " +:+ dec 2 n +:+ rest)) = Some (tt, dec 2 n +:+ rest) /\
  head (re_H (dec 2 n +:+ rest)) = Some (n, rest).
Proof.
  intros H.
  assert (Hk : forall k : nat, (k <= 23)%nat ->
            head (p_spaces (" " +:+ dec 2 (Z.of_nat k) +:+ rest))
            = Some (tt, dec 2 (Z.of_nat k) +:+ rest) /\
            head (re_H (dec 2 (Z.of_nat k) +:+ rest)) = Some (Z.of_nat k, rest)).
  { intros k Hk.
    do 24 (destruct k as [|k]; [split; vm_compute; reflexivity|]). lia. }
  rewrite <- (Z2Nat.id n) by lia. apply Hk. lia.
Qed.

Lemma head_re_M (n : Z) (rest : string) :
  0 <= n <= 59 -> head (re_M (dec 2 n +:+ rest)) = Some (n, rest).
Proof.
  intros H.
  assert (Hk : forall k : nat, (k <= 59)%nat ->
            head (re_M (dec 2 (Z.of_nat k) +:+ rest)) = Some (Z.of_nat k, rest)).
  { intros k Hk. each_below 60 k. }
  rewrite <- (Z2Nat.id n) by lia. apply Hk. lia.
Qed.

Lemma head_re_S (n : Z) (rest : string) :
  0 <= n <= 59 -> head (re_S (dec 2 n +:+ rest)) = Some (n, rest).
Proof.
  intros H.
  assert (Hk : forall k : nat, (k <= 59)%nat ->
            head (re_S (dec 2 (Z.of_nat k) +:+ rest)) = Some (Z.of_nat k, rest)).
  { intros k Hk. each_below 60 k. }
  rewrite <- (Z2Nat.id n) by lia. apply Hk. lia.
Qed.

Lemma head_p_char (c : ascii) (rest : string) :
  head (p_char c (String c rest)) = Some (c, rest).
Proof.
  unfold p_char, p_range. rewrite Nat.leb_refl. reflexivity.
Qed.

Lemma head_p_d (d : Z) (rest : string) :
  0 <= d <= 9 -> head (p_d (String (digit_char d) rest)) = Some (d, rest).
Proof.
  intros H.
  assert (Hk : forall k : nat, (k <= 9)%nat ->
            head (p_d (String (digit_char (Z.of_nat k)) rest)) = Some (Z.of_nat k, rest)).
  { intros k Hk. each_below 10 k. }
  rewrite <- (Z2Nat.id d) by lia. apply Hk. lia.
Qed.

Lemma head_alts_first {A : Type} (p : parser A) (ps : list (parser A))
    (s : string) (r : A * string) :
  head (p s) = Some r -> head (p_alts (p :: ps) s) = Some r.
Proof.
  unfold p_alts. simpl. destruct (p s) as [|r0 l]; [discriminate|].
  intros [= ->]. reflexivity.
Qed.

Lemma head_re_Y (y : Z) (rest : string) :
  0 <= y <= 9999 -> head (re_Y (dec 4 y +:+ rest)) = Some (y, rest).
Proof.
  intros H.
  change (dec 4 y +:+ rest) with
    (String (digit_char (y / 10 / 10 / 10 mod 10))
       (String (digit_char (y / 10 / 10 mod 10))
          (String (digit_char (y / 10 mod 10))
             (String (digit_char (y mod 10)) rest)))).
  replace (Some (y, rest))
    with (Some (1000 * (y / 10 / 10 / 10 mod 10) + 100 * (y / 10 / 10 mod 10)
                + 10 * (y / 10 mod 10) + y mod 10, rest))
    by (do 2 f_equal; Z.div_mod_to_equations; lia).
  unfold re_Y.
  eapply head_bind; [apply head_p_d; Z.div_mod_to_equations; lia|].
  eapply head_bind; [apply head_p_d; Z.div_mod_to_equations; lia|].
  eapply head_bind; [apply head_p_d; Z.div_mod_to_equations; lia|].
  eapply head_bind; [apply head_p_d; Z.div_mod_to_equations; lia|].
  apply head_ret.
Qed.

Lemma head_re_f (f : Z) :
  0 <= f <= 999999 -> head (re_f (dec 6 f)) = Some (f, EmptyString).
Proof.
  intros H.
  change (dec 6 f) with
    (String (digit_char (f / 10 / 10 / 10 / 10 / 10 mod 10))
       (String (digit_char (f / 10 / 10 / 10 / 10 mod 10))
          (String (digit_char (f / 10 / 10 / 10 mod 10))
             (String (digit_char (f / 10 / 10 mod 10))
                (String (digit_char (f / 10 mod 10))
                   (String (digit_char (f mod 10)) EmptyString)))))).
  set (d5 := f / 10 / 10 / 10 / 10 / 10 mod 10).
  set (d4 := f / 10 / 10 / 10 / 10 mod 10).
  set (d3 := f / 10 / 10 / 10 mod 10).
  set (d2 := f / 10 / 10 mod 10).
  set (d1 := f / 10 mod 10).
  set (d0 := f mod 10).
  replace (Some (f, EmptyString))
    with (Some (10 * (10 * (10 * (10 * (10 * d5 + d4) + d3) + d2) + d1) + d0,
                EmptyString))
    by (do 2 f_equal; unfold d5, d4, d3, d2, d1, d0; Z.div_mod_to_equations; lia).
  unfold re_f.
  eapply head_bind;
    [apply head_p_d; unfold d5; Z.div_mod_to_equations; lia|].
  cbn [p_more_digits]. apply head_alts_first.
  eapply head_bind;
    [apply head_p_d; unfold d4; Z.div_mod_to_equations; lia|].
  cbn [p_more_digits]. apply head_alts_first.
  eapply head_bind;
    [apply head_p_d; unfold d3; Z.div_mod_to_equations; lia|].
  cbn [p_more_digits]. apply head_alts_first.
  eapply head_bind;
    [apply head_p_d; unfold d2; Z.div_mod_to_equations; lia|].
  cbn [p_more_digits]. apply head_alts_first.
  eapply head_bind;
    [apply head_p_d; unfold d1; Z.div_mod_to_equations; lia|].
  cbn [p_more_digits]. apply head_alts_first.
  eapply head_bind;
    [apply head_p_d; unfold d0; Z.div_mod_to_equations; lia|].
  cbn [p_more_digits]. apply head_ret.
Qed.

Lemma days_in_month_le_31 (y m : Z) : 1 <= m <= 12 -> _days_in_month y m <= 31.
Proof.
  intros Hm. unfold _days_in_month.
  each_month m; destruct (_is_leap y); simpl; lia.
Qed.

(** The part the two regular expressions share, on a text in the usual
    layout followed by [rest]. *)
Lemma head_date_time {B : Type}
    (k : Z -> Z -> Z -> Z -> Z -> Z -> parser B)
    (t : datetime) (rest : string) (r : B * string) :
  valid t = true ->
  head (k (year t) (month t) (day t) (hour t) (minute t) (second t) rest) = Some r ->
  head ((Y ← re_Y; m ← re_m; d ← re_d; _ ← p_spaces;
         H ← re_H; _ ← p_char ":"; M ← re_M; _ ← p_char ":"; S ← re_S;
         k Y m d H M S) (compact_whole t +:+ rest)) = Some r.
Proof.
  intros Hv Hk. apply valid_bounds in Hv.
  destruct Hv as (Hy & Hm & Hd & HH & HM & HS & _).
  pose proof (days_in_month_le_31 (year t) (month t) Hm) as H31.
  unfold compact_whole. rewrite !append_assoc.
  eapply head_bind; [apply head_re_Y; lia|].
  eapply head_bind; [apply head_re_m; lia|].
  eapply head_bind; [apply head_re_d; lia|].
  eapply head_bind; [apply (head_spaces_re_H (hour t)); lia|].
  eapply head_bind; [apply (head_spaces_re_H (hour t)); lia|].
  eapply head_bind; [apply head_p_char|].
  eapply head_bind; [apply head_re_M; lia|].
  eapply head_bind; [apply head_p_char|].
  eapply head_bind; [apply head_re_S; lia|].
  exact Hk.
Qed.

Lemma strptime_with_head (re : parser datetime) (text : string) (t : datetime) :
  head (re text) = Some (t, EmptyString) -> valid t = true ->
  strptime_with re text = inr t.
Proof.
  unfold strptime_with. destruct (re text) as [|[t0 rest0] l]; [discriminate|].
  intros [= -> ->] Hv. simpl. rewrite Hv. reflexivity.
Qed.

Lemma strptime_whole_compact (t : datetime) :
  valid t = true -> microsecond t = 0 ->
  strptime_whole (compact_whole t) = inr t.
Proof.
  intros Hv Hus. apply strptime_with_head; [|exact Hv].
  rewrite <- (append_empty_r (compact_whole t)). unfold re_whole.
  apply (head_date_time (fun Y m d H M S => mret (mk_datetime Y m d H M S 0)) t);
    [exact Hv|].
  destruct t. simpl in *. subst. reflexivity.
Qed.

Lemma strptime_fractional_compact (t : datetime) :
  valid t = true -> strptime_fractional (compact_fractional t) = inr t.
Proof.
  intros Hv. apply strptime_with_head; [|exact Hv].
  unfold compact_fractional, re_fractional.
  apply (head_date_time
           (fun Y m d H M S =>
              _ ← p_char "."; f ← re_f; mret (mk_datetime Y m d H M S f)) t);
    [exact Hv|].
  eapply head_bind; [apply head_p_char|].
  eapply head_bind;
    [apply head_re_f; apply valid_bounds in Hv; lia|].
  destruct t. reflexivity.
Qed.

(** ** Texts without a dot go to the whole-second format *)

Lemma elem_of_p_bind {A B : Type} (p : parser A) (f : A -> parser B)
    (s : string) (r : B * string) :
  r ∈ (p ≫= f) s <-> exists a s', (a, s') ∈ p s /\ r ∈ f a s'.
Proof.
  unfold mbind, parser_bind, p_bind. rewrite list_elem_of_In, in_flat_map. split.
  - intros ([a s'] & Hin & Hr). exists a, s'.
    split; apply list_elem_of_In; assumption.
  - intros (a & s' & Hin & Hr). exists (a, s').
    split; apply list_elem_of_In; assumption.
Qed.

Lemma consuming_ret {A : Type} (a : A) : consuming (mret a : parser A).
Proof.
  intros c s s' a' Hin Hc. unfold mret, parser_ret, p_ret in Hin.
  apply list_elem_of_singleton in Hin. injection Hin as -> ->. exact Hc.
Qed.

Lemma consuming_bind {A B : Type} (p : parser A) (f : A -> parser B) :
  consuming p -> (forall a, consuming (f a)) -> consuming (p ≫= f).
Proof.
  intros Hp Hf c s s'' b Hin Hc. apply elem_of_p_bind in Hin.
  destruct Hin as (a & s' & Hin1 & Hin2).
  eapply Hp; [exact Hin1|]. eapply Hf; eassumption.
Qed.

Lemma consuming_alts {A : Type} (ps : list (parser A)) :
  Forall consuming ps -> consuming (p_alts ps).
Proof.
  intros Hall c s s' a Hin Hc. unfold p_alts in Hin.
  apply list_elem_of_In, in_flat_map in Hin. destruct Hin as (p & Hp & Hin).
  rewrite Forall_forall in Hall.
  eapply (Hall p); [apply list_elem_of_In; exact Hp|apply list_elem_of_In; exact Hin|exact Hc].
Qed.

Lemma consuming_range (lo hi : ascii) : consuming (p_range lo hi).
Proof.
  intros c s s' a Hin Hc. unfold p_range in Hin.
  destruct s as [|x s]; [apply elem_of_nil in Hin; contradiction|].
  destruct (_ && _)%bool; [|apply elem_of_nil in Hin; contradiction].
  apply list_elem_of_singleton in Hin. injection Hin as -> ->.
  simpl. rewrite Hc. apply orb_true_r.
Qed.

Lemma consuming_spaces : consuming (p_spaces : parser unit).
Proof.
  intros c s. induction s as [|x s IH]; intros s' a Hin Hc.
  - apply elem_of_nil in Hin. contradiction.
  - simpl in Hin. destruct (PyStr.is_space x); [|apply elem_of_nil in Hin; contradiction].
    apply elem_of_app in Hin. simpl. destruct Hin as [Hin|Hin].
    + rewrite (IH _ _ Hin Hc). apply orb_true_r.
    + apply list_elem_of_singleton in Hin. injection Hin as -> ->.
      rewrite Hc. apply orb_true_r.
Qed.

Lemma consuming_digit (lo hi : ascii) : consuming (p_digit lo hi).
Proof.
  unfold p_digit. apply consuming_bind; [apply consuming_range|].
  intros a. apply consuming_ret.
Qed.

Ltac consuming_tac :=
  repeat first
    [ apply consuming_ret
    | apply consuming_digit
    | apply consuming_range
    | apply consuming_spaces
    | apply consuming_bind; [|intros ?]
    | apply consuming_alts; repeat constructor ].

Lemma consuming_date_time :
  consuming (Y ← re_Y; m ← re_m; d ← re_d; _ ← p_spaces;
             H ← re_H; _ ← p_char ":"; M ← re_M; _ ← p_char ":"; S ← re_S;
             mret (Y, m, d, H, M, S)).
Proof.
  unfold re_Y, re_m, re_d, re_H, re_M, re_S, p_d, p_char. consuming_tac.
Qed.

Lemma p_char_elem (c : ascii) (s s' : string) (a : ascii) :
  (a, s') ∈ p_char c s -> occurs c s = true.
Proof.
  unfold p_char, p_range. destruct s as [|x s]; [intros H; apply elem_of_nil in H; contradiction|].
  destruct ((nat_of_ascii c <=? nat_of_ascii x)%nat
            && (nat_of_ascii x <=? nat_of_ascii c)%nat)%bool eqn:E;
    [|intros H; apply elem_of_nil in H; contradiction].
  intros _. apply andb_true_iff in E. destruct E as [E1 E2].
  apply Nat.leb_le in E1, E2.
  assert (Hx : x = c).
  { rewrite <- (ascii_nat_embedding x), <- (ascii_nat_embedding c). f_equal. lia. }
  subst x. simpl. rewrite Ascii.eqb_refl. reflexivity.
Qed.

Lemma re_fractional_needs_dot (text : string) (r : datetime * string) :
  r ∈ re_fractional text -> occurs "." text = true.
Proof.
  unfold re_fractional. intros Hin.
  apply elem_of_p_bind in Hin. destruct Hin as (Y & s1 & H1 & Hin).
  apply elem_of_p_bind in Hin. destruct Hin as (m & s2 & H2 & Hin).
  apply elem_of_p_bind in Hin. destruct Hin as (d & s3 & H3 & Hin).
  apply elem_of_p_bind in Hin. destruct Hin as (u & s4 & H4 & Hin).
  apply elem_of_p_bind in Hin. destruct Hin as (H & s5 & H5 & Hin).
  apply elem_of_p_bind in Hin. destruct Hin as (c1 & s6 & H6 & Hin).
  apply elem_of_p_bind in Hin. destruct Hin as (M & s7 & H7 & Hin).
  apply elem_of_p_bind in Hin. destruct Hin as (c2 & s8 & H8 & Hin).
  apply elem_of_p_bind in Hin. destruct Hin as (S & s9 & H9 & Hin).
  apply elem_of_p_bind in Hin. destruct Hin as (c3 & s10 & H10 & _).
  apply p_char_elem in H10.
  assert (CY : consuming re_Y) by (unfold re_Y, p_d; consuming_tac).
  assert (Cm : consuming re_m) by (unfold re_m, p_char; consuming_tac).
  assert (Cd : consuming re_d) by (unfold re_d, p_d, p_char; consuming_tac).
  assert (CH : consuming re_H) by (unfold re_H, p_d, p_char; consuming_tac).
  assert (CM : consuming re_M) by (unfold re_M, p_d; consuming_tac).
  assert (CS : consuming re_S) by (unfold re_S, p_d, p_char; consuming_tac).
  eapply CY; [exact H1|]. eapply Cm; [exact H2|]. eapply Cd; [exact H3|].
  eapply consuming_spaces; [exact H4|]. eapply CH; [exact H5|].
  eapply consuming_range; [exact H6|]. eapply CM; [exact H7|].
  eapply consuming_range; [exact H8|]. eapply CS; [exact H9|]. exact H10.
Qed.

Lemma strptime_fractional_no_dot (text : string) :
  occurs "." text = false ->
  strptime_fractional text = inl (ValueError text).
Proof.
  intros Hno. unfold strptime_fractional, strptime_with.
  destruct (re_fractional text) as [|r l] eqn:E; [reflexivity|].
  assert (Hin : r ∈ re_fractional text) by (rewrite E; left).
  apply re_fractional_needs_dot in Hin. congruence.
Qed.

Lemma occurs_append (c : ascii) (s t : string) :
  occurs c (s +:+ t) = occurs c s || occurs c t.
Proof.
  induction s as [|x s IH]; [reflexivity|].
  rewrite append_cons. simpl. rewrite IH. apply orb_assoc.
Qed.

Lemma occurs_dot_dec (w : nat) (n : Z) : occurs "." (dec w n) = false.
Proof.
  revert n. induction w as [|w IH]; intros n; [reflexivity|].
  change (dec (S w) n) with (dec w (n / 10) +:+ String (digit_char (n mod 10)) EmptyString).
  rewrite occurs_append, IH, orb_false_l.
  change (occurs "." (String (digit_char (n mod 10)) EmptyString))
    with (Ascii.eqb (digit_char (n mod 10)) "." || false)%bool.
  assert (Hd : 0 <= n mod 10 <= 9) by (Z.div_mod_to_equations; lia).
  assert (Hk : forall k : nat, (k <= 9)%nat ->
            (Ascii.eqb (digit_char (Z.of_nat k)) "." || false)%bool = false).
  { intros k Hk. each_below 10 k. }
  rewrite <- (Z2Nat.id (n mod 10)) by lia. apply Hk. lia.
Qed.

Lemma occurs_dot_compact_whole (t : datetime) :
  occurs "." (compact_whole t) = false.
Proof.
  unfold compact_whole. rewrite !occurs_append, !occurs_dot_dec. reflexivity.
Qed.

(** A timestamp text in the layout [YYYYMMDD HH:MM:SS.ffffff] of a date and
    time the [datetime] constructor accepts parses to that date and time,
    and so does the layout [YYYYMMDD HH:MM:SS] when the microseconds are
    0; the first is formatted for output as [rendered] gives that date and
    time, which for a year from 1000 on is the milliseconds rendering
    [YYYY-MM-DDTHH:MM:SS.mmmZ]; and every text that holds no dot is parsed
    by the whole-second format alone. *)
Theorem timestamp_round_trip (t : datetime) :
  valid t = true ->
  parse_timestamp (compact_fractional t) = inr t /\
  (microsecond t = 0 -> parse_timestamp (compact_whole t) = inr t) /\
  format_timestamp (compact_fractional t) = inr (rendered t) /\
  (1000 <= year t ->
     format_timestamp (compact_fractional t) = inr (iso_millis t)) /\
  (forall text : string,
     occurs "." text = false -> parse_timestamp text = strptime_whole text).
Proof.
  intros Hv.
  assert (Hf : parse_timestamp (compact_fractional t) = inr t).
  { rewrite parse_timestamp_cases, (strptime_fractional_compact t Hv). reflexivity. }
  assert (Hno : forall text : string,
             occurs "." text = false -> parse_timestamp text = strptime_whole text).
  { intros text Hd. rewrite parse_timestamp_cases, (strptime_fractional_no_dot text Hd).
    reflexivity. }
  split; [exact Hf|]. split; [|split; [|split; [|exact Hno]]].
  - intros Hus. rewrite (Hno _ (occurs_dot_compact_whole t)).
    apply strptime_whole_compact; assumption.
  - apply format_timestamp_parsed. exact Hf.
  - intros Hy. rewrite <- (rendered_iso t Hy). apply format_timestamp_parsed. exact Hf.
Qed.

Lemma timestamp_round_trip_witness :
  let t := mk_datetime 2024 2 29 23 59 59 0 in
  valid t = true /\
  compact_whole t = "20240229 23:59:59" /\
  parse_timestamp "20240229 23:59:59.000000" = inr t /\
  parse_timestamp "20240229 23:59:59" = inr t.
Proof.
  intros t. assert (Hv : valid t = true) by reflexivity.
  destruct (timestamp_round_trip t Hv) as (Hf & Hw & _).
  split; [exact Hv|]. split; [reflexivity|]. split; [exact Hf|exact (Hw eq_refl)].
Defined.
